(** * AI Builder Detector: the detection and scoring engine

    A shallow embedding of [functions/_detector.ts], of the batch endpoint
    [functions/api/batch.ts] and of the CSV helpers of [public/app.js], and
    the properties of the score aggregation, confidence labelling, bucket
    decision, signal extraction and batch handling.

    Conventions of the embedding.
    - JavaScript strings are [string]s of ASCII text; [String.length] is the
      number of characters.
    - JavaScript numbers are IEEE 754 binary64 values.  The weights and the
      scores of the detector are integers far below [2^53] and are [Z]; hit
      counts are [nat].  [confidenceLabel], which multiplies by [1.5], works
      on the kernel's binary64 [float]s, and [numberOfZ] is the number of an
      integer.
    - A JavaScript object used as a dictionary ([Record<string, T>]) is a
      plain object: a name it has no property of is looked up in
      [Object.prototype], and an assignment to [__proto__] stores nothing.
      The module [Js] gives [scoreSignals] with these rules, the rows of a
      CSV file are filled with them ([assignCell], [trimmedCell]), and
      [collectHeaders] skips such a header.  The top-level [scoreSignals] is
      the same computation on finite maps of integers; the two agree on
      every signal list whose categories and confidence values are no
      property names of [Object.prototype], which are all the lists the
      detector scores.  Where the iteration order of a dictionary is
      observed ([Object.entries] followed by a sort, [Object.keys]), it is an
      association list in insertion order.
    - [RegExp], [URL] and [fetch] are supplied by the host.  The regular
      expression engine and the URL parser are the fields of the class
      [JsRuntime]; the outcome of the two network requests is the record
      [Network] (the timeouts of the requests only decide which outcome
      occurs).  Every general theorem holds for every runtime and every
      network. *)

From Stdlib Require Import ZArith Lia.
From Stdlib Require Floats Uint63.
From Stdlib Require Import Floats.PrimFloat.
From Stdlib Require Import Strings.String Strings.Ascii.
From Stdlib Require Import Numbers.DecimalString.
From stdpp Require Import gmap strings list fin_maps.

Local Open Scope Z_scope.

(* ------------------------------------------------------------------ *)
(** ** Types *)
(* ------------------------------------------------------------------ *)

(** [interface Signal].  The confidence tier is kept as the string it is at run
    time, so that the fallback weight of [scoreSignals] can be stated. *)
Record Signal := mkSignal {
  category : string;
  description : string;
  confidence : string;
  matchedValue : string;
}.

(** [type Bucket]. *)
Inductive Bucket :=
| platform_assisted
| ai_assisted
| no_ai_signals
| unknown.

(** The type of [bucketConfidence]: ["high" | "medium" | "low" | "none"]. *)
Inductive BucketConfidence :=
| high
| medium
| low
| none.

(** [type PatternEntry = [pattern, confidence, description]]. *)
Definition PatternEntry : Type := string * string * string.

(** [interface PlatformFingerprint]: every pattern group is optional. *)
Record PlatformFingerprint := mkFingerprint {
  hostname : option (list PatternEntry);
  http_header : option (list PatternEntry);
  meta_tag : option (list PatternEntry);
  html_comment : option (list PatternEntry);
  data_attribute : option (list PatternEntry);
  css_class : option (list PatternEntry);
  css_variable : option (list PatternEntry);
  js_global : option (list PatternEntry);
  dom_id : option (list PatternEntry);
  script_content : option (list PatternEntry);
  script_src : option (list PatternEntry);
  link_href : option (list PatternEntry);
  img_src : option (list PatternEntry);
  font : option (list PatternEntry);
}.

(** [interface DetectionResult].  [allPlatformScores] is the dictionary in
    insertion order, which [detectUrl] reads through [Object.entries]. *)
Record DetectionResult := mkResult {
  url : string;
  finalUrl : string;
  bucket : Bucket;
  bucketConfidence : BucketConfidence;
  platform : option string;
  platformScore : Z;
  platformSignals : list Signal;
  allPlatformScores : list (string * Z);
  aiScore : Z;
  aiSignals : list Signal;
  error : option string;
}.

(** A regular expression literal [/source/flags]. *)
Record RegExp := mkRegExp {
  source : string;
  flags : string;
}.

(** The array a successful match returns: [m[0]] and the capture groups
    [m[1]], [m[2]], ... *)
Record RegExpExecArray := mkMatch {
  matched : string;
  captures : list string;
}.

(* ------------------------------------------------------------------ *)
(** ** The host: regular expressions, URLs, the network *)
(* ------------------------------------------------------------------ *)

Class JsRuntime := {
  (** [new RegExp(source, flags).exec(input)] on a fresh expression: the first
      match, if any.  [re.test(input)] is [exec(input) !== null]. *)
  regexpExec : string -> string -> string -> option RegExpExecArray;
  (** The successive matches of a global expression over [input]: what the
      loop [while ((m = re.exec(input)) !== null)] visits and what
      [input.match(re)] collects. *)
  regexpMatchAll : string -> string -> string -> list RegExpExecArray;
  (** [new URL(url).hostname], [None] when the constructor throws. *)
  urlHostname : string -> option string;
  (** [new URL(relative, base).href], [None] when the constructor throws. *)
  urlResolve : string -> string -> option string;
}.

(** What the primary request of [detectUrl] can do.  [fetch] follows redirects;
    a response of any status is a response.  [headers] are the pairs of name
    and value that [response.headers.forEach] passes to its callback, in the
    order of the calls: it is the runtime that lists the headers of the
    response (a header that is repeated is listed once, its values joined). *)
Inductive PageFetch :=
| FetchRejected (message : string)
    (* [fetch] rejects, or is aborted by the timer *)
| BodyRejected (responseUrl : string) (headers : list (string * string)) (message : string)
    (* [response.text()] rejects after the headers were received *)
| Fetched (responseUrl : string) (headers : list (string * string)) (body : string).

(** The network as seen by one detection.  [fetchScript jsUrl] is the body of
    the adjunct bundle, [None] when that request fails or is aborted. *)
Record Network := mkNetwork {
  fetchPage : string -> PageFetch;
  fetchScript : string -> option string;
}.

(* ------------------------------------------------------------------ *)
(** ** Strings *)
(* ------------------------------------------------------------------ *)

(** The double quote character and the line feed, as strings. *)
Definition dq : string := String "034"%char "".
Definition nl : string := String "010"%char "".

Definition lowerChar (c : ascii) : ascii :=
  let n := N_of_ascii c in
  if ((65 <=? n) && (n <=? 90))%N then ascii_of_N (n + 32) else c.

(** [s.toLowerCase()]. *)
Fixpoint toLowerCase (s : string) : string :=
  match s with
  | EmptyString => EmptyString
  | String c s' => String (lowerChar c) (toLowerCase s')
  end.

(** [s.slice(0, n)]: the first [n] characters of [s], all of [s] when it is
    shorter. *)
Fixpoint sliceTo (n : N) (s : string) : string :=
  match s with
  | EmptyString => EmptyString
  | String c s' => if (n =? 0)%N then EmptyString else String c (sliceTo (N.pred n) s')
  end.

(** [s.startsWith(p)]. *)
Definition startsWith (s p : string) : bool := String.prefix p s.

(** [s.includes(p)]. *)
Fixpoint includes (s p : string) : bool :=
  String.prefix p s ||
  match s with
  | EmptyString => false
  | String _ s' => includes s' p
  end.

Definition isSpace (c : ascii) : bool :=
  let n := N_of_ascii c in
  ((n =? 32) || ((9 <=? n) && (n <=? 13)))%N.

Fixpoint trimStart (s : string) : string :=
  match s with
  | String c s' => if isSpace c then trimStart s' else s
  | EmptyString => EmptyString
  end.

Fixpoint trimEnd (s : string) : string :=
  match s with
  | String c s' =>
      match trimEnd s' with
      | EmptyString => if isSpace c then EmptyString else String c EmptyString
      | r => String c r
      end
  | EmptyString => EmptyString
  end.

(** [s.trim()]. *)
Definition trim (s : string) : string := trimEnd (trimStart s).

(** [String(n)] for a hit count. *)
Definition StringOfNat (n : nat) : string := NilEmpty.string_of_uint (Nat.to_uint n).

(** A string in a condition: the empty string is falsy. *)
Definition truthy (s : string) : bool :=
  match s with
  | EmptyString => false
  | String _ _ => true
  end.

(** [a ?? b] where [None] is [undefined]. *)
Definition orElse {A} (a b : option A) : option A :=
  match a with
  | Some _ => a
  | None => b
  end.

(* ------------------------------------------------------------------ *)
(** ** Platform fingerprints and AI heuristic patterns

    The tables of the source, entry for entry.  A double quote inside a
    pattern is spliced in as [dq]. *)
(* ------------------------------------------------------------------ *)

Definition fp_Framer : PlatformFingerprint := {|
  hostname := Some [
      ("\.framer\.website$", "high", "Framer subdomain (.framer.website)");
      ("\.framer\.app$", "high", "Framer subdomain (.framer.app)");
      ("\.framer\.ai$", "high", "Framer subdomain (.framer.ai)") ];
  http_header := Some [
      ("^Framer/", "high", "Framer Server header");
      ("^framer$", "high", "Framer Server header (lowercase)") ];
  meta_tag := Some [
      (("<meta[^>]+name=[" +:+ dq +:+ "']generator[" +:+ dq +:+ "'][^>]+content=[" +:+ dq +:+ "']Framer"), "high", "Framer generator meta tag");
      (("<meta[^>]+content=[" +:+ dq +:+ "']Framer[^" +:+ dq +:+ "']*[" +:+ dq +:+ "'][^>]+name=[" +:+ dq +:+ "']generator[" +:+ dq +:+ "']"), "high", "Framer generator meta tag (reversed)") ];
  html_comment := Some [
      ("Built with Framer", "high", "Framer build comment");
      ("framer\.com", "medium", "Framer URL in HTML comment") ];
  data_attribute := Some [
      ("data-framer-component-type", "high", "Framer component attribute");
      ("data-framer-stack-", "high", "Framer stack layout attribute");
      ("data-framer-appear-id", "high", "Framer appear animation attribute");
      ("data-framer-name", "medium", "Framer name attribute") ];
  css_class := Some [
      ("\bframer-[a-zA-Z0-9]{4,10}\b", "medium", "Framer generated CSS class") ];
  css_variable := Some [
      ("--framer-font-family", "high", "Framer CSS font variable");
      ("--framer-text-color", "high", "Framer CSS text color variable");
      ("--framer-link-", "high", "Framer CSS link variable") ];
  js_global := None;
  dom_id := Some [
      (("id=[" +:+ dq +:+ "']__framer-badge-container[" +:+ dq +:+ "']"), "high", "Framer badge (free tier)") ];
  script_content := None;
  script_src := Some [
      ("framerusercontent\.com", "high", "Framer CDN (framerusercontent.com)");
      ("framerstatic\.com", "high", "Framer static CDN");
      ("events\.framer\.com", "high", "Framer analytics endpoint") ];
  link_href := Some [
      ("framerusercontent\.com", "high", "Framer CDN in stylesheet") ];
  img_src := None;
  font := None
|}.

Definition fp_Webflow : PlatformFingerprint := {|
  hostname := Some [
      ("\.webflow\.io$", "high", "Webflow subdomain (.webflow.io)") ];
  http_header := None;
  meta_tag := Some [
      (("<meta[^>]+content=[" +:+ dq +:+ "']Webflow[" +:+ dq +:+ "'][^>]+name=[" +:+ dq +:+ "']generator[" +:+ dq +:+ "']"), "high", "Webflow generator meta tag");
      (("<meta[^>]+name=[" +:+ dq +:+ "']generator[" +:+ dq +:+ "'][^>]+content=[" +:+ dq +:+ "']Webflow[" +:+ dq +:+ "']"), "high", "Webflow generator meta tag (reversed)") ];
  html_comment := Some [
      ("This site was created in Webflow", "high", "Webflow build comment");
      ("webflow\.com", "medium", "Webflow URL in HTML comment") ];
  data_attribute := Some [
      ("data-wf-domain", "high", "Webflow domain attribute");
      ("data-wf-page", "high", "Webflow page ID attribute");
      ("data-wf-site", "high", "Webflow site ID attribute");
      ("data-wf-experiences", "high", "Webflow experiences attribute");
      ("data-wf--button--variant", "high", "Webflow button component attribute");
      ("data-wf--nav--variant", "high", "Webflow nav component attribute") ];
  css_class := Some [
      ("\bw-mod-js\b", "high", "Webflow w-mod-js class");
      ("\bw-richtext\b", "high", "Webflow rich text class");
      ("\bw-embed\b", "high", "Webflow embed class");
      ("\bw-dyn-list\b", "high", "Webflow dynamic list class");
      ("\bw-dyn-item\b", "high", "Webflow dynamic item class");
      ("\bw-nav\b", "high", "Webflow nav class");
      ("\bw-container\b", "medium", "Webflow container class") ];
  css_variable := Some [
      ("--_color---primary--webflow-blue", "high", "Webflow brand CSS variable");
      ("--wst-button-", "high", "Webflow style token button variable") ];
  js_global := Some [
      ("window\.wf\b", "high", "Webflow JS global (window.wf)");
      ("window\.webflowHost", "high", "Webflow JS host global");
      ("Webflow\.push", "high", "Webflow.push() JS call") ];
  dom_id := None;
  script_content := None;
  script_src := Some [
      ("cdn\.prod\.website-files\.com", "high", "Webflow production CDN");
      ("d3e54v103j8qbb\.cloudfront\.net", "high", "Webflow CloudFront CDN") ];
  link_href := Some [
      ("cdn\.prod\.website-files\.com", "high", "Webflow CDN stylesheet");
      ("\.webflow\.[a-f0-9]+-[a-f0-9]+\.min\.css", "high", "Webflow generated CSS filename") ];
  img_src := None;
  font := None
|}.

Definition fp_Bolt : PlatformFingerprint := {|
  hostname := Some [
      ("\.bolt\.new$", "high", "Bolt preview subdomain (.bolt.new)");
      ("\.stackblitz\.io$", "high", "StackBlitz preview (Bolt host)") ];
  http_header := None;
  meta_tag := Some [
      (("<meta[^>]+name=[" +:+ dq +:+ "']bolt-version[" +:+ dq +:+ "']"), "high", "Bolt version meta tag") ];
  html_comment := Some [
      ("bolt\.new", "high", "bolt.new URL in HTML comment");
      ("<!--remix-island-start-->", "medium", "Remix island comment (Bolt uses Remix)") ];
  data_attribute := None;
  css_class := None;
  css_variable := Some [
      ("--bolt-elements-", "high", "Bolt CSS element variable");
      ("--bolt-ds-", "high", "Bolt design system CSS variable") ];
  js_global := Some [
      ("window\.__allowDOMMutations", "high", "Bolt JS global (__allowDOMMutations)");
      ("window\.__loadingPrompt", "high", "Bolt JS global (__loadingPrompt)");
      ((dq +:+ "bolt_theme" +:+ dq), "medium", "Bolt theme localStorage key") ];
  dom_id := None;
  script_content := None;
  script_src := None;
  link_href := None;
  img_src := None;
  font := None
|}.

Definition fp_v0_Vercel : PlatformFingerprint := {|
  hostname := Some [
      ("\.v0\.dev$", "high", "v0 subdomain (.v0.dev)");
      ("\.v0\.app$", "high", "v0 subdomain (.v0.app)");
      ("\.vusercontent\.net$", "high", "v0 vusercontent preview subdomain") ];
  http_header := None;
  meta_tag := None;
  html_comment := None;
  data_attribute := Some [
      (("data-dpl-id=[" +:+ dq +:+ "']dpl_[a-zA-Z0-9]+[" +:+ dq +:+ "']"), "high", "v0/Vercel deployment ID attribute") ];
  css_class := Some [
      ("\bgeist\b", "medium", "Geist font class (Vercel/v0 proprietary)") ];
  css_variable := None;
  js_global := None;
  dom_id := None;
  script_content := None;
  script_src := Some [
      ("/chat-static/_next/static/", "high", "v0 Next.js static bundle path");
      ("blobs\.vusercontent\.net", "high", "v0 blob storage CDN");
      ("generated\.vusercontent\.net", "high", "v0 generated asset CDN") ];
  link_href := Some [
      ("/chat-static/_next/static/", "high", "v0 Next.js static CSS path");
      ("vusercontent\.net", "high", "v0 CDN in stylesheet") ];
  img_src := None;
  font := None
|}.

Definition fp_Wix : PlatformFingerprint := {|
  hostname := Some [
      ("\.wix\.com$", "high", "Wix subdomain (.wix.com)");
      ("\.wixsite\.com$", "high", "Wix subdomain (.wixsite.com)") ];
  http_header := None;
  meta_tag := Some [
      (("<meta[^>]+name=[" +:+ dq +:+ "']generator[" +:+ dq +:+ "'][^>]+content=[" +:+ dq +:+ "']Wix\.com"), "high", "Wix generator meta tag");
      (("<meta[^>]+content=[" +:+ dq +:+ "']Wix\.com[^" +:+ dq +:+ "']*[" +:+ dq +:+ "'][^>]+name=[" +:+ dq +:+ "']generator[" +:+ dq +:+ "']"), "high", "Wix generator meta tag (reversed)") ];
  html_comment := None;
  data_attribute := None;
  css_class := None;
  css_variable := Some [
      ("--color_\d+\s*:", "medium", "Wix numbered color CSS variable");
      ("--font_\d+\s*:", "medium", "Wix numbered font CSS variable");
      ("--wix-ads-height", "high", "Wix ads height CSS variable") ];
  js_global := None;
  dom_id := Some [
      (("id=[" +:+ dq +:+ "']SITE_CONTAINER[" +:+ dq +:+ "']"), "high", "Wix SITE_CONTAINER element");
      (("id=[" +:+ dq +:+ "']SITE_HEADER[" +:+ dq +:+ "']"), "high", "Wix SITE_HEADER element");
      (("id=[" +:+ dq +:+ "']SITE_FOOTER[" +:+ dq +:+ "']"), "high", "Wix SITE_FOOTER element");
      (("id=[" +:+ dq +:+ "']WIX_ADS[" +:+ dq +:+ "']"), "high", "Wix ads element (free tier)");
      (("id=[" +:+ dq +:+ "']masterPage[" +:+ dq +:+ "']"), "high", "Wix masterPage element") ];
  script_content := Some [
      ("wix-thunderbolt", "high", "Wix Thunderbolt renderer reference");
      ((dq +:+ "applicationId" +:+ dq +:+ "\s*:\s*" +:+ dq +:+ "wix-"), "high", "Wix application ID in JSON") ];
  script_src := Some [
      ("static\.parastorage\.com", "high", "Wix parastorage CDN");
      ("static\.wixstatic\.com", "high", "Wix static CDN");
      ("siteassets\.parastorage\.com", "high", "Wix site assets CDN") ];
  link_href := Some [
      ("static\.parastorage\.com", "high", "Wix parastorage CDN stylesheet");
      ("static\.wixstatic\.com", "high", "Wix static CDN stylesheet") ];
  img_src := None;
  font := None
|}.

Definition fp_Lovable : PlatformFingerprint := {|
  hostname := Some [
      ("\.lovable\.app$", "high", "Lovable preview subdomain (.lovable.app)");
      ("\.gptengineer\.app$", "high", "Lovable legacy subdomain (.gptengineer.app)") ];
  http_header := None;
  meta_tag := Some [
      (("<meta[^>]+name=[" +:+ dq +:+ "']generator[" +:+ dq +:+ "'][^>]+content=[" +:+ dq +:+ "']Lovable"), "high", "Lovable generator meta tag") ];
  html_comment := Some [
      ("[Ll]ovable", "medium", "Lovable mention in HTML comment") ];
  data_attribute := None;
  css_class := None;
  css_variable := None;
  js_global := Some [
      ("window\.__lovable", "high", "Lovable JS global") ];
  dom_id := Some [
      (("id=[" +:+ dq +:+ "']lovable-badge[" +:+ dq +:+ "']"), "high", "Lovable badge (free tier)") ];
  script_content := None;
  script_src := Some [
      ("/lovable-uploads/[0-9a-f]{8}-[0-9a-f]{4}-[0-9a-f]{4}-[0-9a-f]{4}-[0-9a-f]{12}\.[a-z]+", "high", "Lovable UUID uploads asset") ];
  link_href := None;
  img_src := Some [
      ("/lovable-uploads/[0-9a-f]{8}-[0-9a-f]{4}-[0-9a-f]{4}-[0-9a-f]{4}-[0-9a-f]{12}\.[a-z]+", "high", "Lovable UUID uploads image") ];
  font := None
|}.

Definition fp_Squarespace : PlatformFingerprint := {|
  hostname := Some [
      ("\.squarespace\.com$", "high", "Squarespace subdomain (.squarespace.com)") ];
  http_header := Some [
      ("Squarespace", "high", "Squarespace server header") ];
  meta_tag := Some [
      (("<meta[^>]+name=[" +:+ dq +:+ "']generator[" +:+ dq +:+ "'][^>]+content=[" +:+ dq +:+ "']Squarespace"), "high", "Squarespace generator meta tag");
      (("<meta[^>]+content=[" +:+ dq +:+ "']Squarespace[^" +:+ dq +:+ "']*[" +:+ dq +:+ "'][^>]+name=[" +:+ dq +:+ "']generator[" +:+ dq +:+ "']"), "high", "Squarespace generator meta tag (reversed)") ];
  html_comment := Some [
      ("Squarespace", "medium", "Squarespace mention in HTML comment") ];
  data_attribute := None;
  css_class := Some [
      ("\bsqs-block\b", "high", "Squarespace block CSS class");
      ("\bsqs-layout\b", "high", "Squarespace layout CSS class");
      ("\bsqs-col-wrapper\b", "high", "Squarespace col wrapper CSS class") ];
  css_variable := None;
  js_global := Some [
      ("window\.SQUARESPACE_ROLLUPS", "high", "Squarespace JS rollups global");
      ("Static\.SQUARESPACE_CONTEXT", "high", "Squarespace context global");
      ("Y\.Squarespace", "high", "Squarespace YUI namespace") ];
  dom_id := None;
  script_content := None;
  script_src := Some [
      ("static\d*\.squarespace\.com", "high", "Squarespace static CDN");
      ("squarespace\.com/universal/scripts", "high", "Squarespace universal scripts") ];
  link_href := Some [
      ("static\d*\.squarespace\.com", "high", "Squarespace CDN stylesheet") ];
  img_src := None;
  font := None
|}.

Definition fp_GitHub_Pages : PlatformFingerprint := {|
  hostname := Some [
      ("\.github\.io$", "high", "GitHub Pages subdomain (.github.io)") ];
  http_header := Some [
      ("GitHub\.com", "high", "GitHub.com server header") ];
  meta_tag := None;
  html_comment := Some [
      ("[Gg]it[Hh]ub\s*[Cc]opilot|[Cc]opilot\s*[Ww]orkspace", "low", "GitHub Copilot mention in HTML comment") ];
  data_attribute := None;
  css_class := None;
  css_variable := None;
  js_global := None;
  dom_id := None;
  script_content := None;
  script_src := None;
  link_href := None;
  img_src := None;
  font := None
|}.

Definition fp_Cursor_AI : PlatformFingerprint := {|
  hostname := None;
  http_header := None;
  meta_tag := Some [
      (("<meta[^>]+content=[" +:+ dq +:+ "'][Cc]ursor\s*[Aa][Ii][" +:+ dq +:+ "']"), "low", "Cursor AI meta tag") ];
  html_comment := Some [
      ("[Cc]ursor\s*[Aa][Ii]|built\s+with\s+[Cc]ursor", "low", "Cursor AI mention in HTML comment") ];
  data_attribute := None;
  css_class := None;
  css_variable := None;
  js_global := None;
  dom_id := None;
  script_content := None;
  script_src := None;
  link_href := None;
  img_src := None;
  font := None
|}.

Definition FINGERPRINTS : list (string * PlatformFingerprint) :=
  [ ("Framer", fp_Framer);
    ("Webflow", fp_Webflow);
    ("Bolt", fp_Bolt);
    ("v0 (Vercel)", fp_v0_Vercel);
    ("Wix", fp_Wix);
    ("Lovable", fp_Lovable);
    ("Squarespace", fp_Squarespace);
    ("GitHub Pages", fp_GitHub_Pages);
    ("Cursor AI", fp_Cursor_AI) ].

Definition OVER_COMMENTER_PATTERNS : list RegExp :=
  [ mkRegExp "\/\/\s*(This function|Here we|Loop through|Initialize the|Check if|This will|We need to|Now we|First we|Get the|Set the|Add the|Create the|Update the|Handle the|This is (a|the)|This component|This page|This renders|The following)" "i";
    mkRegExp "\/\*\s*(This function|Initialize|Loop|Handle|Create|Update|Get|Set|Add)\b" "i";
    mkRegExp "<!--\s*(This section|This is the|Navigation|Header section|Footer section|Main content|Hero section|This div|Wrapper for|Container for)" "i" ].

Definition SHADCN_PATTERNS : list RegExp :=
  [ mkRegExp "rounded-lg border bg-card text-card-foreground shadow" "";
    mkRegExp "inline-flex items-center justify-center (gap-2 )?whitespace-nowrap rounded-md text-sm font-medium" "";
    mkRegExp "inline-flex items-center rounded-full border px-2\.5 py-0\.5 text-xs font-semibold" "";
    mkRegExp "flex h-(?:9|10) w-full rounded-md border border-input bg-background px-3 py-[12]" "";
    mkRegExp "fixed inset-0 z-50 bg-black\/80" "";
    mkRegExp "fixed inset-y-0 z-50 flex (h-full )?flex-col" "";
    mkRegExp "function cn\([^)]*\)\s*\{[\s\S]{0,100}clsx|twMerge" "";
    mkRegExp "@radix-ui\/" "" ].

Definition TAILWIND_PATTERNS : list RegExp :=
  [ mkRegExp ("class(?:Name)?=" +:+ dq +:+ "[^" +:+ dq +:+ "]*(?:flex|grid)[^" +:+ dq +:+ "]*(?:items-center|justify-between)[^" +:+ dq +:+ "]*(?:gap-|space-)[^" +:+ dq +:+ "]*" +:+ dq) "";
    mkRegExp ("class(?:Name)?=" +:+ dq +:+ "[^" +:+ dq +:+ "]*(?:sm:|md:|lg:|xl:|dark:){3,}[^" +:+ dq +:+ "]*" +:+ dq) "";
    mkRegExp "(?:bg|text|border)-(?:slate|gray|zinc|neutral|stone|blue|indigo|violet|purple)-(?:50|100|200|300|400|500|600|700|800|900|950)" "" ].

Definition VITE_PATTERNS : list RegExp :=
  [ mkRegExp "\/assets\/index-[A-Za-z0-9_-]{6,12}\.js" "";
    mkRegExp "\/assets\/index-[A-Za-z0-9_-]{6,12}\.css" "" ].

Definition REACT_SPA_PATTERNS : list RegExp :=
  [ mkRegExp ("<div id=" +:+ dq +:+ "root" +:+ dq +:+ ">\s*<\/div>") "";
    mkRegExp ("<div id=" +:+ dq +:+ "app" +:+ dq +:+ ">\s*<\/div>") "" ].

Definition LUCIDE_PATTERNS : list RegExp :=
  [ mkRegExp "lucide[-_]react" "i";
    mkRegExp "lucide" "i";
    mkRegExp "M\s*12\s+2[Cc]\s*6\.477\s+2" "";
    mkRegExp "M\s*3\s+12[Hh]\s*21" "" ].

Definition PLACEHOLDER_LINK_PATTERNS : list RegExp :=
  [ mkRegExp ("href=[" +:+ dq +:+ "']https?:\/\/(?:www\.)?example\.com[" +:+ dq +:+ "']") "gi";
    mkRegExp ("href=[" +:+ dq +:+ "']https?:\/\/(?:www\.)?yourdomain\.com[" +:+ dq +:+ "']") "gi";
    mkRegExp ("href=[" +:+ dq +:+ "']https?:\/\/(?:www\.)?placeholder\.com[" +:+ dq +:+ "']") "gi";
    mkRegExp ("action=[" +:+ dq +:+ "']\/api\/your[-_]endpoint[" +:+ dq +:+ "']") "gi";
    mkRegExp ("[" +:+ dq +:+ "']https?:\/\/api\.example\.com\/") "gi";
    mkRegExp ("href=[" +:+ dq +:+ "']mailto:you@example\.com[" +:+ dq +:+ "']") "gi";
    mkRegExp ("href=[" +:+ dq +:+ "']mailto:email@yourdomain\.com[" +:+ dq +:+ "']") "gi";
    mkRegExp ("href=[" +:+ dq +:+ "']mailto:info@yourcompany\.com[" +:+ dq +:+ "']") "gi" ].

Definition GENERIC_NAMING_PATTERNS : list RegExp :=
  [ mkRegExp ("class(?:Name)?=" +:+ dq +:+ "[^" +:+ dq +:+ "]*\b(?:container|wrapper|section|block|div|col|row|item|card|box|panel|element|component)-\d+\b") "gi";
    mkRegExp ("id=" +:+ dq +:+ "[^" +:+ dq +:+ "]*\b(?:container|wrapper|section|block|div)-\d+\b") "gi";
    mkRegExp ("\bdata-(?:block|wrapper|element|component)=" +:+ dq +:+ "\d*" +:+ dq) "gi" ].

Definition PROTOTYPE_HOSTING_HOSTNAMES : list RegExp :=
  [ mkRegExp "\.vercel\.app$" "i";
    mkRegExp "\.netlify\.app$" "i";
    mkRegExp "\.pages\.dev$" "i";
    mkRegExp "\.onrender\.com$" "i";
    mkRegExp "\.fly\.dev$" "i";
    mkRegExp "\.railway\.app$" "i";
    mkRegExp "\.up\.railway\.app$" "i";
    mkRegExp "\.glitch\.me$" "i";
    mkRegExp "\.stackblitz\.io$" "i";
    mkRegExp "\.codesandbox\.io$" "i" ].

Definition AI_GENERATOR_META_PATTERNS : list RegExp :=
  [ mkRegExp ("<meta[^>]+name=[" +:+ dq +:+ "']generator[" +:+ dq +:+ "'][^>]+content=[" +:+ dq +:+ "'][^" +:+ dq +:+ "']*(?:Hostinger\s*AI|AI\s*Website|Durable\.co|10Web|Jimdo\s*AI|GoDaddy\s*AI|Wix\s*ADI|Zyro)[^" +:+ dq +:+ "']*[" +:+ dq +:+ "']") "i";
    mkRegExp ("<meta[^>]+content=[" +:+ dq +:+ "'][^" +:+ dq +:+ "']*(?:Hostinger\s*AI|AI\s*Website|Durable\.co|10Web|Jimdo\s*AI|GoDaddy\s*AI|Wix\s*ADI|Zyro)[^" +:+ dq +:+ "']*[" +:+ dq +:+ "'][^>]+name=[" +:+ dq +:+ "']generator[" +:+ dq +:+ "']") "i" ].

(** The expression that finds the first JS bundle of the page in
    [detectAiHeuristics]. *)
Definition BUNDLE_SRC_PATTERN : string :=
  "src=[" +:+ dq +:+ "']([^" +:+ dq +:+ "']*\/assets\/[^" +:+ dq +:+ "']+\.js)['" +:+ dq +:+ "]".

(* ------------------------------------------------------------------ *)
(** ** Scoring constants *)
(* ------------------------------------------------------------------ *)

(** The two dictionaries of [scoreSignals], [CONFIDENCE_WEIGHTS] and
    [byCategory], are plain objects, so a name that is no property of the
    dictionary itself is looked up in [Object.prototype].  The definitions
    below, down to [scoreSignals], give the dictionaries as finite maps of
    integers: they are what the code computes when no category and no
    confidence value of a signal is a property name of [Object.prototype]
    (lemma [scoreSignals_plain]), which is so for every signal the detector
    emits (lemma [detector_signals_plain]).  The module [Js] after them gives
    [scoreSignals] on every signal, with the inherited properties. *)
Definition CONFIDENCE_WEIGHTS : gmap string Z :=
  <["high" := 10]> (<["medium" := 5]> (<["low" := 2]> ∅)).

Definition MIN_PLATFORM_SCORE : Z := 5.
Definition MIN_AI_SCORE : Z := 10.
Definition CATEGORY_CAP : Z := 15.

(** [CONFIDENCE_WEIGHTS[sig.confidence] ?? 1] as an integer, which is the
    weight the specification gives: 1 for every value but the three tiers. *)
Definition weightOf (sig : Signal) : Z :=
  default 1 (CONFIDENCE_WEIGHTS !! confidence sig).

(** The loop of [scoreSignals]: one step per signal, on the dictionary
    [byCategory]. *)
Definition addSignal (byCategory : gmap string Z) (sig : Signal) : gmap string Z :=
  let w := weightOf sig in
  <[category sig := default 0 (byCategory !! category sig) + w]> byCategory.

Definition groupByCategory (signals : list Signal) : gmap string Z :=
  foldl addSignal ∅ signals.

(** [Object.values(byCategory).reduce((sum, v) => sum + Math.min(v, CATEGORY_CAP), 0)]. *)
Definition sumCapped (byCategory : gmap string Z) : Z :=
  map_fold (fun _ v sum => sum + Z.min v CATEGORY_CAP) 0 byCategory.

Definition scoreSignals (signals : list Signal) : Z :=
  sumCapped (groupByCategory signals).

(** The property names of [Object.prototype]. *)
Definition OBJECT_PROTOTYPE_KEYS : list string :=
  [ "constructor"; "__defineGetter__"; "__defineSetter__"; "hasOwnProperty";
    "__lookupGetter__"; "__lookupSetter__"; "isPrototypeOf";
    "propertyIsEnumerable"; "toString"; "valueOf"; "__proto__";
    "toLocaleString" ].

Definition inheritedKey (k : string) : bool :=
  bool_decide (k ∈ OBJECT_PROTOTYPE_KEYS).

(** A signal whose category and confidence value are no property names of
    [Object.prototype]. *)
Definition plainSignal (sig : Signal) : Prop :=
  inheritedKey (category sig) = false /\ inheritedKey (confidence sig) = false.

(** What a property of the two dictionaries can hold: an integer, or a value
    that is no number (an inherited function or object, or the string that
    [+] makes of one and a number). *)
Inductive JsValue :=
| JsInteger (n : Z)
| JsOther.

(** The result of [scoreSignals]: an integer or NaN. *)
Inductive JsNumber :=
| Finite (n : Z)
| NaN.

Module Js.

(** [obj[k]] on a plain object whose own properties are [obj]; [None] is
    [undefined]. *)
Definition get (obj : gmap string JsValue) (k : string) : option JsValue :=
  match obj !! k with
  | Some v => Some v
  | None => if inheritedKey k then Some JsOther else None
  end.

(** [obj[k] = v] for a number or a string [v]: the setter of [__proto__]
    ignores such a value, any other name becomes a property of the object
    itself. *)
Definition set (obj : gmap string JsValue) (k : string) (v : JsValue)
  : gmap string JsValue :=
  if String.eqb k "__proto__" then obj else <[k := v]> obj.

(** [a + b]: the sum of two integers; when an operand is no number both are
    turned into strings and joined, and the string is no numeral. *)
Definition add (a b : JsValue) : JsValue :=
  match a, b with
  | JsInteger x, JsInteger y => JsInteger (x + y)
  | _, _ => JsOther
  end.

Definition CONFIDENCE_WEIGHTS : gmap string JsValue :=
  <["high" := JsInteger 10]> (<["medium" := JsInteger 5]> (<["low" := JsInteger 2]> ∅)).

(** [CONFIDENCE_WEIGHTS[sig.confidence] ?? 1]. *)
Definition weightOf (sig : Signal) : JsValue :=
  default (JsInteger 1) (get CONFIDENCE_WEIGHTS (confidence sig)).

(** The loop of [scoreSignals]: one step per signal, on the dictionary
    [byCategory]. *)
Definition addSignal (byCategory : gmap string JsValue) (sig : Signal)
  : gmap string JsValue :=
  let w := weightOf sig in
  set byCategory (category sig)
    (add (default (JsInteger 0) (get byCategory (category sig))) w).

Definition groupByCategory (signals : list Signal) : gmap string JsValue :=
  foldl addSignal ∅ signals.

(** [sum + Math.min(v, CATEGORY_CAP)]: [Math.min] of a value that is no
    number is NaN, and a sum with NaN is NaN. *)
Definition addCapped (sum : JsNumber) (v : JsValue) : JsNumber :=
  match sum, v with
  | Finite total, JsInteger n => Finite (total + Z.min n CATEGORY_CAP)
  | _, _ => NaN
  end.

(** [Object.values(byCategory).reduce((sum, v) => sum + Math.min(v, CATEGORY_CAP), 0)]. *)
Definition sumCapped (byCategory : gmap string JsValue) : JsNumber :=
  map_fold (fun _ v sum => addCapped sum v) (Finite 0) byCategory.

Definition scoreSignals (signals : list Signal) : JsNumber :=
  sumCapped (groupByCategory signals).

End Js.

(** The JavaScript number of an integer.  Numbers are IEEE 754 binary64
    values, which the kernel's [float]s are; the conversion is exact for an
    integer of absolute value at most [2^53], and every score is far below. *)
Definition numberOfZ (z : Z) : float :=
  if z <? 0 then PrimFloat.opp (PrimFloat.of_uint63 (Uint63.of_Z (- z)))
  else PrimFloat.of_uint63 (Uint63.of_Z z).

(** [score >= min * 3], [score >= min * 1.5], [score >= min]: the products
    are binary64 products, rounded as the machine rounds them, and a
    comparison with NaN is false. *)
Definition confidenceLabel (score min : float) : BucketConfidence :=
  if PrimFloat.leb (PrimFloat.mul min 3%float) score then high
  else if PrimFloat.leb (PrimFloat.mul min 1.5%float) score then medium
  else if PrimFloat.leb min score then low
  else none.

(** Equality of two labels, as a boolean. *)
Definition sameLabel (a b : BucketConfidence) : bool :=
  match a, b with
  | high, high | medium, medium | low, low | none, none => true
  | _, _ => false
  end.


(* ------------------------------------------------------------------ *)
(** ** Pattern matching helpers *)
(* ------------------------------------------------------------------ *)

Section Engine.

Context {rt : JsRuntime}.

(** [new RegExp(pat, fl).test(input)]. *)
Definition regexpTest (pat fl input : string) : bool :=
  match regexpExec pat fl input with
  | Some _ => true
  | None => false
  end.

(** [re.test(input)] for a literal of the tables. *)
Definition test (re : RegExp) (input : string) : bool :=
  regexpTest (source re) (flags re) input.

Definition matchAll (html : string) (patterns : list PatternEntry) (category : string)
  : list Signal :=
  flat_map (fun '(pat, conf, desc) =>
    match regexpExec pat "is" html with
    | Some m => [mkSignal category desc conf (sliceTo 120%N (matched m))]
    | None => []
    end) patterns.

(** [tagMatch[1]]. *)
Definition group1 (m : RegExpExecArray) : string := default "" (captures m !! 0%nat).

(** The inner loop of [matchTagSrcs]: the first pattern that matches [src]
    gives the signal, then [break]. *)
Fixpoint firstUrlMatch (src : string) (urlPatterns : list PatternEntry) (category : string)
  : list Signal :=
  match urlPatterns with
  | [] => []
  | (pat, conf, desc) :: rest =>
      if regexpTest pat "i" src
      then [mkSignal category desc conf (sliceTo 120%N src)]
      else firstUrlMatch src rest category
  end.

Definition matchTagSrcs (html tagPattern : string) (urlPatterns : list PatternEntry)
    (category : string) : list Signal :=
  flat_map (fun tagMatch => firstUrlMatch (group1 tagMatch) urlPatterns category)
    (regexpMatchAll tagPattern "gi" html).

Definition extractHostname (u : string) : string :=
  match urlHostname u with
  | Some h => toLowerCase h
  | None => toLowerCase u
  end.

(* ------------------------------------------------------------------ *)
(** ** Platform detector *)
(* ------------------------------------------------------------------ *)

(** [htmlCategories], each name with the group it selects in a fingerprint. *)
Definition htmlCategories : list (string * (PlatformFingerprint -> option (list PatternEntry))) :=
  [ ("meta_tag", meta_tag); ("html_comment", html_comment);
    ("data_attribute", data_attribute); ("css_class", css_class);
    ("css_variable", css_variable); ("js_global", js_global);
    ("dom_id", dom_id); ("script_content", script_content); ("font", font) ].

(** [if (group) for (entry of group) ...]: nothing when the group is absent. *)
Definition whenPresent {A} (group : option (list PatternEntry))
    (k : list PatternEntry -> list A) : list A :=
  match group with
  | Some patterns => k patterns
  | None => []
  end.

Definition detectPlatform (platformName : string) (fp : PlatformFingerprint)
    (html : string) (headers : gmap string string) (finalUrl : string) : list Signal :=
  let hostName := extractHostname finalUrl in
  (* fp.hostname *)
  whenPresent (hostname fp) (flat_map (fun '(pat, conf, desc) =>
     if regexpTest pat "i" hostName
     then [mkSignal "hostname" desc conf hostName] else []))
  (* fp.http_header *)
  ++ whenPresent (http_header fp) (fun patterns =>
       let server := default "" (headers !! "server") in
       flat_map (fun '(pat, conf, desc) =>
         if regexpTest pat "i" server
         then [mkSignal "http_header"
                 (desc +:+ " [server: " +:+ sliceTo 60%N server +:+ "]") conf
                 (sliceTo 60%N server)]
         else []) patterns)
  (* platform === "Wix" *)
  ++ (if String.eqb platformName "Wix" then
        let pepyaka := default "" (headers !! "server") in
        (if regexpTest "Pepyaka" "i" pepyaka
         then [mkSignal "http_header" ("Wix Pepyaka server [server: " +:+ pepyaka +:+ "]")
                 "high" pepyaka]
         else [])
        ++ (if String.eqb (trim (default "" (headers !! "x-meta-site-is-wix-site"))) "1"
            then [mkSignal "http_header" "Wix site confirmation header" "high" "1"]
            else [])
      else [])
  (* platform === "Bolt" *)
  ++ (if String.eqb platformName "Bolt" then
        let sv := default "" (headers !! "server-version") in
        if truthy sv
        then [mkSignal "http_header" ("Bolt server-version header [" +:+ sliceTo 60%N sv +:+ "]")
                "high" (sliceTo 60%N sv)]
        else []
      else [])
  (* htmlCategories *)
  ++ flat_map (fun '(cat, group) =>
       whenPresent (group fp) (fun patterns => matchAll html patterns cat)) htmlCategories
  (* script_src, link_href, img_src *)
  ++ whenPresent (script_src fp) (fun patterns =>
       matchTagSrcs html ("<script[^>]+src=[" +:+ dq +:+ "']([^" +:+ dq +:+ "']+)[" +:+ dq +:+ "']")
         patterns "cdn_url")
  ++ whenPresent (link_href fp) (fun patterns =>
       matchTagSrcs html ("<link[^>]+href=[" +:+ dq +:+ "']([^" +:+ dq +:+ "']+)[" +:+ dq +:+ "']")
         patterns "cdn_url")
  ++ whenPresent (img_src fp) (fun patterns =>
       matchTagSrcs html ("<img[^>]+src=[" +:+ dq +:+ "']([^" +:+ dq +:+ "']+)[" +:+ dq +:+ "']")
         patterns "cdn_url").

(* ------------------------------------------------------------------ *)
(** ** AI heuristic detector *)
(* ------------------------------------------------------------------ *)

(** The bundle is read up to 300kb. *)
Definition JS_SOURCE_LIMIT : N := 300000.

(** The first JS bundle of the page: [""] when the page links none, when its
    URL cannot be resolved, or when the request fails. *)
Definition fetchJsSource (net : Network) (html finalUrl : string) : string :=
  match regexpExec BUNDLE_SRC_PATTERN "i" html with
  | Some scriptMatch =>
      let jsUrl :=
        if startsWith (group1 scriptMatch) "http"
        then Some (group1 scriptMatch)
        else urlResolve (group1 scriptMatch) finalUrl in
      match jsUrl with
      | Some jsUrl =>
          match fetchScript net jsUrl with
          | Some body => sliceTo JS_SOURCE_LIMIT body
          | None => ""
          end
      | None => ""
      end
  | None => ""
  end.

(** [hits += input.match(new RegExp(pat.source, fl pat))?.length ?? 0] over a
    table. *)
Definition countOccurrences (fl : RegExp -> string) (patterns : list RegExp)
    (input : string) : nat :=
  foldl (fun hits pat => (hits + length (regexpMatchAll (source pat) (fl pat) input))%nat)
    0%nat patterns.

(** [if (pat.test(input)) hits++] over a table. *)
Definition countFiring (patterns : list RegExp) (input : string) : nat :=
  foldl (fun hits pat => if test pat input then S hits else hits) 0%nat patterns.

(** 1. Over-commenter detection. *)
Definition overCommenter (fullSource : string) : list Signal :=
  let commentHits :=
    countOccurrences
      (fun pat => if includes (flags pat) "g" then flags pat else flags pat +:+ "g")
      OVER_COMMENTER_PATTERNS fullSource in
  if (5 <=? commentHits)%nat then
    [mkSignal "over_commenter"
       ("Tutorial-style comments detected (" +:+ StringOfNat commentHits
          +:+ " matches) — AI models over-explain trivial code")
       "high" (StringOfNat commentHits)]
  else if (2 <=? commentHits)%nat then
    [mkSignal "over_commenter"
       ("Some tutorial-style comments detected (" +:+ StringOfNat commentHits +:+ " matches)")
       "medium" (StringOfNat commentHits)]
  else [].

(** 2. shadcn/ui signatures. *)
Definition shadcnUi (fullSource : string) : list Signal :=
  let shadcnHits := countFiring SHADCN_PATTERNS fullSource in
  if (3 <=? shadcnHits)%nat then
    [mkSignal "shadcn_ui"
       ("shadcn/ui component signatures detected (" +:+ StringOfNat shadcnHits
          +:+ " patterns) — AI coding tools default to shadcn")
       "high" (StringOfNat shadcnHits)]
  else if (1 <=? shadcnHits)%nat then
    [mkSignal "shadcn_ui"
       ("shadcn/ui component signatures detected (" +:+ StringOfNat shadcnHits +:+ " patterns)")
       "medium" (StringOfNat shadcnHits)]
  else [].

(** 3. Tailwind utility class patterns. *)
Definition tailwindStack (fullSource : string) : list Signal :=
  let tailwindHits := countFiring TAILWIND_PATTERNS fullSource in
  if (2 <=? tailwindHits)%nat then
    [mkSignal "tailwind_stack"
       "Tailwind CSS utility pattern detected — common AI default stack"
       "medium" (StringOfNat tailwindHits)]
  else [].

(** 4. Vite build artifacts. *)
Definition viteBuild (html : string) : list Signal :=
  let viteHits := countFiring VITE_PATTERNS html in
  if (1 <=? viteHits)%nat then
    let reactSpa := existsb (fun p => test p html) REACT_SPA_PATTERNS in
    [mkSignal "vite_build"
       (if reactSpa
        then "Vite build artifacts + React SPA root — AI tools default to Vite + React"
        else "Vite build artifacts detected")
       (if reactSpa then "medium" else "low")
       "vite"]
  else [].

(** 5. Lucide icons. *)
Definition lucideIcons (fullSource : string) : list Signal :=
  let lucideHit := existsb (fun p => test p fullSource) LUCIDE_PATTERNS in
  if lucideHit then
    [mkSignal "lucide_icons"
       "Lucide icon library detected — heavily favoured by AI coding tools"
       "medium" "lucide"]
  else [].

(** 6. Inter font. *)
Definition interFontSignal (html fullSource : string) : list Signal :=
  let interFont :=
    regexpTest ("fonts\.googleapis\.com[^" +:+ dq +:+ "']*[Ii]nter") "" html
    || regexpTest ("font-family:[^;'" +:+ dq +:+ "]*['" +:+ dq +:+ "]Inter['" +:+ dq +:+ "]") "" fullSource
    || regexpTest ("['" +:+ dq +:+ "]Inter['" +:+ dq +:+ "],") "" fullSource in
  if interFont then
    [mkSignal "inter_font"
       "Inter font detected — AI tools almost universally default to Inter"
       "low" "Inter"]
  else [].

(** 7. Hallucinated / placeholder links. *)
Definition placeholderLinks (html : string) : list Signal :=
  let placeholderHits := countOccurrences (fun _ => "gi") PLACEHOLDER_LINK_PATTERNS html in
  if (3 <=? placeholderHits)%nat then
    [mkSignal "placeholder_links"
       ("Placeholder/hallucinated links detected (" +:+ StringOfNat placeholderHits
          +:+ ") — e.g. example.com, yourdomain.com, fake API endpoints")
       "high" (StringOfNat placeholderHits)]
  else if (1 <=? placeholderHits)%nat then
    [mkSignal "placeholder_links"
       ("Placeholder link detected (" +:+ StringOfNat placeholderHits
          +:+ ") — e.g. example.com or yourdomain.com")
       "medium" (StringOfNat placeholderHits)]
  else [].

(** 8. Generic numbered naming conventions. *)
Definition genericNaming (html : string) : list Signal :=
  let namingHits := countOccurrences (fun _ => "gi") GENERIC_NAMING_PATTERNS html in
  if (4 <=? namingHits)%nat then
    [mkSignal "generic_naming"
       ("Generic numbered class/ID names detected (" +:+ StringOfNat namingHits
          +:+ ") — e.g. .container-1, .wrapper-2, .section-3")
       "medium" (StringOfNat namingHits)]
  else if (2 <=? namingHits)%nat then
    [mkSignal "generic_naming"
       ("Some generic numbered class names detected (" +:+ StringOfNat namingHits +:+ ")")
       "low" (StringOfNat namingHits)]
  else [].

(** 9. Prototype hosting: [isPrototypeHost]. *)
Definition isPrototypeHost (hostName : string) : bool :=
  existsb (fun p => test p hostName) PROTOTYPE_HOSTING_HOSTNAMES.

Definition prototypeHosting (hostName : string) : list Signal :=
  if isPrototypeHost hostName then
    [mkSignal "prototype_hosting"
       ("Hosted on a prototype/AI-default platform subdomain (" +:+ hostName +:+ ")")
       "medium" hostName]
  else [].

(** 10. Vercel / Netlify hosting headers. *)
Definition vercelHeader (headers : gmap string string) : string :=
  default "" (orElse (headers !! "x-vercel-id") (headers !! "x-vercel-cache")).

Definition netlifyHeader (headers : gmap string string) : string :=
  default "" (orElse (headers !! "x-nf-request-id") (headers !! "x-netlify")).

Definition hostingPlatform (headers : gmap string string) (hostName : string) : list Signal :=
  let vercelId := vercelHeader headers in
  (if truthy vercelId && negb (isPrototypeHost hostName) then
     [mkSignal "hosting_platform" "Hosted on Vercel (common AI-assisted site host)"
        "low" "vercel"]
   else [])
  ++
  let netlifyHdr := netlifyHeader headers in
  (if truthy netlifyHdr && negb (isPrototypeHost hostName) then
     [mkSignal "hosting_platform" "Hosted on Netlify (common AI-assisted site host)"
        "low" "netlify"]
   else []).

(** 11. AI generator meta tags: the first pattern that matches, then [break]. *)
Fixpoint aiGeneratorMeta (patterns : list RegExp) (html : string) : list Signal :=
  match patterns with
  | [] => []
  | pat :: rest =>
      match regexpExec (source pat) (flags pat) html with
      | Some m =>
          [mkSignal "ai_generator_meta" "AI website builder generator meta tag detected"
             "high" (sliceTo 120%N (matched m))]
      | None => aiGeneratorMeta rest html
      end
  end.

(** The signals of the heuristics, given the text of the bundle. *)
Definition aiHeuristics (html jsSource : string) (headers : gmap string string)
    (finalUrl : string) : list Signal :=
  let hostName := extractHostname finalUrl in
  let fullSource := html +:+ nl +:+ jsSource in
  overCommenter fullSource
  ++ shadcnUi fullSource
  ++ tailwindStack fullSource
  ++ viteBuild html
  ++ lucideIcons fullSource
  ++ interFontSignal html fullSource
  ++ placeholderLinks html
  ++ genericNaming html
  ++ prototypeHosting hostName
  ++ hostingPlatform headers hostName
  ++ aiGeneratorMeta AI_GENERATOR_META_PATTERNS html.

Definition detectAiHeuristics (net : Network) (html : string)
    (headers : gmap string string) (finalUrl : string) : list Signal :=
  aiHeuristics html (fetchJsSource net html finalUrl) headers finalUrl.

(* ------------------------------------------------------------------ *)
(** ** Main entry point *)
(* ------------------------------------------------------------------ *)

(** [rawUrl.trim()], with the default scheme when there is none. *)
Definition normalizeUrl (rawUrl : string) : string :=
  let u := trim rawUrl in
  if negb (startsWith u "http://") && negb (startsWith u "https://")
  then "https://" +:+ u
  else u.

(** The variables the [try] block of [detectUrl] assigns. *)
Record FetchState := mkFetchState {
  st_html : string;
  st_responseHeaders : gmap string string;
  st_finalUrl : string;
  st_fetchError : option string;
}.

(** [response.headers.forEach((v, k) => { responseHeaders[k.toLowerCase()] = v; })]
    over the calls of the callback.  [responseHeaders] is a plain object: the
    assignment of a string to the name [__proto__] stores nothing.  The
    detector reads the dictionary under seven fixed names only, none of them
    a property name of [Object.prototype]. *)
Definition collectHeaders (headers : list (string * string)) : gmap string string :=
  foldl (fun responseHeaders '(k, v) =>
           if String.eqb (toLowerCase k) "__proto__" then responseHeaders
           else <[toLowerCase k := v]> responseHeaders) ∅ headers.

(** The [try]/[catch] around the primary request: each assignment that ran
    before the exception stays. *)
Definition primaryFetch (net : Network) (u : string) : FetchState :=
  match fetchPage net u with
  | FetchRejected message =>
      mkFetchState "" ∅ u (Some message)
  | BodyRejected responseUrl headers message =>
      mkFetchState "" (collectHeaders headers)
        (if truthy responseUrl then responseUrl else u) (Some message)
  | Fetched responseUrl headers body =>
      mkFetchState body (collectHeaders headers)
        (if truthy responseUrl then responseUrl else u) None
  end.

(** [if (fetchError)]: a message that is not the empty string. *)
Definition fetchFailed (st : FetchState) : option string :=
  match st_fetchError st with
  | Some message => if truthy message then Some message else None
  | None => None
  end.

(** [obj[k] = v] on a dictionary kept in insertion order. *)
Fixpoint objSet {A} (k : string) (v : A) (obj : list (string * A)) : list (string * A) :=
  match obj with
  | [] => [(k, v)]
  | (k', v') :: obj' =>
      if String.eqb k' k then (k, v) :: obj' else (k', v') :: objSet k v obj'
  end.

(** The loop [for (const [platform, fp] of Object.entries(table))], which
    fills [allPlatformScores] and [allPlatformSignalsMap].  No platform name is
    an array index, so the entries of [FINGERPRINTS] come in the order they are
    declared. *)
Definition scanFingerprints (table : list (string * PlatformFingerprint))
    (html : string) (headers : gmap string string) (finalUrl : string)
  : list (string * Z) * gmap string (list Signal) :=
  foldl (fun acc '(platformName, fp) =>
           let sigs := detectPlatform platformName fp html headers finalUrl in
           (objSet platformName (scoreSignals sigs) acc.1,
            <[platformName := sigs]> acc.2))
    ([], ∅) table.

(** [entries.sort((a, b) => b[1] - a[1])]: the sort is stable, so an entry
    stays ahead of the later entries of the same score.  [sortInsert x l] puts
    [x], which came before the entries of [l], in its place. *)
Fixpoint sortInsert (x : string * Z) (l : list (string * Z)) : list (string * Z) :=
  match l with
  | [] => [x]
  | y :: l' => if x.2 <? y.2 then y :: sortInsert x l' else x :: y :: l'
  end.

Definition sortByScore (entries : list (string * Z)) : list (string * Z) :=
  foldr sortInsert [] entries.

(** [Object.entries(allPlatformScores).sort(...)[0] ?? ["", 0]]. *)
Definition bestPlatformEntry (allPlatformScores : list (string * Z)) : string * Z :=
  default ("", 0) (head (sortByScore allPlatformScores)).

Definition detectUrl (net : Network) (rawUrl : string) : DetectionResult :=
  let u := normalizeUrl rawUrl in
  let st := primaryFetch net u in
  match fetchFailed st with
  | Some fetchError =>
      {| url := rawUrl; finalUrl := st_finalUrl st;
         bucket := unknown;
         bucketConfidence := none;
         platform := None; platformScore := 0; platformSignals := [];
         allPlatformScores := [];
         aiScore := 0; aiSignals := [];
         error := Some fetchError |}
  | None =>
      (* Run platform detector *)
      let scan := scanFingerprints FINGERPRINTS (st_html st) (st_responseHeaders st) (st_finalUrl st) in
      let best := bestPlatformEntry scan.1 in
      let bestPlatform := best.1 in
      let bestPlatformScore := best.2 in
      (* Run AI heuristic detector (always, regardless of platform result) *)
      let aiSigs := detectAiHeuristics net (st_html st) (st_responseHeaders st) (st_finalUrl st) in
      let aiTotal := scoreSignals aiSigs in
      (* Bucket decision *)
      if MIN_PLATFORM_SCORE <=? bestPlatformScore then
        {| url := rawUrl; finalUrl := st_finalUrl st;
           bucket := platform_assisted;
           bucketConfidence :=
             confidenceLabel (numberOfZ bestPlatformScore) (numberOfZ MIN_PLATFORM_SCORE);
           platform := Some bestPlatform;
           platformScore := bestPlatformScore;
           platformSignals := default [] (scan.2 !! bestPlatform);
           allPlatformScores := scan.1;
           aiScore := aiTotal; aiSignals := aiSigs;
           error := None |}
      else if MIN_AI_SCORE <=? aiTotal then
        {| url := rawUrl; finalUrl := st_finalUrl st;
           bucket := ai_assisted;
           bucketConfidence := confidenceLabel (numberOfZ aiTotal) (numberOfZ MIN_AI_SCORE);
           platform := None; platformScore := 0; platformSignals := [];
           allPlatformScores := scan.1;
           aiScore := aiTotal; aiSignals := aiSigs;
           error := None |}
      else
        {| url := rawUrl; finalUrl := st_finalUrl st;
           bucket := no_ai_signals;
           bucketConfidence := none;
           platform := None; platformScore := 0; platformSignals := [];
           allPlatformScores := scan.1;
           aiScore := aiTotal; aiSignals := aiSigs;
           error := None |}
  end.

End Engine.

(* ------------------------------------------------------------------ *)
(** ** A small host for evaluating examples

    [literalRuntime] understands the patterns that are plain text, with
    escaped punctuation and the anchors [^] and [$], which is what the hostname
    and attribute patterns of the tables are; a pattern that uses any other
    operator never matches under it.  It is used to run the detector on
    concrete pages, never in a general theorem. *)
(* ------------------------------------------------------------------ *)

Definition isAlnum (c : ascii) : bool :=
  let n := N_of_ascii c in
  (((48 <=? n) && (n <=? 57)) || ((65 <=? n) && (n <=? 90)) || ((97 <=? n) && (n <=? 122)))%N.

(** The operators of the pattern language that [literalRuntime] leaves out. *)
Definition isOperator (c : ascii) : bool :=
  existsb (Ascii.eqb c)
    ["."; "*"; "+"; "?"; "("; ")"; "["; "]"; "{"; "}"; "|"; "^"; "$"]%char.

(** The text a pattern body stands for, [None] when it uses an operator. *)
Fixpoint literalBody (pat : string) : option string :=
  match pat with
  | EmptyString => Some EmptyString
  | String "\" (String c rest) =>
      if isAlnum c then None else String c <$> literalBody rest
  | String "\" EmptyString => None
  | String c rest =>
      if isOperator c then None else String c <$> literalBody rest
  end.

(** The trailing [$] split off. *)
Fixpoint splitEndAnchor (pat : string) : string * bool :=
  match pat with
  | EmptyString => (EmptyString, false)
  | String "$" EmptyString => (EmptyString, true)
  | String c rest => let r := splitEndAnchor rest in (String c r.1, r.2)
  end.

Record LiteralPattern := mkLiteral {
  lit_text : string;
  lit_atStart : bool;
  lit_atEnd : bool;
}.

Definition parseLiteral (pat : string) : option LiteralPattern :=
  let '(body, atStart) :=
    match pat with
    | String "^" rest => (rest, true)
    | _ => (pat, false)
    end in
  let '(body, atEnd) := splitEndAnchor body in
  match literalBody body with
  | Some (String c t) => Some (mkLiteral (String c t) atStart atEnd)
  | _ => None
  end.

(** The occurrences of [text] in [input], left to right, without overlap.
    [folded] is [input] as it is compared: in lower case under the [i] flag.
    [skip] characters are still part of the previous occurrence. *)
Fixpoint occurrences (atEnd : bool) (text : string) (skip : nat) (folded input : string)
  : list string :=
  match folded, input with
  | String _ folded', String _ input' =>
      match skip with
      | S k => occurrences atEnd text k folded' input'
      | O =>
          if String.prefix text folded
             && (negb atEnd || (String.length folded =? String.length text)%nat)
          then substring 0 (String.length text) input
               :: occurrences atEnd text (String.length text - 1) folded' input'
          else occurrences atEnd text 0 folded' input'
      end
  | _, _ => []
  end.

Definition literalMatches (pat fl input : string) : list RegExpExecArray :=
  match parseLiteral pat with
  | Some p =>
      let ci := includes fl "i" in
      let text := if ci then toLowerCase (lit_text p) else lit_text p in
      let folded := if ci then toLowerCase input else input in
      let found :=
        if lit_atStart p then
          if String.prefix text folded
             && (negb (lit_atEnd p) || (String.length folded =? String.length text)%nat)
          then [substring 0 (String.length text) input]
          else []
        else occurrences (lit_atEnd p) text 0 folded input in
      (fun m => mkMatch m []) <$> found
  | None => []
  end.

(** The text between the scheme and the first [/], [:], [?] or [#]. *)
Fixpoint hostPart (s : string) : string :=
  match s with
  | EmptyString => EmptyString
  | String c rest =>
      if existsb (Ascii.eqb c) ["/"; ":"; "?"; "#"]%char then EmptyString
      else String c (hostPart rest)
  end.

Definition literalHostname (u : string) : option string :=
  if String.prefix "https://" u then Some (hostPart (substring 8 (String.length u) u))
  else if String.prefix "http://" u then Some (hostPart (substring 7 (String.length u) u))
  else None.

Definition literalRuntime : JsRuntime := {|
  regexpExec pat fl input := head (literalMatches pat fl input);
  regexpMatchAll pat fl input := literalMatches pat fl input;
  urlHostname := literalHostname;
  urlResolve relative base :=
    (fun h => "https://" +:+ h +:+ relative) <$> literalHostname base;
|}.

(** A network whose page request returns [body] from [responseUrl] with
    [headers], and that serves no script. *)
Definition pageNetwork (responseUrl : string) (headers : list (string * string))
    (body : string) : Network :=
  mkNetwork (fun _ => Fetched responseUrl headers body) (fun _ => None).

(** [literalRuntime] extended with the one expression that finds the bundle:
    a page that mentions [/assets/index.js] links that script. *)
Definition bundleRuntime : JsRuntime := {|
  regexpExec pat fl input :=
    if String.eqb pat BUNDLE_SRC_PATTERN then
      if includes input "/assets/index.js"
      then Some (mkMatch "src='/assets/index.js'" ["/assets/index.js"])
      else None
    else head (literalMatches pat fl input);
  regexpMatchAll pat fl input := literalMatches pat fl input;
  urlHostname := literalHostname;
  urlResolve relative base :=
    (fun h => "https://" +:+ h +:+ relative) <$> literalHostname base;
|}.

(** A page that links a bundle; the script request is answered by [script]. *)
Definition bundlePage (u : string) : PageFetch :=
  Fetched "https://example.com/" []
    "<html><i class=lucide></i><script src='/assets/index.js'></script></html>".

(** A bundle with a shadcn/ui card in it. *)
Definition shadcnBundle : string :=
  "const card = 'rounded-lg border bg-card text-card-foreground shadow-sm';".

(** A page on a Webflow subdomain that carries two Webflow attributes, the
    Lucide icons and a shadcn/ui card. *)
Definition webflowNetwork : Network :=
  pageNetwork "https://studio.webflow.io/" [("Server", "cloudflare")]
    "<html data-wf-page=1 data-wf-site=2><i class=lucide></i><div class=rounded-lg border bg-card text-card-foreground shadow-sm></div></html>".

(** A network whose page request is rejected with [message]. *)
Definition deadNetwork (message : string) : Network :=
  mkNetwork (fun _ => FetchRejected message) (fun _ => None).

(* ------------------------------------------------------------------ *)
(** ** Quantities the properties are stated with *)
(* ------------------------------------------------------------------ *)

(** The uncapped weight sum of category [c] in a signal set. *)
Definition categoryWeight (c : string) (signals : list Signal) : Z :=
  foldr (fun sig acc => if decide (category sig = c) then weightOf sig + acc else acc)
    0 signals.

(** The categories of a signal set, each once. *)
Definition categoriesOf (signals : list Signal) : list string :=
  remove_dups (category <$> signals).

Definition sumZ (l : list Z) : Z := foldr Z.add 0 l.

(** The score as the specification words it: per category, the sum of the
    weights capped at [CATEGORY_CAP]; then the sum over the categories. *)
Definition cappedCategorySum (signals : list Signal) : Z :=
  sumZ ((fun c => Z.min (categoryWeight c signals) CATEGORY_CAP) <$> categoriesOf signals).

(** The signals of [signals] outside category [c]. *)
Definition withoutCategory (c : string) (signals : list Signal) : list Signal :=
  filter (fun sig => category sig ≠ c) signals.

(** The state of [detectUrl] after the primary request. *)
Definition pageState (net : Network) (rawUrl : string) : FetchState :=
  primaryFetch net (normalizeUrl rawUrl).

Section Quantities.

Context {rt : JsRuntime}.

(** The per-platform score table and signal lists of a fetched page. *)
Definition platformScan (st : FetchState) : list (string * Z) * gmap string (list Signal) :=
  scanFingerprints FINGERPRINTS (st_html st) (st_responseHeaders st) (st_finalUrl st).

(** The best platform score of a fetched page. *)
Definition bestPlatformScoreOf (st : FetchState) : Z :=
  (bestPlatformEntry (platformScan st).1).2.

(** The output of the AI heuristic extractor on a fetched page. *)
Definition aiSignalsOf (net : Network) (st : FetchState) : list Signal :=
  detectAiHeuristics net (st_html st) (st_responseHeaders st) (st_finalUrl st).

End Quantities.

(** The two signals of the hosting-header sub-detector. *)
Definition vercelSignal : Signal :=
  mkSignal "hosting_platform" "Hosted on Vercel (common AI-assisted site host)" "low" "vercel".

Definition netlifySignal : Signal :=
  mkSignal "hosting_platform" "Hosted on Netlify (common AI-assisted site host)" "low" "netlify".

(** The header the sub-detector reads, [first] when the response has it and
    [second] otherwise, has a value that is not empty. *)
Definition readsNonEmpty (headers : gmap string string) (first second : string) : Prop :=
  (exists v, headers !! first = Some v /\ v ≠ "") \/
  (headers !! first = None /\ exists v, headers !! second = Some v /\ v ≠ "").

(** [n] times the character [c]. *)
Fixpoint repeatChar (n : nat) (c : ascii) : string :=
  match n with
  | O => EmptyString
  | S n' => String c (repeatChar n' c)
  end.

(** A hostname of two labels of 63 characters under [suffix]. *)
Definition longHost (suffix : string) : string :=
  repeatChar 63 "a" +:+ "." +:+ repeatChar 63 "b" +:+ suffix.

(** Every signal of a list carries the category [c]. *)
Definition allOfCategory (c : string) (signals : list Signal) : Prop :=
  Forall (fun sig => category sig = c) signals.

(** Every signal of a list has a [matchedValue] of at most 120 characters. *)
Definition matchedValuesBounded (signals : list Signal) : Prop :=
  Forall (fun sig => (String.length (matchedValue sig) <= 120)%nat) signals.

(** What the [matchedValue] of a signal can be: a text of at most 120
    characters, the hostname of the page, the [server] header, or a hit
    count. *)
Definition matchedValueShape (hostName server : string) (sig : Signal) : Prop :=
  (String.length (matchedValue sig) <= 120)%nat \/
  matchedValue sig = hostName \/
  matchedValue sig = server \/
  exists n : nat, matchedValue sig = StringOfNat n.

(** The label the specification gives an integer score [s] under an integer
    threshold [T]: [high] from three times the threshold, [medium] from one
    and a half times, [low] from the threshold, [none] below it. *)
Definition labelBands (s T : Z) : BucketConfidence :=
  if 3 * T <=? s then high
  else if 3 * T <=? 2 * s then medium
  else if T <=? s then low
  else none.


(** The integers on which the labels are checked one by one: the scores from
    0 to 300 and the thresholds from 1 to 100.  The detector labels scores of
    at most 180 under the thresholds 5 and 10. *)
Definition labelsAgree (T s : Z) : bool :=
  sameLabel (confidenceLabel (numberOfZ s) (numberOfZ T)) (labelBands s T).

Definition labelsAgreeOnBox : bool :=
  forallb (fun T => forallb (labelsAgree T) (seqZ 0 301)) (seqZ 1 100).

(** The categories the platform detector files its signals under: the two
    header categories, [htmlCategories] and the one of the tag sources. *)
Definition PLATFORM_CATEGORIES : list string :=
  [ "hostname"; "http_header";
    "meta_tag"; "html_comment"; "data_attribute"; "css_class"; "css_variable";
    "js_global"; "dom_id"; "script_content"; "font";
    "cdn_url" ].

(** Every signal of a list carries one of the categories [cs]. *)
Definition categoriesAmong (cs : list string) (signals : list Signal) : Prop :=
  Forall (fun sig => category sig ∈ cs) signals.

(** The three confidence tiers of a signal. *)
Definition CONFIDENCE_TIERS : list string := ["high"; "medium"; "low"].

(** The categories the AI heuristic extractor files its signals under. *)
Definition AI_CATEGORIES : list string :=
  [ "over_commenter"; "shadcn_ui"; "tailwind_stack"; "vite_build"; "lucide_icons";
    "inter_font"; "placeholder_links"; "generic_naming"; "prototype_hosting";
    "hosting_platform"; "ai_generator_meta" ].

(** The entries of a pattern group all carry one of the three tiers. *)
Definition groupTiered (group : option (list PatternEntry)) : bool :=
  match group with
  | Some patterns => forallb (fun e => bool_decide (e.1.2 ∈ CONFIDENCE_TIERS)) patterns
  | None => true
  end.

Definition fingerprintTiered (fp : PlatformFingerprint) : bool :=
  forallb (fun group => groupTiered (group fp))
    [ hostname; http_header; meta_tag; html_comment; data_attribute; css_class;
      css_variable; js_global; dom_id; script_content; script_src; link_href; img_src; font ].

(** A signal as every result carries them: a category of [cats] and one of
    the three confidence tiers. *)
Definition wellFormedSignal (cats : list string) (sig : Signal) : Prop :=
  category sig ∈ cats /\ confidence sig ∈ CONFIDENCE_TIERS.

(** Every signal of a list carries one of the three tiers. *)
Definition tiered (signals : list Signal) : Prop :=
  Forall (fun sig => confidence sig ∈ CONFIDENCE_TIERS) signals.

(* ------------------------------------------------------------------ *)
(** ** The batch endpoint: [functions/api/batch.ts]

    The CSV utilities and the part of [onRequestPost] that follows the
    decoding of the request.  A row of a CSV file is a [Record<string, string>]
    filled one column after the other: an association list of the properties
    of the object itself in insertion order, written with [objSet] and read
    with [objGet].  The row is a plain object: the assignment of a string to
    the name [__proto__] stores nothing ([assignCell]), and the URL cell of a
    row is read with the properties the row inherits ([trimmedCell]). *)
(* ------------------------------------------------------------------ *)

(** [obj[k]] among the properties of the object itself, [None] when the key
    is missing. *)
Definition objGet (k : string) (obj : list (string * string)) : option string :=
  snd <$> List.find (fun kv => String.eqb kv.1 k) obj.

(** [row[k] = v] for a string [v] on a plain object: the setter of
    [__proto__] ignores a string, any other name becomes a property of the
    row. *)
Definition assignCell (k v : string) (row : list (string * string))
  : list (string * string) :=
  if String.eqb k "__proto__" then row else objSet k v row.

(** [(row[k] ?? "").trim()].  A name the row has not and [Object.prototype]
    has gives a function or an object, which has no method [trim]: the call
    throws a TypeError, which is [None]. *)
Definition trimmedCell (k : string) (row : list (string * string)) : option string :=
  match objGet k row with
  | Some cell => Some (trim cell)
  | None => if inheritedKey k then None else Some (trim "")
  end.

(** [splitCSVRow]: the loop over the characters of the line, with the fields
    pushed so far, the field being read and whether a quote is open.  A quote
    followed by a quote inside quotes is one quote character and both are
    consumed. *)
Fixpoint splitCSVRowFrom (line : string) (fields : list string) (current : string)
    (inQuotes : bool) : list string :=
  match line with
  | EmptyString => fields ++ [trim current]
  | String ch rest =>
      if Ascii.eqb ch "034" then
        match rest with
        | String next rest' =>
            if inQuotes && Ascii.eqb next "034"
            then splitCSVRowFrom rest' fields (current +:+ dq) inQuotes
            else splitCSVRowFrom rest fields current (negb inQuotes)
        | EmptyString => splitCSVRowFrom rest fields current (negb inQuotes)
        end
      else if Ascii.eqb ch "," && negb inQuotes then
        splitCSVRowFrom rest (fields ++ [trim current]) "" inQuotes
      else splitCSVRowFrom rest fields (current +:+ String ch "") inQuotes
  end.

Definition splitCSVRow (line : string) : list string :=
  splitCSVRowFrom line [] "" false.

(** The replacement in [csvEscape]: every double quote of [val] is written
    twice. *)
Fixpoint doubleQuotes (val : string) : string :=
  match val with
  | EmptyString => EmptyString
  | String ch rest =>
      if Ascii.eqb ch "034" then String "034" (String "034" (doubleQuotes rest))
      else String ch (doubleQuotes rest)
  end.

Definition csvEscape (val : string) : string :=
  if includes val "," || includes val dq || includes val nl
  then dq +:+ doubleQuotes val +:+ dq
  else val.

(** [parts.join(sep)]. *)
Fixpoint joinWith (sep : string) (parts : list string) : string :=
  match parts with
  | [] => ""
  | [part] => part
  | part :: rest => part +:+ sep +:+ joinWith sep rest
  end.

(** [s.split(sep)] for a separator of one character. *)
Fixpoint splitOn (sep : ascii) (s : string) : list string :=
  match s with
  | EmptyString => [""]
  | String ch rest =>
      if Ascii.eqb ch sep then "" :: splitOn sep rest
      else match splitOn sep rest with
           | part :: parts => String ch part :: parts
           | [] => [String ch ""]
           end
  end.

(** [text.replace(/\r\n/g, "\n")] and [text.replace(/\r/g, "\n")]. *)
Fixpoint replaceCRLF (text : string) : string :=
  match text with
  | EmptyString => EmptyString
  | String ch rest =>
      match rest with
      | String next rest' =>
          if Ascii.eqb ch "013" && Ascii.eqb next "010"
          then String "010" (replaceCRLF rest')
          else String ch (replaceCRLF rest)
      | EmptyString => String ch EmptyString
      end
  end.

Fixpoint replaceCR (text : string) : string :=
  match text with
  | EmptyString => EmptyString
  | String ch rest =>
      String (if Ascii.eqb ch "013" then "010"%char else ch) (replaceCR rest)
  end.

(** [headers.forEach((h, idx) => { row[h] = values[idx] ?? ""; })] from column
    [idx] on. *)
Fixpoint fillRow (headers : list string) (values : list string) (idx : nat)
    (row : list (string * string)) : list (string * string) :=
  match headers with
  | [] => row
  | h :: rest => fillRow rest values (S idx) (assignCell h (default "" (values !! idx)) row)
  end.

Record ParsedCSV := mkParsedCSV {
  csv_headers : list string;
  csv_rows : list (list (string * string));
}.

Definition parseCSV (text : string) : ParsedCSV :=
  let lines := splitOn "010" (trim (replaceCR (replaceCRLF text))) in
  match lines with
  | [] => mkParsedCSV [] []
  | first :: rest =>
      let headers := splitCSVRow first in
      mkParsedCSV headers
        (flat_map (fun l =>
                     let line := trim l in
                     if truthy line then [fillRow headers (splitCSVRow line) 0 []] else [])
           rest)
  end.

Definition URL_COLUMN_CANDIDATES : list string :=
  [ "url"; "urls"; "website"; "websites";
    "domain"; "domains"; "link"; "links";
    "site"; "sites"; "href" ].

(** What a function that can throw does: it returns a value or throws an
    [Error] with a message. *)
Inductive Outcome (A : Type) :=
| Returned (value : A)
| Thrown (message : string).

Arguments Returned {A} value.
Arguments Thrown {A} message.

(** [arr.indexOf(x)], [None] for [-1]. *)
Fixpoint indexOf (x : string) (arr : list string) : option nat :=
  match arr with
  | [] => None
  | y :: rest => if String.eqb y x then Some 0%nat else S <$> indexOf x rest
  end.

(** The loop over [URL_COLUMN_CANDIDATES] of [findUrlColumn]. *)
Fixpoint firstCandidate (candidates headers lower : list string) : option string :=
  match candidates with
  | [] => None
  | c :: rest =>
      match indexOf c lower with
      | Some idx => Some (default "" (headers !! idx))
      | None => firstCandidate rest headers lower
      end
  end.

Definition findUrlColumn (headers : list string) (override : string) : Outcome string :=
  if truthy override then
    match List.find (fun h => String.eqb (toLowerCase h) (toLowerCase override)) headers with
    | Some found =>
        if truthy found then Returned found
        else Thrown ("Column '" +:+ override +:+ "' not found. Available: "
                       +:+ joinWith ", " headers)
    | None =>
        Thrown ("Column '" +:+ override +:+ "' not found. Available: "
                  +:+ joinWith ", " headers)
    end
  else
    match firstCandidate URL_COLUMN_CANDIDATES headers (toLowerCase <$> headers) with
    | Some column => Returned column
    | None =>
        Thrown ("Could not auto-detect URL column. Available: " +:+ joinWith ", " headers
                  +:+ ". Use the 'url_column' field to specify it.")
    end.

Definition MAX_BATCH : nat := 50.

(** The result of a row whose URL is empty. *)
Definition emptyUrlResult : DetectionResult :=
  {| url := ""; finalUrl := "";
     bucket := unknown;
     bucketConfidence := none;
     platform := None; platformScore := 0; platformSignals := [];
     allPlatformScores := [];
     aiScore := 0; aiSignals := [];
     error := Some "empty_url" |}.

Section Batch.

Context {rt : JsRuntime}.

(** The callback of [rows.map] in [onRequestPost]: the result of one row,
    with the row it came from; [None] when the callback throws. *)
Definition detectRow (net : Network) (urlColumn : string) (row : list (string * string))
  : option (DetectionResult * list (string * string)) :=
  u ← trimmedCell urlColumn row;
  Some (if truthy u then (detectUrl net u, row) else (emptyUrlResult, row)).

(** [await Promise.all(rows.map(...))]: the results in the order of the rows;
    [None] when the callback throws for a row, and the handler with it. *)
Definition detectRows (net : Network) (urlColumn : string)
    (rows : list (list (string * string)))
  : option (list (DetectionResult * list (string * string))) :=
  mapM (detectRow net urlColumn) rows.

End Batch.

(** [Object.keys(obj)]: the keys that are array indices (canonical decimal
    numbers below [2^32 - 1]) in ascending order, then the other keys in
    insertion order. *)
Definition isDigit (c : ascii) : bool :=
  let n := N_of_ascii c in ((48 <=? n) && (n <=? 57))%N.

Fixpoint digitsValue (s : string) (acc : N) : option N :=
  match s with
  | EmptyString => Some acc
  | String c rest =>
      if isDigit c then digitsValue rest (10 * acc + (N_of_ascii c - 48))%N else None
  end.

Definition arrayIndex (key : string) : option N :=
  match key with
  | EmptyString => None
  | String "0" EmptyString => Some 0%N
  | String "0" _ => None
  | _ =>
      match digitsValue key 0 with
      | Some n => if (n <? 4294967295)%N then Some n else None
      | None => None
      end
  end.

Fixpoint insertIndex (entry : N * string) (sorted : list (N * string)) : list (N * string) :=
  match sorted with
  | [] => [entry]
  | e :: rest => if (entry.1 <? e.1)%N then entry :: sorted else e :: insertIndex entry rest
  end.

Definition objectKeys (obj : list (string * string)) : list string :=
  let indexKeys :=
    foldr insertIndex []
      (omap (fun kv => (fun n => (n, kv.1)) <$> arrayIndex kv.1) obj) in
  let otherKeys :=
    filter (fun k => arrayIndex k = None) (fst <$> obj) in
  (snd <$> indexKeys) ++ otherKeys.

(** [n.toFixed(1)] for an integer. *)
Definition toFixed1 (n : Z) : string :=
  NilEmpty.string_of_int (Z.to_int n) +:+ ".0".

(** The strings of the type [Bucket] and of the confidence. *)
Definition bucketName (b : Bucket) : string :=
  match b with
  | platform_assisted => "platform-assisted"
  | ai_assisted => "ai-assisted"
  | no_ai_signals => "no-ai-signals"
  | unknown => "unknown"
  end.

Definition confidenceName (c : BucketConfidence) : string :=
  match c with
  | high => "high"
  | medium => "medium"
  | low => "low"
  | none => "none"
  end.

Definition RESULT_HEADERS : list string :=
  [ "ai_bucket"; "ai_bucket_confidence"; "ai_platform"; "ai_platform_score";
    "ai_score"; "ai_error" ].

(** [arr.includes(x)]. *)
Definition arrayIncludes (arr : list string) (x : string) : bool :=
  existsb (String.eqb x) arr.

(** [allHeaders]: the columns of the upload, then the result columns the
    upload does not have already. *)
Definition outputHeaders (rows : list (list (string * string))) : list string :=
  let originalHeaders := objectKeys (default [] (head rows)) in
  originalHeaders ++ List.filter (fun h => negb (arrayIncludes originalHeaders h)) RESULT_HEADERS.

(** [outRow]: the row of the upload with the six result columns written over
    it. *)
Definition outputRow (entry : DetectionResult * list (string * string))
  : list (string * string) :=
  let r := entry.1 in
  objSet "ai_error" (default "" (error r))
    (objSet "ai_score" (toFixed1 (aiScore r))
       (objSet "ai_platform_score" (toFixed1 (platformScore r))
          (objSet "ai_platform" (default "" (platform r))
             (objSet "ai_bucket_confidence" (confidenceName (bucketConfidence r))
                (objSet "ai_bucket" (bucketName (bucket r)) entry.2))))).

Definition crlf : string := String "013" (String "010" "").

(** [csvLines]: the header line and one line for each result. *)
Definition csvLines (allHeaders : list string)
    (results : list (DetectionResult * list (string * string))) : list string :=
  joinWith "," (csvEscape <$> allHeaders)
  :: ((fun entry =>
         joinWith ","
           ((fun h => csvEscape (default "" (objGet h (outputRow entry)))) <$> allHeaders))
        <$> results).

(** The decoded request of [onRequestPost]: a form with the text of its
    [file] field ([None] when the field is missing or is not a file) and its
    [url_column] field ([""] when missing); or a JSON body ([None] when the
    body is not JSON) with its array [urls] ([None] when it has none); or a
    body that is the JSON value [null]. *)
Inductive BatchRequest :=
| CsvUpload (file : option string) (colOverride : string)
| JsonBody (body : option (option (list string)))
| JsonNullBody.

Inductive BatchBody :=
| ErrorBody (message : string)
| ResultsBody (results : list (DetectionResult * list (string * string)))
| CsvBody (text : string).

Record BatchResponse := mkBatchResponse {
  status : nat;
  body : BatchBody;
}.

Section BatchEndpoint.

Context {rt : JsRuntime}.

(** [onRequestPost]: the response, or [None] when the handler throws (the
    TypeError of [body.urls] on [null], or that of a row) and returns no
    response. *)
Definition onRequestPost (net : Network) (request : BatchRequest)
  : option BatchResponse :=
  (* Parse input *)
  let parsedInput : option (Outcome (list (list (string * string)) * string)) :=
    match request with
    | CsvUpload None _ => Some (Thrown "Expected a 'file' field in the form")
    | CsvUpload (Some text) colOverride =>
        let parsed := parseCSV text in
        match csv_rows parsed with
        | [] => Some (Thrown "CSV has no data rows")
        | _ :: _ =>
            match findUrlColumn (csv_headers parsed) colOverride with
            | Returned urlColumn => Some (Returned (csv_rows parsed, urlColumn))
            | Thrown message => Some (Thrown message)
            end
        end
    | JsonBody None => Some (Thrown "Invalid JSON body")
    | JsonBody (Some None) => Some (Thrown "Expected { urls: string[] } in JSON body")
    | JsonBody (Some (Some [])) => Some (Thrown "Expected { urls: string[] } in JSON body")
    | JsonBody (Some (Some urls)) =>
        Some (Returned ((fun u => [("url", u)]) <$> urls, "url"))
    | JsonNullBody => None
    end in
  input ← parsedInput;
  match input with
  | Thrown message => Some (mkBatchResponse 400 (ErrorBody message))
  | Returned (rows, urlColumn) =>
      if (MAX_BATCH <? length rows)%nat then
        Some (mkBatchResponse 413
                (ErrorBody "Batch too large. Max 50 rows per request. Split your CSV into chunks."))
      else
        results ← detectRows net urlColumn rows;
        Some match request with
             | CsvUpload _ _ =>
                 mkBatchResponse 200
                   (CsvBody (joinWith crlf (csvLines (outputHeaders rows) results)))
             | _ => mkBatchResponse 200 (ResultsBody results)
             end
  end.

End BatchEndpoint.

(** What does not start with a quote: the end of the line or another
    character. *)
Definition notQuoteNext (tail : string) : Prop :=
  match tail with
  | String c _ => Ascii.eqb c "034" = false
  | EmptyString => True
  end.

(** A string that [trim] leaves as it is. *)
Definition trimmed (s : string) : Prop := trim s = s.

(* ------------------------------------------------------------------ *)
(** ** The page script: [src/public/app.js]

    The functions of the page script that prepare a batch: the script reads
    the chosen file with its own copy of the CSV reader, cuts the rows into
    chunks and posts each chunk to the batch endpoint as a CSV file of its
    own. *)

Definition cr : string := String "013" "".

(** A string without a line feed and without a carriage return. *)
Definition lineBreakFree (s : string) : Prop :=
  includes s nl = false /\ includes s cr = false.

(** [arr.slice(start, stop)] for [start <= stop]. *)
Definition slice {A} (arr : list A) (start stop : nat) : list A :=
  take (stop - start) (drop start arr).

(** [s.replace(/c/g, by)] for a character [c]. *)
Fixpoint replaceChar (c : ascii) (by_ : string) (s : string) : string :=
  match s with
  | EmptyString => EmptyString
  | String x rest =>
      if Ascii.eqb x c then by_ +:+ replaceChar c by_ rest
      else String x (replaceChar c by_ rest)
  end.

Module App.

Definition BATCH_CHUNK_SIZE : nat := 50.

(** [splitRow]: the loop over the characters of the line. *)
Fixpoint splitRowFrom (line : string) (fields : list string) (cur : string)
    (inQ : bool) : list string :=
  match line with
  | EmptyString => fields ++ [trim cur]
  | String ch rest =>
      if Ascii.eqb ch "034" then
        match rest with
        | String next rest' =>
            if inQ && Ascii.eqb next "034"
            then splitRowFrom rest' fields (cur +:+ dq) inQ
            else splitRowFrom rest fields cur (negb inQ)
        | EmptyString => splitRowFrom rest fields cur (negb inQ)
        end
      else if Ascii.eqb ch "," && negb inQ then
        splitRowFrom rest (fields ++ [trim cur]) "" inQ
      else splitRowFrom rest fields (cur +:+ String ch "") inQ
  end.

Definition splitRow (line : string) : list string :=
  splitRowFrom line [] "" false.

(** [headers.forEach((h, idx) => { row[h] = vals[idx] ?? ""; })] from column
    [idx] on. *)
Fixpoint fillRow (headers : list string) (vals : list string) (idx : nat)
    (row : list (string * string)) : list (string * string) :=
  match headers with
  | [] => row
  | h :: rest => fillRow rest vals (S idx) (assignCell h (default "" (vals !! idx)) row)
  end.

Definition parseCSV (text : string) : ParsedCSV :=
  let lines := splitOn "010" (trim (replaceCR (replaceCRLF text))) in
  match lines with
  | [] => mkParsedCSV [] []
  | first :: rest =>
      let headers := splitRow first in
      mkParsedCSV headers
        (flat_map (fun l =>
                     let line := trim l in
                     if truthy line then [fillRow headers (splitRow line) 0 []] else [])
           rest)
  end.

(** [escape] of [rowsToCSV], on a string ([String(v ?? "")] is [v] then). *)
Definition escape (v : string) : string :=
  let s := v in
  if includes s "," || includes s dq || includes s nl
  then dq +:+ doubleQuotes s +:+ dq
  else s.

(** [String(v)] for a property of [Object.prototype]: the object that
    [__proto__] gives, or one of its built-in functions, as V8 prints them. *)
Definition inheritedText (k : string) : string :=
  if String.eqb k "__proto__" then "[object Object]"
  else "function " +:+ (if String.eqb k "constructor" then "Object" else k)
       +:+ "() { [native code] }".

(** [String(row[h] ?? "")]: the cell of the row; under a name the row has
    not, the text of what [Object.prototype] has, or the empty string. *)
Definition cellText (h : string) (row : list (string * string)) : string :=
  match objGet h row with
  | Some v => v
  | None => if inheritedKey h then inheritedText h else ""
  end.

Definition rowsToCSV (headers : list string) (rows : list (list (string * string)))
  : string :=
  let lines :=
    joinWith "," (escape <$> headers)
    :: ((fun row => joinWith "," ((fun h => escape (cellText h row)) <$> headers))
          <$> rows) in
  joinWith crlf lines.

Definition URL_CANDIDATES : list string :=
  [ "url"; "urls"; "website"; "websites"; "domain"; "domains"; "link"; "links";
    "site"; "sites"; "href" ].

(** The loop over [URL_CANDIDATES] of [autoDetectUrlColumn]. *)
Fixpoint candidateLoop (candidates headers lower : list string) : option string :=
  match candidates with
  | [] => None
  | c :: rest =>
      match indexOf c lower with
      | Some idx => Some (default "" (headers !! idx))
      | None => candidateLoop rest headers lower
      end
  end.

(** [autoDetectUrlColumn], [None] for [null]. *)
Definition autoDetectUrlColumn (headers : list string) : option string :=
  candidateLoop URL_CANDIDATES headers (toLowerCase <$> headers).

(** [chunkArray]: the loop [for (let i = 0; i < arr.length; i += size)] from
    index [i] on, with the chunks pushed so far.  The loop does not end when
    [size] is 0 and the array is not empty, so the function takes the number
    of times the loop condition may be tested and returns [None] when that
    number is used up. *)
Fixpoint chunkArrayFrom {A} (fuel : nat) (arr : list A) (size i : nat)
    (chunks : list (list A)) : option (list (list A)) :=
  match fuel with
  | O => None
  | S fuel' =>
      if (i <? length arr)%nat
      then chunkArrayFrom fuel' arr size (i + size) (chunks ++ [slice arr i (i + size)])
      else Some chunks
  end.

Definition chunkArray {A} (fuel : nat) (arr : list A) (size : nat)
  : option (list (list A)) :=
  chunkArrayFrom fuel arr size 0 [].

(** [esc], with [None] for [null] and [undefined]. *)
Definition esc (str : option string) : string :=
  replaceChar "034" "&quot;"
    (replaceChar ">" "&gt;"
       (replaceChar "<" "&lt;"
          (replaceChar "&" "&amp;" (default "" str)))).

End App.

(* ------------------------------------------------------------------ *)
(** ** Score aggregation *)
(* ------------------------------------------------------------------ *)

Lemma weightOf_high sig : confidence sig = "high" -> weightOf sig = 10.
Proof. intros E. unfold weightOf. rewrite E. reflexivity. Qed.

Lemma weightOf_medium sig : confidence sig = "medium" -> weightOf sig = 5.
Proof. intros E. unfold weightOf. rewrite E. reflexivity. Qed.

Lemma weightOf_low sig : confidence sig = "low" -> weightOf sig = 2.
Proof. intros E. unfold weightOf. rewrite E. reflexivity. Qed.

Lemma weightOf_other sig :
  confidence sig ≠ "high" -> confidence sig ≠ "medium" -> confidence sig ≠ "low" ->
  weightOf sig = 1.
Proof.
  intros Hh Hm Hl. unfold weightOf, CONFIDENCE_WEIGHTS.
  rewrite !lookup_insert_ne by congruence.
  rewrite lookup_empty. reflexivity.
Qed.

Lemma weightOf_pos sig : 1 <= weightOf sig.
Proof.
  destruct (decide (confidence sig = "high")) as [E|Hh]; [rewrite (weightOf_high _ E); lia|].
  destruct (decide (confidence sig = "medium")) as [E|Hm]; [rewrite (weightOf_medium _ E); lia|].
  destruct (decide (confidence sig = "low")) as [E|Hl]; [rewrite (weightOf_low _ E); lia|].
  rewrite weightOf_other by assumption. lia.
Qed.

Lemma groupByCategory_snoc signals sig :
  groupByCategory (signals ++ [sig]) = addSignal (groupByCategory signals) sig.
Proof. unfold groupByCategory. rewrite foldl_app. reflexivity. Qed.

Lemma categoryWeight_snoc c signals sig :
  categoryWeight c (signals ++ [sig]) =
  categoryWeight c signals + (if decide (category sig = c) then weightOf sig else 0).
Proof.
  induction signals as [|s l IH]; simpl.
  - destruct (decide (category sig = c)); lia.
  - rewrite IH. destruct (decide (category s = c)); lia.
Qed.

Lemma categoryWeight_nonneg c signals : 0 <= categoryWeight c signals.
Proof.
  induction signals as [|s l IH]; simpl; [lia|].
  destruct (decide (category s = c)); [|assumption].
  pose proof (weightOf_pos s). lia.
Qed.

Lemma categoryWeight_absent c signals :
  c ∉ category <$> signals -> categoryWeight c signals = 0.
Proof.
  induction signals as [|s l IH]; simpl; [reflexivity|].
  rewrite not_elem_of_cons. intros [Hne Hl].
  destruct (decide (category s = c)); [congruence|auto].
Qed.

(** The dictionary built by the loop holds, for each category that occurs,
    the sum of the weights of its signals, and nothing else. *)
Lemma groupByCategory_lookup signals c :
  groupByCategory signals !! c =
  if decide (c ∈ category <$> signals) then Some (categoryWeight c signals) else None.
Proof.
  induction signals as [|sig l IH] using rev_ind.
  - rewrite decide_False by (simpl; apply not_elem_of_nil). apply lookup_empty.
  - rewrite groupByCategory_snoc, categoryWeight_snoc, fmap_app. simpl.
    unfold addSignal.
    destruct (decide (category sig = c)) as [E|Hne].
    + rewrite E, lookup_insert_eq, IH.
      rewrite (decide_True (P := _ ∈ _ ++ _)) by (rewrite elem_of_app, list_elem_of_singleton; auto).
      destruct (decide (c ∈ category <$> l)) as [Hin|Hnin]; simpl.
      * reflexivity.
      * rewrite categoryWeight_absent by assumption. reflexivity.
    + rewrite lookup_insert_ne by assumption. rewrite IH, Z.add_0_r.
      destruct (decide (c ∈ category <$> l)) as [Hin|Hnin].
      * rewrite decide_True by (rewrite elem_of_app; auto). reflexivity.
      * rewrite decide_False; [reflexivity|].
        rewrite elem_of_app, list_elem_of_singleton. intros [?|?]; congruence.
Qed.

Lemma sumCapped_empty : sumCapped ∅ = 0.
Proof. unfold sumCapped. apply map_fold_empty. Qed.

Lemma sumCapped_insert_fresh (m : gmap string Z) c v :
  m !! c = None -> sumCapped (<[c := v]> m) = sumCapped m + Z.min v CATEGORY_CAP.
Proof.
  intros Hc. unfold sumCapped. rewrite map_fold_insert_L; [reflexivity| |assumption].
  intros. lia.
Qed.

Lemma sumCapped_delete (m : gmap string Z) c v :
  m !! c = Some v -> sumCapped m = sumCapped (delete c m) + Z.min v CATEGORY_CAP.
Proof.
  intros Hc. unfold sumCapped.
  rewrite (map_fold_delete_L _ _ c v m); [reflexivity| |assumption].
  intros. lia.
Qed.

Lemma sumCapped_insert_present (m : gmap string Z) c v v' :
  m !! c = Some v ->
  sumCapped (<[c := v']> m) = sumCapped (delete c m) + Z.min v' CATEGORY_CAP.
Proof.
  intros Hc. rewrite <- insert_delete_eq.
  apply sumCapped_insert_fresh. apply lookup_delete_eq.
Qed.

Lemma sumCapped_over_keys (keys : list string) :
  forall m : gmap string Z,
    NoDup keys ->
    (forall c, c ∈ keys <-> is_Some (m !! c)) ->
    sumCapped m = sumZ ((fun c => Z.min (default 0 (m !! c)) CATEGORY_CAP) <$> keys).
Proof.
  induction keys as [|c keys IH]; intros m Hnd Hkeys.
  - assert (m = ∅) as ->.
    { apply map_empty. intros c. apply eq_None_not_Some. rewrite <- Hkeys. apply not_elem_of_nil. }
    apply sumCapped_empty.
  - apply NoDup_cons in Hnd as [Hc Hnd].
    destruct (proj1 (Hkeys c)) as [v Hv]; [left|].
    rewrite (sumCapped_delete m c v Hv).
    rewrite (IH (delete c m) Hnd).
    + simpl. rewrite Hv. simpl.
      assert ((fun c0 => Z.min (default 0 (delete c m !! c0)) CATEGORY_CAP) <$> keys
              = (fun c0 => Z.min (default 0 (m !! c0)) CATEGORY_CAP) <$> keys) as ->.
      { apply Forall_fmap_ext, Forall_forall. intros c' Hc'.
        rewrite lookup_delete_ne; [reflexivity|]. intros ->. contradiction. }
      apply Z.add_comm.
    + intros c'. rewrite lookup_delete. destruct (decide (c = c')) as [<-|Hne].
      * split; [contradiction|]. intros [? ?]; discriminate.
      * rewrite <- Hkeys, elem_of_cons. split; [auto|]. intros [?|?]; [congruence|assumption].
Qed.

Lemma scoreSignals_cappedCategorySum signals :
  scoreSignals signals = cappedCategorySum signals.
Proof.
  unfold scoreSignals, cappedCategorySum, categoriesOf.
  rewrite (sumCapped_over_keys (remove_dups (category <$> signals))).
  - f_equal. apply Forall_fmap_ext, Forall_forall. intros c Hc.
    rewrite elem_of_remove_dups in Hc.
    rewrite groupByCategory_lookup, decide_True by assumption. reflexivity.
  - apply NoDup_remove_dups.
  - intros c. rewrite elem_of_remove_dups, groupByCategory_lookup.
    destruct (decide (c ∈ category <$> signals)) as [Hin|Hnin].
    + split; eauto.
    + split; [contradiction|]. intros [? ?]; discriminate.
Qed.

Lemma elem_of_withoutCategory c c' signals :
  c' ∈ category <$> withoutCategory c signals <-> c' ≠ c /\ c' ∈ category <$> signals.
Proof.
  unfold withoutCategory. rewrite !list_elem_of_fmap. split.
  - intros (sig & -> & Hin). apply list_elem_of_filter in Hin as [Hne Hin].
    split; [assumption|]. eauto.
  - intros (Hne & sig & -> & Hin). exists sig. split; [reflexivity|].
    apply list_elem_of_filter. auto.
Qed.

Lemma categoryWeight_withoutCategory c c' signals :
  c' ≠ c -> categoryWeight c' (withoutCategory c signals) = categoryWeight c' signals.
Proof.
  intros Hne. unfold withoutCategory.
  induction signals as [|s l IH]; [reflexivity|].
  rewrite filter_cons. simpl. destruct (decide (category s ≠ c)) as [Hs|Hs]; simpl.
  - rewrite IH. reflexivity.
  - rewrite IH. apply dec_stable in Hs.
    rewrite decide_False by congruence. reflexivity.
Qed.

Lemma groupByCategory_withoutCategory c signals :
  groupByCategory (withoutCategory c signals) = delete c (groupByCategory signals).
Proof.
  apply map_eq. intros c'.
  rewrite lookup_delete, !groupByCategory_lookup.
  destruct (decide (c = c')) as [<-|Hne].
  - apply decide_False. rewrite elem_of_withoutCategory. intros [? _]. congruence.
  - rewrite categoryWeight_withoutCategory by congruence.
    destruct (decide (c' ∈ category <$> signals)) as [Hin|Hnin].
    + apply decide_True. rewrite elem_of_withoutCategory. split; [congruence|assumption].
    + apply decide_False. rewrite elem_of_withoutCategory. intros [_ ?]. contradiction.
Qed.

(** A category that occurs contributes its capped weight sum, whatever the
    other categories hold. *)
Lemma scoreSignals_split c signals :
  c ∈ category <$> signals ->
  scoreSignals signals =
  Z.min (categoryWeight c signals) CATEGORY_CAP + scoreSignals (withoutCategory c signals).
Proof.
  intros Hin. unfold scoreSignals.
  rewrite groupByCategory_withoutCategory.
  rewrite (sumCapped_delete (groupByCategory signals) c (categoryWeight c signals)).
  - lia.
  - rewrite groupByCategory_lookup. apply decide_True. assumption.
Qed.

Lemma scoreSignals_snoc_ge signals sig :
  scoreSignals signals <= scoreSignals (signals ++ [sig]).
Proof.
  unfold scoreSignals. rewrite groupByCategory_snoc. unfold addSignal.
  pose proof (weightOf_pos sig) as Hw.
  destruct (groupByCategory signals !! category sig) as [v|] eqn:Hv; simpl.
  - rewrite (sumCapped_insert_present _ _ v) by assumption.
    rewrite (sumCapped_delete _ _ v Hv). lia.
  - rewrite sumCapped_insert_fresh by assumption. unfold CATEGORY_CAP. lia.
Qed.

Lemma scoreSignals_nonneg signals : 0 <= scoreSignals signals.
Proof.
  induction signals as [|sig l IH] using rev_ind.
  - unfold scoreSignals, groupByCategory. simpl. rewrite sumCapped_empty. lia.
  - pose proof (scoreSignals_snoc_ge l sig). lia.
Qed.

(** *** [scoreSignals] with the inherited properties *)

Lemma inheritedKey_proto (k : string) : inheritedKey k = false -> String.eqb k "__proto__" = false.
Proof.
  intros Hk. apply String.eqb_neq. intros ->. discriminate Hk.
Qed.

Lemma Js_CONFIDENCE_WEIGHTS_fmap : Js.CONFIDENCE_WEIGHTS = JsInteger <$> CONFIDENCE_WEIGHTS.
Proof.
  unfold Js.CONFIDENCE_WEIGHTS, CONFIDENCE_WEIGHTS.
  now rewrite !fmap_insert, fmap_empty.
Qed.

Lemma Js_get_fmap (m : gmap string Z) (k : string) :
  inheritedKey k = false -> Js.get (JsInteger <$> m) k = JsInteger <$> (m !! k).
Proof.
  intros Hk. unfold Js.get. rewrite lookup_fmap, Hk. now destruct (m !! k).
Qed.

Lemma Js_weightOf_plain (sig : Signal) :
  inheritedKey (confidence sig) = false -> Js.weightOf sig = JsInteger (weightOf sig).
Proof.
  intros Hc. unfold Js.weightOf, weightOf.
  rewrite Js_CONFIDENCE_WEIGHTS_fmap, Js_get_fmap by exact Hc.
  now destruct (CONFIDENCE_WEIGHTS !! confidence sig).
Qed.

Lemma Js_addSignal_plain (m : gmap string Z) (sig : Signal) :
  plainSignal sig -> Js.addSignal (JsInteger <$> m) sig = JsInteger <$> addSignal m sig.
Proof.
  intros [Hcat Hconf]. unfold Js.addSignal, addSignal, Js.set. cbv zeta.
  rewrite (inheritedKey_proto _ Hcat), Js_weightOf_plain, Js_get_fmap by assumption.
  rewrite fmap_insert. now destruct (m !! category sig).
Qed.

Lemma Js_groupByCategory_plain (signals : list Signal) :
  Forall plainSignal signals ->
  Js.groupByCategory signals = JsInteger <$> groupByCategory signals.
Proof.
  unfold Js.groupByCategory, groupByCategory.
  rewrite <- (fmap_empty JsInteger) at 1. generalize (∅ : gmap string Z).
  induction signals as [|sig signals IH]; intros m Hall; [reflexivity|].
  apply Forall_cons in Hall as [Hsig Hall]. cbn [foldl].
  rewrite Js_addSignal_plain by exact Hsig. now apply IH.
Qed.

Lemma Js_addCapped_comm (sum : JsNumber) (v1 v2 : JsValue) :
  Js.addCapped (Js.addCapped sum v1) v2 = Js.addCapped (Js.addCapped sum v2) v1.
Proof. destruct sum, v1, v2; cbn; try reflexivity. f_equal. lia. Qed.

Lemma Js_sumCapped_fmap (m : gmap string Z) :
  Js.sumCapped (JsInteger <$> m) = Finite (sumCapped m).
Proof.
  induction m as [|c v m Hfresh IH] using map_ind; [reflexivity|].
  rewrite fmap_insert, sumCapped_insert_fresh by exact Hfresh.
  unfold Js.sumCapped.
  rewrite map_fold_insert_L.
  - fold (Js.sumCapped (JsInteger <$> m)). rewrite IH. reflexivity.
  - intros. apply Js_addCapped_comm.
  - now rewrite lookup_fmap, Hfresh.
Qed.

(** On signals without inherited names the integer score is the number the
    code computes. *)
Lemma scoreSignals_plain (signals : list Signal) :
  Forall plainSignal signals -> Js.scoreSignals signals = Finite (scoreSignals signals).
Proof.
  intros Hall. unfold Js.scoreSignals, scoreSignals.
  rewrite Js_groupByCategory_plain by exact Hall. apply Js_sumCapped_fmap.
Qed.


(** With an inherited name the result is no score: a confidence value such as
    [constructor] finds a function where a weight is looked up, and the sum
    is NaN; a signal of category [__proto__] is never stored, and the
    category counts nothing. *)
Example scoreSignals_inherited_confidence :
  Js.scoreSignals [mkSignal "meta_tag" "" "constructor" ""] = NaN.
Proof. vm_compute. reflexivity. Qed.

Example scoreSignals_inherited_category :
  Js.scoreSignals [mkSignal "constructor" "" "high" ""] = NaN /\
  Js.scoreSignals [mkSignal "__proto__" "" "high" ""] = Finite 0.
Proof. split; vm_compute; reflexivity. Qed.





(* ------------------------------------------------------------------ *)
(** ** Confidence labelling *)
(* ------------------------------------------------------------------ *)




Lemma sameLabel_eq (a b : BucketConfidence) : sameLabel a b = true -> a = b.
Proof. destruct a, b; (reflexivity || discriminate). Qed.

Lemma labelsAgreeOnBox_checked : labelsAgreeOnBox = true.
Proof. vm_compute. reflexivity. Qed.

(** On the integers that were checked, [confidenceLabel] is the label of the
    specification. *)
Lemma confidenceLabel_on_integers (s T : Z) :
  0 <= s <= 300 -> 1 <= T <= 100 ->
  confidenceLabel (numberOfZ s) (numberOfZ T) = labelBands s T.
Proof.
  intros Hs HT. pose proof labelsAgreeOnBox_checked as Hbox.
  unfold labelsAgreeOnBox in Hbox. rewrite forallb_forall in Hbox.
  assert (HTin : In T (seqZ 1 100)) by (apply list_elem_of_In, elem_of_seqZ; lia).
  specialize (Hbox T HTin). rewrite forallb_forall in Hbox.
  assert (Hsin : In s (seqZ 0 301)) by (apply list_elem_of_In, elem_of_seqZ; lia).
  apply sameLabel_eq, Hbox, Hsin.
Qed.




(** The comparisons are with the rounded products: under the threshold
    [2^53 + 6] the product with 3 is rounded down to [3 * 2^53 + 16], and a
    score that is this number is labelled [high] although it is below three
    times the threshold. *)
Example confidenceLabel_rounded_product :
  confidenceLabel 27021597764222992%float 9007199254740998%float = high /\
  27021597764222992 < 3 * 9007199254740998.
Proof. split; [vm_compute; reflexivity|lia]. Qed.

(** With a negative threshold the first comparison is the weakest: under the
    threshold -1 the score -2 is labelled [high]. *)
Example confidenceLabel_negative_threshold :
  confidenceLabel (numberOfZ (-2)) (numberOfZ (-1)) = high.
Proof. vm_compute. reflexivity. Qed.



(* ------------------------------------------------------------------ *)
(** ** Best platform *)
(* ------------------------------------------------------------------ *)

Lemma head_sortInsert x l :
  head (sortInsert x l) =
  Some (match head l with
        | Some y => if x.2 <? y.2 then y else x
        | None => x
        end).
Proof. destruct l as [|y l]; simpl; [reflexivity|]. destruct (x.2 <? y.2); reflexivity. Qed.

Lemma bestPlatformEntry_cons x t :
  bestPlatformEntry (x :: t) =
  match t with
  | [] => x
  | _ :: _ => if x.2 <? (bestPlatformEntry t).2 then bestPlatformEntry t else x
  end.
Proof.
  unfold bestPlatformEntry, sortByScore. simpl. rewrite head_sortInsert. simpl.
  destruct t as [|y t]; [reflexivity|].
  simpl. rewrite head_sortInsert. reflexivity.
Qed.

(** The entry chosen from a table that is not empty is an entry of the table
    of the greatest score, and every entry ahead of it has a smaller score. *)
Lemma bestPlatformEntry_first_max (e : string * Z) (t : list (string * Z)) :
  exists i : nat,
    (e :: t) !! i = Some (bestPlatformEntry (e :: t)) /\
    (forall (j : nat) (q : string * Z),
       (e :: t) !! j = Some q -> q.2 <= (bestPlatformEntry (e :: t)).2) /\
    (forall (j : nat) (q : string * Z),
       (j < i)%nat -> (e :: t) !! j = Some q -> q.2 < (bestPlatformEntry (e :: t)).2).
Proof.
  revert e. induction t as [|e' t IH]; intros e.
  - exists 0%nat. rewrite bestPlatformEntry_cons. split; [reflexivity|]. split.
    + intros [|j] q Hq; simpl in Hq; [|discriminate]. injection Hq as <-. lia.
    + intros j q Hj. lia.
  - destruct (IH e') as (i & Hi & Hmax & Hfirst).
    rewrite (bestPlatformEntry_cons e (e' :: t)).
    destruct (e.2 <? (bestPlatformEntry (e' :: t)).2) eqn:Hlt.
    + apply Z.ltb_lt in Hlt. exists (S i). split; [exact Hi|]. split.
      * intros [|j] q Hq; simpl in Hq.
        -- injection Hq as <-. lia.
        -- eapply Hmax. exact Hq.
      * intros [|j] q Hj Hq; simpl in Hq.
        -- injection Hq as <-. assumption.
        -- eapply (Hfirst j); [lia|exact Hq].
    + apply Z.ltb_ge in Hlt. exists 0%nat. split; [reflexivity|]. split.
      * intros [|j] q Hq; simpl in Hq.
        -- injection Hq as <-. lia.
        -- specialize (Hmax j q Hq). lia.
      * intros j q Hj. lia.
Qed.

Lemma objSet_fresh {A} (k : string) (v : A) (obj : list (string * A)) :
  k ∉ obj.*1 -> objSet k v obj = obj ++ [(k, v)].
Proof.
  induction obj as [|[k' v'] obj IH]; simpl; [reflexivity|].
  rewrite not_elem_of_cons. intros [Hne Hnin].
  destruct (String.eqb_spec k' k) as [->|_]; [contradiction|].
  rewrite IH by assumption. reflexivity.
Qed.

Lemma NoDup_FINGERPRINTS : NoDup FINGERPRINTS.*1.
Proof. apply (bool_decide_unpack _). vm_compute. reflexivity. Qed.

Section Detector.

Context {rt : JsRuntime}.

(** The keys of [allPlatformScores] are the platform names, in the order of
    the table. *)
Lemma scanFingerprints_scores table html headers finalUrl :
  NoDup table.*1 ->
  (scanFingerprints table html headers finalUrl).1 =
  (fun entry => (entry.1, scoreSignals (detectPlatform entry.1 entry.2 html headers finalUrl)))
    <$> table.
Proof.
  unfold scanFingerprints.
  induction table as [|[p fp] table IH] using rev_ind; intros Hnd; [reflexivity|].
  rewrite fmap_app in Hnd. apply NoDup_app in Hnd as (Hnd & Hfresh & _).
  rewrite foldl_app, fmap_app. simpl. rewrite IH by assumption.
  apply objSet_fresh.
  rewrite <- list_fmap_compose. simpl.
  intros Hin. apply (Hfresh p Hin). simpl. left.
Qed.

Lemma detectUrl_error net rawUrl :
  error (detectUrl net rawUrl) = fetchFailed (pageState net rawUrl).
Proof.
  unfold detectUrl, pageState. cbv zeta.
  destruct (fetchFailed _); [reflexivity|].
  destruct (MIN_PLATFORM_SCORE <=? _); [reflexivity|].
  destruct (MIN_AI_SCORE <=? _); reflexivity.
Qed.

(** What [detectUrl] returns when the primary request did not fail. *)
Lemma detectUrl_fetched net rawUrl :
  let st := pageState net rawUrl in
  let r := detectUrl net rawUrl in
  fetchFailed st = None ->
  allPlatformScores r = (platformScan st).1 /\
  aiSignals r = aiSignalsOf net st /\
  aiScore r = scoreSignals (aiSignalsOf net st) /\
  (MIN_PLATFORM_SCORE <= bestPlatformScoreOf st ->
   bucket r = platform_assisted /\
   platform r = Some (bestPlatformEntry (platformScan st).1).1 /\
   platformScore r = bestPlatformScoreOf st /\
   platformSignals r =
     default [] ((platformScan st).2 !! (bestPlatformEntry (platformScan st).1).1)) /\
  (bestPlatformScoreOf st < MIN_PLATFORM_SCORE ->
   platform r = None /\ platformScore r = 0 /\ platformSignals r = [] /\
   bucket r =
     if MIN_AI_SCORE <=? scoreSignals (aiSignalsOf net st) then ai_assisted
     else no_ai_signals).
Proof.
  intros st r Hok. subst st r.
  unfold detectUrl, bestPlatformScoreOf, aiSignalsOf, platformScan, pageState in *.
  cbv zeta. rewrite Hok.
  set (st := primaryFetch net (normalizeUrl rawUrl)).
  set (scan := scanFingerprints FINGERPRINTS _ _ _).
  set (ai := detectAiHeuristics net _ _ _).
  set (total := scoreSignals ai).
  set (best := bestPlatformEntry scan.1).
  clearbody best total ai scan st.
  destruct (MIN_PLATFORM_SCORE <=? best.2) eqn:Hp.
  - apply Z.leb_le in Hp. simpl. repeat split; intros; try reflexivity; lia.
  - apply Z.leb_gt in Hp.
    destruct (MIN_AI_SCORE <=? total) eqn:Ha; simpl; repeat split; intros; try reflexivity; lia.
Qed.

(** C6: the entry [detectUrl] takes from a per-platform score table is an
    entry of the greatest score, and among the entries of that score the first
    one in the order of the table; an empty table gives the default; the order
    of the table is the order in which [FINGERPRINTS] declares the platforms,
    and the platform and score of a platform-assisted result are that entry. *)
Theorem best_platform_is_first_maximum :
  (forall (e : string * Z) (t : list (string * Z)),
     exists i : nat,
       (e :: t) !! i = Some (bestPlatformEntry (e :: t)) /\
       (forall (j : nat) (q : string * Z),
          (e :: t) !! j = Some q -> q.2 <= (bestPlatformEntry (e :: t)).2) /\
       (forall (j : nat) (q : string * Z),
          (j < i)%nat -> (e :: t) !! j = Some q -> q.2 < (bestPlatformEntry (e :: t)).2)) /\
  bestPlatformEntry [] = ("", 0) /\
  (forall (net : Network) (rawUrl : string),
     let r := detectUrl net rawUrl in
     error r = None ->
     (allPlatformScores r).*1 = FINGERPRINTS.*1 /\
     (bucket r = platform_assisted ->
      platform r = Some (bestPlatformEntry (allPlatformScores r)).1 /\
      platformScore r = (bestPlatformEntry (allPlatformScores r)).2)).
Proof.
  split; [exact bestPlatformEntry_first_max|]. split; [reflexivity|].
  intros net rawUrl r Herr. subst r.
  rewrite detectUrl_error in Herr.
  destruct (detectUrl_fetched net rawUrl Herr) as (Hscores & _ & _ & Hplat & Hnot).
  rewrite Hscores. split.
  - unfold platformScan. rewrite scanFingerprints_scores by apply NoDup_FINGERPRINTS.
    rewrite <- list_fmap_compose. reflexivity.
  - intros Hb.
    destruct (Z_lt_le_dec (bestPlatformScoreOf (pageState net rawUrl)) MIN_PLATFORM_SCORE)
      as [Hlt|Hge].
    + destruct (Hnot Hlt) as (_ & _ & _ & Hbucket). rewrite Hbucket in Hb.
      destruct (MIN_AI_SCORE <=? _); discriminate.
    + destruct (Hplat Hge) as (_ & Hp & Hs & _). split; assumption.
Qed.

End Detector.

(* ------------------------------------------------------------------ *)
(** ** Bucket decision and result record *)
(* ------------------------------------------------------------------ *)

Section BucketDecision.

Context {rt : JsRuntime}.

(** C1: when the page was fetched, the best platform score is at least the
    platform threshold 5 and the AI heuristic score is at least the AI
    threshold 10, the bucket is [platform_assisted] and not [ai_assisted]: the
    platform branch is taken first. *)
Theorem platform_bucket_takes_precedence (net : Network) (rawUrl : string) :
  let st := pageState net rawUrl in
  fetchFailed st = None ->
  MIN_PLATFORM_SCORE <= bestPlatformScoreOf st ->
  MIN_AI_SCORE <= scoreSignals (aiSignalsOf net st) ->
  bucket (detectUrl net rawUrl) = platform_assisted /\
  bucket (detectUrl net rawUrl) ≠ ai_assisted.
Proof.
  intros st Hok Hplat _.
  destruct (detectUrl_fetched net rawUrl Hok) as (_ & _ & _ & Hp & _).
  destruct (Hp Hplat) as (Hb & _). rewrite Hb. split; [reflexivity|discriminate].
Qed.

(** C2: a result whose [error] field is not null has bucket [unknown],
    confidence [none], no platform, platform score 0, no platform signals, an
    empty score table, AI score 0 and no AI signals. *)
Theorem fetch_error_gives_unknown_defaults (net : Network) (rawUrl : string) :
  let r := detectUrl net rawUrl in
  error r ≠ None ->
  bucket r = unknown /\
  bucketConfidence r = none /\
  platform r = None /\
  platformScore r = 0 /\
  platformSignals r = [] /\
  allPlatformScores r = [] /\
  aiScore r = 0 /\
  aiSignals r = [].
Proof.
  intros r Herr. subst r. revert Herr.
  unfold detectUrl. cbv zeta.
  destruct (fetchFailed _) as [message|].
  - intros _. repeat split.
  - destruct (MIN_PLATFORM_SCORE <=? _); [intros []; reflexivity|].
    destruct (MIN_AI_SCORE <=? _); intros []; reflexivity.
Qed.

(** A primary request that fails with a message puts that message in the
    [error] field. *)
Lemma detectUrl_rejected (net : Network) (rawUrl message : string) :
  fetchPage net (normalizeUrl rawUrl) = FetchRejected message ->
  truthy message = true ->
  error (detectUrl net rawUrl) = Some message.
Proof.
  intros Hfetch Hmsg. rewrite detectUrl_error.
  unfold pageState, primaryFetch, fetchFailed. rewrite Hfetch. simpl.
  rewrite Hmsg. reflexivity.
Qed.

(** The bucket is [unknown] exactly when the result carries an error. *)
Lemma bucket_unknown_iff_error (net : Network) (rawUrl : string) :
  bucket (detectUrl net rawUrl) = unknown <-> error (detectUrl net rawUrl) ≠ None.
Proof.
  unfold detectUrl. cbv zeta.
  set (st := primaryFetch net (normalizeUrl rawUrl)).
  set (scan := scanFingerprints FINGERPRINTS _ _ _).
  set (ai := detectAiHeuristics net _ _ _).
  set (best := bestPlatformEntry scan.1).
  clearbody best ai scan st.
  destruct (fetchFailed st) as [message|]; simpl.
  - split; [discriminate|reflexivity].
  - destruct (MIN_PLATFORM_SCORE <=? best.2); simpl; [split; [discriminate|congruence]|].
    destruct (MIN_AI_SCORE <=? scoreSignals ai); simpl; split; try discriminate; congruence.
Qed.

(** C8: for a page that was fetched, the fields [platform], [platformScore]
    and [platformSignals] are null, 0 and empty unless the bucket is
    [platform_assisted]; [aiSignals] is the output of the AI heuristic
    extractor and [aiScore] its score, whatever the bucket. *)
Theorem platform_fields_only_when_platform_assisted (net : Network) (rawUrl : string) :
  let st := pageState net rawUrl in
  let r := detectUrl net rawUrl in
  error r = None ->
  (bucket r ≠ platform_assisted ->
   platform r = None /\ platformScore r = 0 /\ platformSignals r = []) /\
  aiSignals r = aiSignalsOf net st /\
  aiScore r = scoreSignals (aiSignalsOf net st).
Proof.
  intros st r Herr. subst st r.
  rewrite detectUrl_error in Herr.
  destruct (detectUrl_fetched net rawUrl Herr) as (_ & Hsigs & Hscore & Hplat & Hnot).
  split; [|split; assumption].
  intros Hb.
  destruct (Z_lt_le_dec (bestPlatformScoreOf (pageState net rawUrl)) MIN_PLATFORM_SCORE)
    as [Hlt|Hge].
  - destruct (Hnot Hlt) as (Hp & Hs & Hl & _). repeat split; assumption.
  - destruct (Hplat Hge) as (Hb' & _). contradiction.
Qed.

(** C10: two networks that answer the page request alike and the script
    request in any two ways give the same page state, the same platform signal
    lists and score table, and results that agree on every field but the AI
    signals, the AI score and what the bucket decision derives from the AI
    score: the bucket and its confidence agree as soon as the AI scores do. *)
Theorem adjunct_bundle_never_affects_platform
    (page : string -> PageFetch) (script1 script2 : string -> option string)
    (rawUrl : string) :
  let net1 := mkNetwork page script1 in
  let net2 := mkNetwork page script2 in
  let r1 := detectUrl net1 rawUrl in
  let r2 := detectUrl net2 rawUrl in
  pageState net1 rawUrl = pageState net2 rawUrl /\
  platformScan (pageState net1 rawUrl) = platformScan (pageState net2 rawUrl) /\
  allPlatformScores r1 = allPlatformScores r2 /\
  platformSignals r1 = platformSignals r2 /\
  platform r1 = platform r2 /\
  platformScore r1 = platformScore r2 /\
  url r1 = url r2 /\
  finalUrl r1 = finalUrl r2 /\
  error r1 = error r2 /\
  (aiScore r1 = aiScore r2 ->
   bucket r1 = bucket r2 /\ bucketConfidence r1 = bucketConfidence r2).
Proof.
  intros net1 net2 r1 r2.
  assert (pageState net1 rawUrl = pageState net2 rawUrl) as Hst by reflexivity.
  split; [exact Hst|]. split; [rewrite Hst; reflexivity|].
  subst r1 r2. unfold detectUrl. cbv zeta.
  change (primaryFetch net1 (normalizeUrl rawUrl)) with (pageState net1 rawUrl).
  change (primaryFetch net2 (normalizeUrl rawUrl)) with (pageState net2 rawUrl).
  rewrite <- Hst.
  set (st := pageState net1 rawUrl).
  set (scan := scanFingerprints FINGERPRINTS _ _ _).
  set (best := bestPlatformEntry scan.1).
  set (total1 := scoreSignals (detectAiHeuristics net1 _ _ _)).
  set (total2 := scoreSignals (detectAiHeuristics net2 _ _ _)).
  clearbody total1 total2 best scan st.
  destruct (fetchFailed st) as [message|]; [repeat split|].
  destruct (MIN_PLATFORM_SCORE <=? best.2); [repeat split|].
  destruct (MIN_AI_SCORE <=? total1) eqn:H1, (MIN_AI_SCORE <=? total2) eqn:H2;
    simpl; repeat (split; [reflexivity|]); intros; subst;
    try reflexivity; congruence.
Qed.

End BucketDecision.

(* ------------------------------------------------------------------ *)
(** ** AI heuristic extractor: categories and the hosting header *)
(* ------------------------------------------------------------------ *)

Section Heuristics.

Context {rt : JsRuntime}.

Ltac branches :=
  repeat match goal with
         | |- context [if ?b then _ else _] => destruct b
         end;
  repeat constructor.

Lemma overCommenter_category fullSource :
  allOfCategory "over_commenter" (overCommenter fullSource).
Proof. unfold allOfCategory, overCommenter. cbv zeta. branches. Qed.

Lemma shadcnUi_category fullSource : allOfCategory "shadcn_ui" (shadcnUi fullSource).
Proof. unfold allOfCategory, shadcnUi. cbv zeta. branches. Qed.

Lemma tailwindStack_category fullSource :
  allOfCategory "tailwind_stack" (tailwindStack fullSource).
Proof. unfold allOfCategory, tailwindStack. cbv zeta. branches. Qed.

Lemma viteBuild_category html : allOfCategory "vite_build" (viteBuild html).
Proof.
  unfold allOfCategory, viteBuild. cbv zeta.
  destruct (1 <=? _)%nat; repeat constructor.
Qed.

Lemma lucideIcons_category fullSource : allOfCategory "lucide_icons" (lucideIcons fullSource).
Proof. unfold allOfCategory, lucideIcons. cbv zeta. branches. Qed.

Lemma interFontSignal_category html fullSource :
  allOfCategory "inter_font" (interFontSignal html fullSource).
Proof. unfold allOfCategory, interFontSignal. cbv zeta. branches. Qed.

Lemma placeholderLinks_category html : allOfCategory "placeholder_links" (placeholderLinks html).
Proof. unfold allOfCategory, placeholderLinks. cbv zeta. branches. Qed.

Lemma genericNaming_category html : allOfCategory "generic_naming" (genericNaming html).
Proof. unfold allOfCategory, genericNaming. cbv zeta. branches. Qed.

Lemma prototypeHosting_category hostName :
  allOfCategory "prototype_hosting" (prototypeHosting hostName).
Proof. unfold allOfCategory, prototypeHosting. branches. Qed.

Lemma aiGeneratorMeta_category patterns html :
  allOfCategory "ai_generator_meta" (aiGeneratorMeta patterns html).
Proof.
  unfold allOfCategory. induction patterns as [|pat rest IH]; simpl; [constructor|].
  destruct (regexpExec _ _ _); [repeat constructor|exact IH].
Qed.

Lemma allOfCategory_elem c signals sig :
  allOfCategory c signals -> sig ∈ signals -> category sig = c.
Proof. unfold allOfCategory. rewrite Forall_forall. auto. Qed.

(** The hosting-platform signals of the extractor are those of the hosting
    header sub-detector. *)
Lemma aiHeuristics_hosting_platform html jsSource headers finalUrl sig :
  category sig = "hosting_platform" ->
  sig ∈ aiHeuristics html jsSource headers finalUrl <->
  sig ∈ hostingPlatform headers (extractHostname finalUrl).
Proof.
  intros Hcat. unfold aiHeuristics. cbv zeta. rewrite !elem_of_app.
  split; [|tauto].
  intros H.
  repeat match type of H with
         | _ \/ _ => destruct H as [H|H]
         end;
    try assumption; exfalso;
    [ apply (allOfCategory_elem _ _ _ (overCommenter_category _)) in H
    | apply (allOfCategory_elem _ _ _ (shadcnUi_category _)) in H
    | apply (allOfCategory_elem _ _ _ (tailwindStack_category _)) in H
    | apply (allOfCategory_elem _ _ _ (viteBuild_category _)) in H
    | apply (allOfCategory_elem _ _ _ (lucideIcons_category _)) in H
    | apply (allOfCategory_elem _ _ _ (interFontSignal_category _ _)) in H
    | apply (allOfCategory_elem _ _ _ (placeholderLinks_category _)) in H
    | apply (allOfCategory_elem _ _ _ (genericNaming_category _)) in H
    | apply (allOfCategory_elem _ _ _ (prototypeHosting_category _)) in H
    | apply (allOfCategory_elem _ _ _ (aiGeneratorMeta_category _ _)) in H ];
    rewrite H in Hcat; discriminate Hcat.
Qed.

Lemma truthy_true_iff (s : string) : truthy s = true <-> s ≠ "".
Proof. destruct s; simpl; split; intros; congruence. Qed.

Lemma truthy_default_orElse (a b : option string) :
  truthy (default "" (orElse a b)) = true <->
  (exists v, a = Some v /\ v ≠ "") \/ (a = None /\ exists v, b = Some v /\ v ≠ "").
Proof.
  rewrite truthy_true_iff. destruct a as [va|]; simpl.
  - split.
    + intros Hne. left. eauto.
    + intros [(v & [= <-] & Hne)|(Hnone & _)]; [assumption|discriminate].
  - destruct b as [vb|]; simpl; split.
    + intros Hne. right. eauto.
    + intros [(v & Hv & _)|(_ & v & [= <-] & Hne)]; [discriminate|assumption].
    + intros Hne. congruence.
    + intros [(v & Hv & _)|(_ & v & Hv & _)]; discriminate.
Qed.

Lemma hostingPlatform_elem headers hostName sig :
  sig ∈ hostingPlatform headers hostName <->
  (sig = vercelSignal /\ truthy (vercelHeader headers) = true
   /\ isPrototypeHost hostName = false) \/
  (sig = netlifySignal /\ truthy (netlifyHeader headers) = true
   /\ isPrototypeHost hostName = false).
Proof.
  unfold hostingPlatform. cbv zeta. rewrite elem_of_app.
  destruct (truthy (vercelHeader headers)), (truthy (netlifyHeader headers)),
    (isPrototypeHost hostName); simpl;
    rewrite ?list_elem_of_singleton, ?elem_of_nil; unfold vercelSignal, netlifySignal;
    intuition congruence.
Qed.

End Heuristics.

Section HostingHeader.

Context {rt : JsRuntime}.

Lemma prototypeHosting_fires hostName :
  isPrototypeHost hostName = true ->
  exists sig, sig ∈ prototypeHosting hostName /\
              category sig = "prototype_hosting" /\ confidence sig = "medium".
Proof.
  intros Hp. unfold prototypeHosting. rewrite Hp.
  eexists. split; [apply list_elem_of_here|]. split; reflexivity.
Qed.

(** C9 (amended): the extractor emits the low-confidence Vercel signal exactly
    when the header it reads for Vercel, [x-vercel-id] or else
    [x-vercel-cache] when the response has no [x-vercel-id], has a value that
    is not empty and the hostname is not a prototype host; likewise the Netlify
    signal with [x-nf-request-id] or else [x-netlify]; it emits no other
    hosting-platform signal; and when the prototype-hosting sub-detector
    fires, its medium-confidence signal is emitted and no hosting-platform
    signal is. *)
Theorem hosting_header_signal_unless_prototype_host
    (net : Network) (html : string) (headers : gmap string string) (finalUrl : string) :
  let host := extractHostname finalUrl in
  let out := detectAiHeuristics net html headers finalUrl in
  (vercelSignal ∈ out <->
   readsNonEmpty headers "x-vercel-id" "x-vercel-cache" /\ isPrototypeHost host = false) /\
  (netlifySignal ∈ out <->
   readsNonEmpty headers "x-nf-request-id" "x-netlify" /\ isPrototypeHost host = false) /\
  (forall sig : Signal,
     sig ∈ out -> category sig = "hosting_platform" ->
     confidence sig = "low" /\ (sig = vercelSignal \/ sig = netlifySignal)) /\
  (isPrototypeHost host = true ->
   (exists sig : Signal,
      sig ∈ out /\ category sig = "prototype_hosting" /\ confidence sig = "medium") /\
   (forall sig : Signal, sig ∈ out -> category sig ≠ "hosting_platform")).
Proof.
  intros host out. subst host out. unfold detectAiHeuristics.
  set (js := fetchJsSource net html finalUrl). clearbody js.
  split; [|split; [|split]].
  - rewrite aiHeuristics_hosting_platform by reflexivity.
    rewrite hostingPlatform_elem. unfold readsNonEmpty.
    rewrite <- truthy_default_orElse. fold (vercelHeader headers).
    split.
    + intros [(_ & Hv & Hp)|(E & _)]; [auto|discriminate E].
    + intros [Hv Hp]. left. auto.
  - rewrite aiHeuristics_hosting_platform by reflexivity.
    rewrite hostingPlatform_elem. unfold readsNonEmpty.
    rewrite <- truthy_default_orElse. fold (netlifyHeader headers).
    split.
    + intros [(E & _)|(_ & Hv & Hp)]; [discriminate E|auto].
    + intros [Hv Hp]. right. auto.
  - intros sig Hin Hcat.
    rewrite (aiHeuristics_hosting_platform _ _ _ _ _ Hcat) in Hin.
    apply hostingPlatform_elem in Hin as [(-> & _)|(-> & _)]; split; auto.
  - intros Hp. split.
    + destruct (prototypeHosting_fires _ Hp) as (sig & Hin & Hcat & Hconf).
      exists sig. split; [|split; assumption].
      unfold aiHeuristics. cbv zeta. rewrite !elem_of_app. tauto.
    + intros sig Hin Hcat.
      rewrite (aiHeuristics_hosting_platform _ _ _ _ _ Hcat) in Hin.
      apply hostingPlatform_elem in Hin as [(_ & _ & Hf)|(_ & _ & Hf)]; congruence.
Qed.

End HostingHeader.

(** C9, as stated, fails when the header that is read has an empty value: a
    response from [example.com] with an empty [x-vercel-id] and
    [x-vercel-cache: HIT] carries Vercel headers, its hostname is no prototype
    host, and the extractor emits nothing. *)
Lemma hosting_header_empty_value_emits_nothing :
  let headers : gmap string string :=
    collectHeaders [("X-Vercel-Id", ""); ("X-Vercel-Cache", "HIT")] in
  let net := pageNetwork "https://example.com/" [] "<html></html>" in
  headers !! "x-vercel-id" = Some "" /\
  headers !! "x-vercel-cache" = Some "HIT" /\
  @isPrototypeHost literalRuntime (@extractHostname literalRuntime "https://example.com/") = false /\
  @detectAiHeuristics literalRuntime net "<html></html>" headers "https://example.com/" = [] /\
  ~ (forall (rt : JsRuntime) (net : Network) (html : string)
            (headers : gmap string string) (finalUrl : string),
       is_Some (headers !! "x-vercel-id") \/ is_Some (headers !! "x-vercel-cache") ->
       isPrototypeHost (extractHostname finalUrl) = false ->
       exists sig : Signal,
         sig ∈ detectAiHeuristics net html headers finalUrl /\
         category sig = "hosting_platform").
Proof.
  cbv zeta.
  assert (@detectAiHeuristics literalRuntime
            (pageNetwork "https://example.com/" [] "<html></html>") "<html></html>"
            (collectHeaders [("X-Vercel-Id", ""); ("X-Vercel-Cache", "HIT")])
            "https://example.com/" = []) as Hout by (vm_compute; reflexivity).
  split; [vm_compute; reflexivity|].
  split; [vm_compute; reflexivity|].
  split; [vm_compute; reflexivity|].
  split; [exact Hout|].
  intros Hclaim.
  destruct (Hclaim literalRuntime
              (pageNetwork "https://example.com/" [] "<html></html>") "<html></html>"
              (collectHeaders [("X-Vercel-Id", ""); ("X-Vercel-Cache", "HIT")])
              "https://example.com/") as (sig & Hin & _).
  - left. vm_compute. eauto.
  - vm_compute. reflexivity.
  - rewrite Hout in Hin. apply elem_of_nil in Hin. exact Hin.
Qed.

(* ------------------------------------------------------------------ *)
(** ** Length of [matchedValue] *)
(* ------------------------------------------------------------------ *)

Lemma length_sliceTo (s : string) :
  forall n : N, (String.length (sliceTo n s) <= N.to_nat n)%nat.
Proof.
  induction s as [|c s IH]; intros n; simpl; [lia|].
  destruct (N.eqb_spec n 0) as [->|Hne]; simpl; [lia|].
  specialize (IH (N.pred n)). lia.
Qed.

Section MatchedValue.

Context {rt : JsRuntime}.

(** The paths that cut the matched text: [matchAll], [matchTagSrcs] and the
    generator meta tag sub-detector. *)
Lemma matchAll_matchedValue html patterns category :
  matchedValuesBounded (matchAll html patterns category).
Proof.
  unfold matchedValuesBounded, matchAll.
  induction patterns as [|[[pat conf] desc] rest IH]; simpl; [constructor|].
  destruct (regexpExec pat "is" html) as [m|]; simpl; [|exact IH].
  constructor; [|exact IH]. simpl. apply (length_sliceTo _ 120%N).
Qed.

Lemma firstUrlMatch_matchedValue src urlPatterns category :
  matchedValuesBounded (firstUrlMatch src urlPatterns category).
Proof.
  unfold matchedValuesBounded.
  induction urlPatterns as [|[[pat conf] desc] rest IH]; simpl; [constructor|].
  destruct (regexpTest pat "i" src); [|exact IH].
  constructor; [|constructor]. simpl. apply (length_sliceTo _ 120%N).
Qed.

Lemma matchTagSrcs_matchedValue html tagPattern urlPatterns category :
  matchedValuesBounded (matchTagSrcs html tagPattern urlPatterns category).
Proof.
  unfold matchedValuesBounded, matchTagSrcs.
  induction (regexpMatchAll tagPattern "gi" html) as [|m ms IH]; simpl; [constructor|].
  apply Forall_app. split; [apply firstUrlMatch_matchedValue|exact IH].
Qed.

Lemma aiGeneratorMeta_matchedValue patterns html :
  matchedValuesBounded (aiGeneratorMeta patterns html).
Proof.
  unfold matchedValuesBounded.
  induction patterns as [|pat rest IH]; simpl; [constructor|].
  destruct (regexpExec _ _ _); [|exact IH].
  constructor; [|constructor]. simpl. apply (length_sliceTo _ 120%N).
Qed.

(** The paths that do not: a hostname that matches a prototype-hosting suffix
    is the [matchedValue] of the signal, whole. *)
Lemma prototypeHosting_matchedValue net html headers finalUrl :
  isPrototypeHost (extractHostname finalUrl) = true ->
  exists sig : Signal,
    sig ∈ detectAiHeuristics net html headers finalUrl /\
    category sig = "prototype_hosting" /\
    matchedValue sig = extractHostname finalUrl.
Proof.
  intros Hp. unfold detectAiHeuristics, aiHeuristics. cbv zeta.
  unfold prototypeHosting. rewrite Hp.
  eexists. split.
  - rewrite !elem_of_app. do 8 right. left. apply list_elem_of_here.
  - split; reflexivity.
Qed.

(** Nor does the Wix server signal: it carries the [server] header, whole. *)
Lemma wixPepyaka_matchedValue fp html headers finalUrl :
  regexpTest "Pepyaka" "i" (default "" (headers !! "server")) = true ->
  exists sig : Signal,
    sig ∈ detectPlatform "Wix" fp html headers finalUrl /\
    category sig = "http_header" /\
    matchedValue sig = default "" (headers !! "server").
Proof.
  intros Hp. unfold detectPlatform. cbv zeta. simpl String.eqb. cbv iota.
  rewrite Hp. eexists. split.
  - rewrite !elem_of_app. right. right. left. left. apply list_elem_of_here.
  - split; reflexivity.
Qed.

Lemma Forall_flat_map {A B} (P : B -> Prop) (f : A -> list B) (l : list A) :
  (forall x, Forall P (f x)) -> Forall P (flat_map f l).
Proof.
  intros Hf. induction l as [|x l IH]; simpl; [constructor|].
  apply Forall_app. split; [apply Hf|exact IH].
Qed.

Lemma bounded_shape hostName server signals :
  matchedValuesBounded signals ->
  Forall (matchedValueShape hostName server) signals.
Proof.
  intros Hb. eapply Forall_impl; [exact Hb|].
  intros sig Hlen. left. exact Hlen.
Qed.

Lemma sliceTo_60_shape hostName server cat desc conf (s : string) :
  matchedValueShape hostName server (mkSignal cat desc conf (sliceTo 60%N s)).
Proof. left. simpl. pose proof (length_sliceTo s 60%N). lia. Qed.

Lemma whenPresent_shape hostName server group (k : list PatternEntry -> list Signal) :
  (forall patterns, Forall (matchedValueShape hostName server) (k patterns)) ->
  Forall (matchedValueShape hostName server) (whenPresent group k).
Proof. intros Hk. destruct group; simpl; [apply Hk|constructor]. Qed.

(** [Forall P (l1 ++ l2 ++ ... ++ ln)] into one goal for each list. *)
Ltac split_concat :=
  lazymatch goal with
  | |- Forall _ (_ ++ _) => apply Forall_app; split; [ | split_concat ]
  | _ => idtac
  end.

Ltac each_branch :=
  repeat match goal with
         | |- context [if ?b then _ else _] => destruct b
         end.

Ltac no_or_one_signal tac :=
  first [ apply Forall_nil_2 | apply Forall_singleton; tac ].

Ltac is_short := left; simpl; lia.
Ltac is_hostname := right; left; reflexivity.
Ltac is_server := right; right; left; reflexivity.
Ltac is_count := right; right; right; eexists; reflexivity.

(** Every signal of the platform detector carries a text cut to at most 120
    characters, the hostname, or the [server] header. *)
Lemma detectPlatform_matchedValue platformName fp html headers finalUrl :
  Forall (matchedValueShape (extractHostname finalUrl) (default "" (headers !! "server")))
    (detectPlatform platformName fp html headers finalUrl).
Proof.
  unfold detectPlatform. cbv zeta. split_concat.
  - apply whenPresent_shape. intros patterns. apply Forall_flat_map.
    intros [[pat conf] desc]. each_branch; no_or_one_signal is_hostname.
  - apply whenPresent_shape. intros patterns. apply Forall_flat_map.
    intros [[pat conf] desc]. each_branch; no_or_one_signal ltac:(apply sliceTo_60_shape).
  - destruct (String.eqb platformName "Wix"); [|apply Forall_nil_2].
    apply Forall_app. split.
    + each_branch; no_or_one_signal is_server.
    + each_branch; no_or_one_signal is_short.
  - each_branch; no_or_one_signal ltac:(apply sliceTo_60_shape).
  - apply Forall_flat_map. intros [cat group].
    apply whenPresent_shape. intros patterns.
    apply bounded_shape, matchAll_matchedValue.
  - apply whenPresent_shape. intros patterns.
    apply bounded_shape, matchTagSrcs_matchedValue.
  - apply whenPresent_shape. intros patterns.
    apply bounded_shape, matchTagSrcs_matchedValue.
  - apply whenPresent_shape. intros patterns.
    apply bounded_shape, matchTagSrcs_matchedValue.
Qed.

(** Every signal of the AI heuristic extractor carries a fixed word, a text
    cut to at most 120 characters, the hostname, or a hit count. *)
Lemma aiHeuristics_matchedValue html jsSource headers finalUrl server :
  Forall (matchedValueShape (extractHostname finalUrl) server)
    (aiHeuristics html jsSource headers finalUrl).
Proof.
  unfold aiHeuristics. cbv zeta. split_concat.
  - unfold overCommenter. cbv zeta. each_branch; no_or_one_signal is_count.
  - unfold shadcnUi. cbv zeta. each_branch; no_or_one_signal is_count.
  - unfold tailwindStack. cbv zeta. each_branch; no_or_one_signal is_count.
  - unfold viteBuild. cbv zeta.
    destruct (1 <=? _)%nat; no_or_one_signal is_short.
  - unfold lucideIcons. cbv zeta. each_branch; no_or_one_signal is_short.
  - unfold interFontSignal. cbv zeta. each_branch; no_or_one_signal is_short.
  - unfold placeholderLinks. cbv zeta. each_branch; no_or_one_signal is_count.
  - unfold genericNaming. cbv zeta. each_branch; no_or_one_signal is_count.
  - unfold prototypeHosting. each_branch; no_or_one_signal is_hostname.
  - unfold hostingPlatform. cbv zeta. apply Forall_app.
    split; each_branch; no_or_one_signal is_short.
  - apply bounded_shape, aiGeneratorMeta_matchedValue.
Qed.

End MatchedValue.

(** C7 fails on the code.  A page served from a hostname of 137 characters
    under [.pages.dev] gets a prototype-hosting signal whose [matchedValue] is
    the whole hostname; a page of a 139-character hostname under
    [.wixsite.com] whose [server] header is [Pepyaka/] followed by 130
    characters gets a hostname signal of 139 characters and a Wix server
    signal of 138 characters as its platform signals. *)
Theorem matchedValue_not_truncated :
  (let host := longHost ".pages.dev" in
   let r := @detectUrl literalRuntime
              (pageNetwork ("https://" +:+ host +:+ "/") [] "<html></html>") host in
   exists sig : Signal,
     sig ∈ aiSignals r /\ category sig = "prototype_hosting" /\
     String.length (matchedValue sig) = 137%nat) /\
  (let host := longHost ".wixsite.com" in
   let r := @detectUrl literalRuntime
              (pageNetwork ("https://" +:+ host +:+ "/")
                 [("Server", "Pepyaka/" +:+ repeatChar 130 "x")] "<html></html>") host in
   bucket r = platform_assisted /\ platform r = Some "Wix" /\
   (String.length <$> (matchedValue <$> platformSignals r)) = [139%nat; 138%nat]).
Proof.
  split.
  - cbv zeta. eexists. split; [|split].
    + vm_compute. apply list_elem_of_here.
    + reflexivity.
    + vm_compute. reflexivity.
  - cbv zeta. split; [|split]; vm_compute; reflexivity.
Qed.

(* ------------------------------------------------------------------ *)
(** ** The theorems at concrete pages *)
(* ------------------------------------------------------------------ *)

(** A Webflow page that also shows two AI heuristics: platform score 20, AI
    score 10, bucket [platform_assisted]. *)
Lemma platform_bucket_takes_precedence_webflow :
  let net := webflowNetwork in
  let st := pageState net "studio.webflow.io" in
  fetchFailed st = None /\
  MIN_PLATFORM_SCORE <= @bestPlatformScoreOf literalRuntime st /\
  MIN_AI_SCORE <= scoreSignals (@aiSignalsOf literalRuntime net st) /\
  bucket (@detectUrl literalRuntime net "studio.webflow.io") = platform_assisted /\
  bucket (@detectUrl literalRuntime net "studio.webflow.io") ≠ ai_assisted.
Proof.
  cbv zeta.
  assert (fetchFailed (pageState webflowNetwork "studio.webflow.io") = None) as Hok
    by (vm_compute; reflexivity).
  assert (MIN_PLATFORM_SCORE
          <= @bestPlatformScoreOf literalRuntime (pageState webflowNetwork "studio.webflow.io"))
    as Hplat by (apply Z.leb_le; vm_compute; reflexivity).
  assert (MIN_AI_SCORE
          <= scoreSignals (@aiSignalsOf literalRuntime webflowNetwork
                             (pageState webflowNetwork "studio.webflow.io")))
    as Hai by (apply Z.leb_le; vm_compute; reflexivity).
  split; [exact Hok|]. split; [exact Hplat|]. split; [exact Hai|].
  exact (@platform_bucket_takes_precedence literalRuntime webflowNetwork
           "studio.webflow.io" Hok Hplat Hai).
Defined.

(** A request that times out: the result carries the message and the
    defaults. *)
Lemma fetch_error_gives_unknown_defaults_timeout :
  let r := @detectUrl literalRuntime (deadNetwork "The operation was aborted") "example.com" in
  error r ≠ None /\
  (bucket r = unknown /\
   bucketConfidence r = none /\
   platform r = None /\
   platformScore r = 0 /\
   platformSignals r = [] /\
   allPlatformScores r = [] /\
   aiScore r = 0 /\
   aiSignals r = []).
Proof.
  cbv zeta.
  assert (error (@detectUrl literalRuntime (deadNetwork "The operation was aborted")
                   "example.com") ≠ None) as Herr by (vm_compute; discriminate).
  split; [exact Herr|].
  exact (@fetch_error_gives_unknown_defaults literalRuntime
           (deadNetwork "The operation was aborted") "example.com" Herr).
Defined.

(** The Webflow page again: the AI signals and score are those of the
    extractor although the bucket is [platform_assisted]. *)
Lemma platform_fields_only_when_platform_assisted_webflow :
  let net := webflowNetwork in
  let st := pageState net "studio.webflow.io" in
  let r := @detectUrl literalRuntime net "studio.webflow.io" in
  error r = None /\
  ((bucket r ≠ platform_assisted ->
    platform r = None /\ platformScore r = 0 /\ platformSignals r = []) /\
   aiSignals r = @aiSignalsOf literalRuntime net st /\
   aiScore r = scoreSignals (@aiSignalsOf literalRuntime net st)).
Proof.
  cbv zeta.
  assert (error (@detectUrl literalRuntime webflowNetwork "studio.webflow.io") = None)
    as Herr by (vm_compute; reflexivity).
  split; [exact Herr|].
  exact (@platform_fields_only_when_platform_assisted literalRuntime webflowNetwork
           "studio.webflow.io" Herr).
Defined.

(** The page with a bundle: served without the script it has the Lucide
    signal only, AI score 5 and bucket [no_ai_signals]; served with the shadcn
    bundle it has AI score 10 and bucket [ai_assisted]; the platform fields
    are the same. *)
Lemma adjunct_bundle_changes_ai_score_only :
  let net1 := mkNetwork bundlePage (fun _ => None) in
  let net2 := mkNetwork bundlePage (fun _ => Some shadcnBundle) in
  let r1 := @detectUrl bundleRuntime net1 "example.com" in
  let r2 := @detectUrl bundleRuntime net2 "example.com" in
  (aiScore r1 = 5 /\ bucket r1 = no_ai_signals /\
   aiScore r2 = 10 /\ bucket r2 = ai_assisted) /\
  (pageState net1 "example.com" = pageState net2 "example.com" /\
   @platformScan bundleRuntime (pageState net1 "example.com")
     = @platformScan bundleRuntime (pageState net2 "example.com") /\
   allPlatformScores r1 = allPlatformScores r2 /\
   platformSignals r1 = platformSignals r2 /\
   platform r1 = platform r2 /\
   platformScore r1 = platformScore r2 /\
   url r1 = url r2 /\
   finalUrl r1 = finalUrl r2 /\
   error r1 = error r2 /\
   (aiScore r1 = aiScore r2 ->
    bucket r1 = bucket r2 /\ bucketConfidence r1 = bucketConfidence r2)).
Proof.
  cbv zeta. split.
  - repeat split; vm_compute; reflexivity.
  - exact (@adjunct_bundle_never_affects_platform bundleRuntime bundlePage
             (fun _ => None) (fun _ => Some shadcnBundle) "example.com").
Defined.

(** A hostname under [.vercel.app] and nothing else: one medium-confidence
    [prototype_hosting] signal, AI score 5, bucket [no_ai_signals]. *)
Example vercel_app_hostname_alone :
  let r := @detectUrl literalRuntime
             (pageNetwork "https://my-app.vercel.app/" [("X-Vercel-Id", "fra1::abc")]
                "<html></html>") "my-app.vercel.app" in
  aiSignals r =
    [mkSignal "prototype_hosting"
       "Hosted on a prototype/AI-default platform subdomain (my-app.vercel.app)"
       "medium" "my-app.vercel.app"] /\
  aiScore r = 5 /\ bucket r = no_ai_signals /\ bucketConfidence r = none.
Proof. cbv zeta. repeat split; vm_compute; reflexivity. Qed.

(** A page with no recognizable pattern on a [.com] hostname. *)
Example plain_page_no_signals :
  let r := @detectUrl literalRuntime
             (pageNetwork "https://example.com/" [] "<html><p>Hello</p></html>")
             "example.com" in
  bucket r = no_ai_signals /\ bucketConfidence r = none /\ platform r = None /\
  platformSignals r = [] /\ aiSignals r = [] /\ error r = None.
Proof. cbv zeta. repeat split; vm_compute; reflexivity. Qed.

(** A request rejected with an empty message is not reported as a failure:
    the page is analysed as an empty page. *)
Example rejected_with_empty_message :
  let r := @detectUrl literalRuntime (deadNetwork "") "example.com" in
  error r = None /\ bucket r = no_ai_signals.
Proof. cbv zeta. split; vm_compute; reflexivity. Qed.

(* ------------------------------------------------------------------ *)
(** ** Score aggregation: order, bounds, concatenation *)
(* ------------------------------------------------------------------ *)

Lemma categoryWeight_app c a b :
  categoryWeight c (a ++ b) = categoryWeight c a + categoryWeight c b.
Proof.
  induction a as [|s a IH]; simpl; [reflexivity|].
  rewrite IH. destruct (decide (category s = c)); lia.
Qed.

Lemma categoryWeight_Permutation c a b :
  a ≡ₚ b -> categoryWeight c a = categoryWeight c b.
Proof.
  induction 1 as [|s a b _ IH|s t a|a b d _ IH1 _ IH2]; simpl.
  - reflexivity.
  - rewrite IH. reflexivity.
  - destruct (decide (category s = c)), (decide (category t = c)); lia.
  - congruence.
Qed.

Lemma categoryWeight_elem sig signals :
  sig ∈ signals -> weightOf sig <= categoryWeight (category sig) signals.
Proof.
  induction signals as [|s l IH]; [intros H; apply elem_of_nil in H; contradiction|].
  rewrite elem_of_cons. simpl. intros [<-|Hin].
  - rewrite decide_True by reflexivity.
    pose proof (categoryWeight_nonneg (category sig) l). lia.
  - specialize (IH Hin). destruct (decide (category s = category sig)); [|assumption].
    pose proof (weightOf_pos s). lia.
Qed.

Lemma categoryWeight_present c signals :
  c ∈ category <$> signals -> 1 <= categoryWeight c signals.
Proof.
  rewrite list_elem_of_fmap. intros (sig & -> & Hin).
  pose proof (categoryWeight_elem sig signals Hin). pose proof (weightOf_pos sig). lia.
Qed.

Lemma sumZ_cons (x : Z) (l : list Z) : sumZ (x :: l) = x + sumZ l.
Proof. reflexivity. Qed.

Lemma sumZ_le {A} (f g : A -> Z) (l : list A) :
  (forall x, x ∈ l -> f x <= g x) -> sumZ (f <$> l) <= sumZ (g <$> l).
Proof.
  induction l as [|x l IH]; intros H; [simpl; lia|].
  rewrite !fmap_cons, !sumZ_cons.
  assert (f x <= g x) by (apply H; left).
  assert (sumZ (f <$> l) <= sumZ (g <$> l)) by (apply IH; intros y Hy; apply H; right; exact Hy).
  lia.
Qed.

Lemma sumZ_eq {A} (f g : A -> Z) (l : list A) :
  (forall x, x ∈ l -> f x = g x) -> sumZ (f <$> l) = sumZ (g <$> l).
Proof.
  intros H. apply Z.le_antisymm; apply sumZ_le; intros x Hx; rewrite (H x Hx); lia.
Qed.

Lemma sumZ_plus {A} (f g : A -> Z) (l : list A) :
  sumZ ((fun x => f x + g x) <$> l) = sumZ (f <$> l) + sumZ (g <$> l).
Proof.
  induction l as [|x l IH]; [reflexivity|].
  rewrite !fmap_cons, !sumZ_cons. lia.
Qed.

Lemma sumZ_const {A} (k : Z) (l : list A) :
  sumZ ((fun _ => k) <$> l) = k * Z.of_nat (length l).
Proof.
  induction l as [|x l IH]; [simpl; lia|].
  rewrite fmap_cons, sumZ_cons. simpl length. lia.
Qed.

(** The score is the sum of the capped weight sums over any list of distinct
    names that holds the categories of the signal set: a name that does not
    occur contributes nothing. *)
Lemma scoreSignals_over_keys (keys : list string) :
  forall signals : list Signal,
    NoDup keys ->
    (forall sig, sig ∈ signals -> category sig ∈ keys) ->
    scoreSignals signals =
    sumZ ((fun c => Z.min (categoryWeight c signals) CATEGORY_CAP) <$> keys).
Proof.
  induction keys as [|c keys IH]; intros signals Hnd Hsub.
  - destruct signals as [|s l]; [reflexivity|].
    exfalso. eapply not_elem_of_nil. apply (Hsub s). left.
  - apply NoDup_cons in Hnd as [Hc Hnd]. simpl.
    destruct (decide (c ∈ category <$> signals)) as [Hin|Hnin].
    + rewrite (scoreSignals_split c signals Hin). f_equal.
      rewrite (IH (withoutCategory c signals) Hnd).
      * apply sumZ_eq. intros c' Hc'.
        rewrite categoryWeight_withoutCategory; [reflexivity|]. intros ->. contradiction.
      * intros sig Hsig. apply list_elem_of_filter in Hsig as [Hne Hsig].
        specialize (Hsub sig Hsig). apply elem_of_cons in Hsub as [?|?]; [contradiction|assumption].
    + rewrite (categoryWeight_absent c signals Hnin). simpl.
      apply IH; [assumption|].
      intros sig Hsig. specialize (Hsub sig Hsig).
      apply elem_of_cons in Hsub as [E|?]; [|assumption].
      exfalso. apply Hnin. rewrite <- E. apply list_elem_of_fmap. eauto.
Qed.

Lemma categoriesOf_elem signals sig : sig ∈ signals -> category sig ∈ categoriesOf signals.
Proof.
  intros Hin. unfold categoriesOf. rewrite elem_of_remove_dups.
  apply list_elem_of_fmap. eauto.
Qed.

(** X1: the score does not depend on the order of the signals. *)
Theorem scoreSignals_Permutation (a b : list Signal) :
  a ≡ₚ b -> scoreSignals a = scoreSignals b.
Proof.
  intros Hp.
  rewrite (scoreSignals_over_keys (categoriesOf a) a), (scoreSignals_over_keys (categoriesOf a) b).
  - apply sumZ_eq. intros c _. rewrite (categoryWeight_Permutation c a b Hp). reflexivity.
  - apply NoDup_remove_dups.
  - intros sig Hsig. apply categoriesOf_elem. rewrite Hp. exact Hsig.
  - apply NoDup_remove_dups.
  - intros sig. apply categoriesOf_elem.
Qed.

Lemma scoreSignals_Permutation_swap :
  let s1 := mkSignal "hostname" "a" "high" "x" in
  let s2 := mkSignal "css_class" "b" "low" "y" in
  [s1; s2; s1] ≡ₚ [s1; s1; s2] /\
  scoreSignals [s1; s2; s1] = scoreSignals [s1; s1; s2].
Proof.
  cbv zeta.
  assert ([mkSignal "hostname" "a" "high" "x"; mkSignal "css_class" "b" "low" "y";
           mkSignal "hostname" "a" "high" "x"]
          ≡ₚ [mkSignal "hostname" "a" "high" "x"; mkSignal "hostname" "a" "high" "x";
              mkSignal "css_class" "b" "low" "y"]) as Hp
    by (apply perm_skip, perm_swap).
  split; [exact Hp|]. exact (scoreSignals_Permutation _ _ Hp).
Defined.

Lemma scoreSignals_bounds_by_categories (signals : list Signal) :
  Z.of_nat (length (categoriesOf signals)) <= scoreSignals signals /\
  scoreSignals signals <= CATEGORY_CAP * Z.of_nat (length (categoriesOf signals)) /\
  (scoreSignals signals = 0 <-> signals = []).
Proof.
  rewrite scoreSignals_cappedCategorySum. unfold cappedCategorySum.
  assert (Z.of_nat (length (categoriesOf signals))
          <= sumZ ((fun c => Z.min (categoryWeight c signals) CATEGORY_CAP) <$> categoriesOf signals))
    as Hlow.
  { rewrite <- (Z.mul_1_l (Z.of_nat _)), <- (sumZ_const 1).
    apply sumZ_le. intros c Hc. unfold categoriesOf in Hc. rewrite elem_of_remove_dups in Hc.
    pose proof (categoryWeight_present c signals Hc). unfold CATEGORY_CAP. lia. }
  split; [exact Hlow|]. split.
  - rewrite <- (sumZ_const CATEGORY_CAP). apply sumZ_le. intros c _. lia.
  - split.
    + intros Hz. destruct signals as [|s l]; [reflexivity|]. exfalso.
      assert (category s ∈ categoriesOf (s :: l)) as Hin by (apply categoriesOf_elem; left).
      destruct (categoriesOf (s :: l)) as [|c K]; [apply elem_of_nil in Hin; exact Hin|].
      simpl length in Hlow. lia.
    + intros ->. reflexivity.
Qed.

Lemma scoreSignals_app_bounds (a b : list Signal) :
  scoreSignals a <= scoreSignals (a ++ b) /\
  scoreSignals b <= scoreSignals (a ++ b) /\
  scoreSignals (a ++ b) <= scoreSignals a + scoreSignals b /\
  ((forall sa sb : Signal, sa ∈ a -> sb ∈ b -> category sa ≠ category sb) ->
   scoreSignals (a ++ b) = scoreSignals a + scoreSignals b).
Proof.
  set (K := categoriesOf (a ++ b)).
  assert (NoDup K) as Hnd by apply NoDup_remove_dups.
  assert (forall sig, sig ∈ a ++ b -> category sig ∈ K) as Hab by apply categoriesOf_elem.
  assert (forall sig, sig ∈ a -> category sig ∈ K) as Ha
    by (intros sig Hs; apply Hab, elem_of_app; auto).
  assert (forall sig, sig ∈ b -> category sig ∈ K) as Hb
    by (intros sig Hs; apply Hab, elem_of_app; auto).
  rewrite (scoreSignals_over_keys K (a ++ b) Hnd Hab),
    (scoreSignals_over_keys K a Hnd Ha), (scoreSignals_over_keys K b Hnd Hb).
  rewrite <- sumZ_plus.
  repeat split.
  - apply sumZ_le. intros c _. rewrite categoryWeight_app.
    pose proof (categoryWeight_nonneg c b). lia.
  - apply sumZ_le. intros c _. rewrite categoryWeight_app.
    pose proof (categoryWeight_nonneg c a). lia.
  - apply sumZ_le. intros c _. rewrite categoryWeight_app.
    pose proof (categoryWeight_nonneg c a). pose proof (categoryWeight_nonneg c b).
    unfold CATEGORY_CAP. lia.
  - intros Hdisj. apply sumZ_eq. intros c _. rewrite categoryWeight_app.
    destruct (decide (c ∈ category <$> a)) as [Hca|Hca].
    + rewrite (categoryWeight_absent c b).
      * unfold CATEGORY_CAP. lia.
      * rewrite list_elem_of_fmap. intros (sb & -> & Hsb).
        apply list_elem_of_fmap in Hca as (sa & E & Hsa). exact (Hdisj sa sb Hsa Hsb (eq_sym E)).
    + rewrite (categoryWeight_absent c a Hca). unfold CATEGORY_CAP.
      pose proof (categoryWeight_nonneg c b). lia.
Qed.

(** X2: on signals whose categories and confidence values are no property
    names of [Object.prototype], every category of the set contributes
    between 1 and 15, so the score is a number between the number of
    categories and 15 times that number; it is 0 only for the empty set. *)
Theorem scoreSignals_category_bounds (signals : list Signal) :
  Forall plainSignal signals ->
  exists n : Z,
    Js.scoreSignals signals = Finite n /\
    Z.of_nat (length (categoriesOf signals)) <= n /\
    n <= CATEGORY_CAP * Z.of_nat (length (categoriesOf signals)) /\
    (n = 0 <-> signals = []).
Proof.
  intros Hplain. exists (scoreSignals signals).
  split; [exact (scoreSignals_plain signals Hplain)|].
  exact (scoreSignals_bounds_by_categories signals).
Qed.

(** Three signals in two categories score 12 + 2, between 2 and 30. *)
Lemma scoreSignals_category_bounds_example :
  let signals :=
    [ mkSignal "meta_tag" "" "high" ""; mkSignal "css_class" "" "low" "";
      mkSignal "meta_tag" "" "low" "" ] in
  Forall plainSignal signals /\
  Js.scoreSignals signals = Finite 14 /\
  length (categoriesOf signals) = 2%nat /\
  exists n : Z,
    Js.scoreSignals signals = Finite n /\
    Z.of_nat (length (categoriesOf signals)) <= n /\
    n <= CATEGORY_CAP * Z.of_nat (length (categoriesOf signals)) /\
    (n = 0 <-> signals = []).
Proof.
  cbv zeta.
  assert (Hplain : Forall plainSignal
            [ mkSignal "meta_tag" "" "high" ""; mkSignal "css_class" "" "low" "";
              mkSignal "meta_tag" "" "low" "" ])
    by (repeat constructor).
  split; [exact Hplain|]. split; [vm_compute; reflexivity|].
  split; [vm_compute; reflexivity|].
  exact (scoreSignals_category_bounds _ Hplain).
Defined.

(** X3: on signals whose categories and confidence values are no property
    names of [Object.prototype], the score of two signal sets put together
    is at least the score of each and at most their sum, and it is their sum
    when no category occurs in both. *)
Theorem scoreSignals_app (a b : list Signal) :
  Forall plainSignal a -> Forall plainSignal b ->
  exists na nb nab : Z,
    Js.scoreSignals a = Finite na /\
    Js.scoreSignals b = Finite nb /\
    Js.scoreSignals (a ++ b) = Finite nab /\
    na <= nab /\ nb <= nab /\ nab <= na + nb /\
    ((forall sa sb : Signal, sa ∈ a -> sb ∈ b -> category sa ≠ category sb) ->
     nab = na + nb).
Proof.
  intros Ha Hb.
  exists (scoreSignals a), (scoreSignals b), (scoreSignals (a ++ b)).
  split; [exact (scoreSignals_plain a Ha)|].
  split; [exact (scoreSignals_plain b Hb)|].
  split; [apply scoreSignals_plain, Forall_app; split; assumption|].
  destruct (scoreSignals_app_bounds a b) as (H1 & H2 & H3 & H4).
  repeat split; assumption.
Qed.

(** A shared category: 10 and 10 put together are capped at 15. *)
Lemma scoreSignals_app_example :
  let a := [ mkSignal "meta_tag" "" "high" "" ] in
  let b := [ mkSignal "meta_tag" "" "high" "" ] in
  Forall plainSignal a /\ Forall plainSignal b /\
  Js.scoreSignals (a ++ b) = Finite 15 /\
  exists na nb nab : Z,
    Js.scoreSignals a = Finite na /\
    Js.scoreSignals b = Finite nb /\
    Js.scoreSignals (a ++ b) = Finite nab /\
    na <= nab /\ nb <= nab /\ nab <= na + nb /\
    ((forall sa sb : Signal, sa ∈ a -> sb ∈ b -> category sa ≠ category sb) ->
     nab = na + nb).
Proof.
  cbv zeta.
  assert (Hplain : Forall plainSignal [ mkSignal "meta_tag" "" "high" "" ])
    by (repeat constructor).
  split; [exact Hplain|]. split; [exact Hplain|]. split; [vm_compute; reflexivity|].
  exact (scoreSignals_app _ _ Hplain Hplain).
Defined.

(** A signal of the set alone already gives the score its capped weight. *)
Lemma scoreSignals_ge_signal sig signals :
  sig ∈ signals -> Z.min (weightOf sig) CATEGORY_CAP <= scoreSignals signals.
Proof.
  intros Hin.
  rewrite (scoreSignals_split (category sig) signals)
    by (apply list_elem_of_fmap; eauto).
  pose proof (categoryWeight_elem sig signals Hin).
  pose proof (scoreSignals_nonneg (withoutCategory (category sig) signals)). lia.
Qed.

(* ------------------------------------------------------------------ *)
(** ** Platform detector: categories and score range *)
(* ------------------------------------------------------------------ *)

(** [Forall P (l1 ++ l2 ++ ... ++ ln)] into one goal for each list. *)
Ltac split_concat :=
  lazymatch goal with
  | |- Forall _ (_ ++ _) => apply Forall_app; split; [ | split_concat ]
  | _ => idtac
  end.

Ltac each_branch :=
  repeat match goal with
         | |- context [if ?b then _ else _] => destruct b
         end.

Ltac no_or_one_signal tac :=
  first [ apply Forall_nil_2 | apply Forall_singleton; tac ].

Lemma NoDup_PLATFORM_CATEGORIES : NoDup PLATFORM_CATEGORIES.
Proof. apply (bool_decide_unpack _). vm_compute. reflexivity. Qed.

Lemma allOfCategory_among c cs signals :
  c ∈ cs -> allOfCategory c signals -> categoriesAmong cs signals.
Proof.
  intros Hc Hall. eapply Forall_impl; [exact Hall|].
  intros sig ->. exact Hc.
Qed.

Section PlatformCategories.

Context {rt : JsRuntime}.

Lemma matchAll_category html patterns cat : allOfCategory cat (matchAll html patterns cat).
Proof.
  unfold allOfCategory, matchAll. apply Forall_flat_map.
  intros [[pat conf] desc]. destruct (regexpExec pat "is" html); no_or_one_signal ltac:(reflexivity).
Qed.

Lemma firstUrlMatch_category src urlPatterns cat :
  allOfCategory cat (firstUrlMatch src urlPatterns cat).
Proof.
  unfold allOfCategory.
  induction urlPatterns as [|[[pat conf] desc] rest IH]; simpl; [constructor|].
  destruct (regexpTest pat "i" src); [|exact IH]. no_or_one_signal ltac:(reflexivity).
Qed.

Lemma matchTagSrcs_category html tagPattern urlPatterns cat :
  allOfCategory cat (matchTagSrcs html tagPattern urlPatterns cat).
Proof.
  unfold allOfCategory, matchTagSrcs. apply Forall_flat_map.
  intros m. apply firstUrlMatch_category.
Qed.

Lemma whenPresent_among cs group (k : list PatternEntry -> list Signal) :
  (forall patterns, categoriesAmong cs (k patterns)) ->
  categoriesAmong cs (whenPresent group k).
Proof. intros Hk. destruct group; simpl; [apply Hk|constructor]. Qed.

Ltac in_categories := unfold PLATFORM_CATEGORIES; simpl; set_solver.

Lemma detectPlatform_categories platformName fp html headers finalUrl :
  categoriesAmong PLATFORM_CATEGORIES (detectPlatform platformName fp html headers finalUrl).
Proof.
  unfold detectPlatform, categoriesAmong. cbv zeta. split_concat.
  - apply whenPresent_among. intros patterns. apply Forall_flat_map.
    intros [[pat conf] desc]. each_branch; no_or_one_signal ltac:(in_categories).
  - apply whenPresent_among. intros patterns. apply Forall_flat_map.
    intros [[pat conf] desc]. each_branch; no_or_one_signal ltac:(in_categories).
  - destruct (String.eqb platformName "Wix"); [|apply Forall_nil_2].
    apply Forall_app. split; each_branch; no_or_one_signal ltac:(in_categories).
  - each_branch; no_or_one_signal ltac:(in_categories).
  - unfold htmlCategories. simpl flat_map. rewrite app_nil_r. split_concat;
      (apply whenPresent_among; intros patterns;
       eapply allOfCategory_among; [|apply matchAll_category]; in_categories).
  - apply whenPresent_among. intros patterns.
    eapply allOfCategory_among; [|apply matchTagSrcs_category]. in_categories.
  - apply whenPresent_among. intros patterns.
    eapply allOfCategory_among; [|apply matchTagSrcs_category]. in_categories.
  - apply whenPresent_among. intros patterns.
    eapply allOfCategory_among; [|apply matchTagSrcs_category]. in_categories.
Qed.

Lemma detectPlatform_score_range platformName fp html headers finalUrl :
  0 <= scoreSignals (detectPlatform platformName fp html headers finalUrl) <= 180.
Proof.
  split; [apply scoreSignals_nonneg|].
  rewrite (scoreSignals_over_keys PLATFORM_CATEGORIES).
  - change 180 with (CATEGORY_CAP * Z.of_nat (length PLATFORM_CATEGORIES)).
    rewrite <- (sumZ_const CATEGORY_CAP). apply sumZ_le. intros c _. lia.
  - apply NoDup_PLATFORM_CATEGORIES.
  - pose proof (detectPlatform_categories platformName fp html headers finalUrl) as H.
    unfold categoriesAmong in H. rewrite Forall_forall in H. exact H.
Qed.

(** What [allPlatformSignalsMap] holds for a platform of the table. *)
Lemma scanFingerprints_signals table html headers finalUrl p fp :
  NoDup table.*1 ->
  (p, fp) ∈ table ->
  (scanFingerprints table html headers finalUrl).2 !! p =
  Some (detectPlatform p fp html headers finalUrl).
Proof.
  unfold scanFingerprints.
  induction table as [|[p' fp'] table IH] using rev_ind; intros Hnd Hin.
  - apply elem_of_nil in Hin. contradiction.
  - rewrite fmap_app in Hnd. apply NoDup_app in Hnd as (Hnd & Hfresh & _).
    rewrite foldl_app. simpl.
    apply elem_of_app in Hin as [Hin|Hin].
    + rewrite lookup_insert_ne; [apply IH; assumption|].
      intros ->. apply (Hfresh p).
      * apply list_elem_of_fmap. exists (p, fp). split; [reflexivity|assumption].
      * simpl. left.
    + apply list_elem_of_singleton in Hin. injection Hin as -> ->.
      apply lookup_insert_eq.
Qed.

End PlatformCategories.

(* ------------------------------------------------------------------ *)
(** ** The result record: what its fields always satisfy *)
(* ------------------------------------------------------------------ *)

Lemma bestPlatformEntry_elem (l : list (string * Z)) :
  l ≠ [] ->
  bestPlatformEntry l ∈ l /\ (forall q, q ∈ l -> q.2 <= (bestPlatformEntry l).2).
Proof.
  destruct l as [|e t]; [congruence|]. intros _.
  destruct (bestPlatformEntry_first_max e t) as (i & Hi & Hmax & _). split.
  - apply list_elem_of_lookup. eauto.
  - intros q Hq. apply list_elem_of_lookup in Hq as [j Hj]. eapply Hmax. exact Hj.
Qed.

Lemma FINGERPRINTS_nonempty : FINGERPRINTS ≠ [].
Proof. intros H. apply (f_equal length) in H. vm_compute in H. discriminate H. Qed.

Section ResultRecord.

Context {rt : JsRuntime}.

Lemma fetch_error_gives_unknown_defaults_aux (net : Network) (rawUrl : string) :
  error (detectUrl net rawUrl) ≠ None ->
  allPlatformScores (detectUrl net rawUrl) = [] /\
  platformScore (detectUrl net rawUrl) = 0.
Proof.
  unfold detectUrl. cbv zeta.
  destruct (fetchFailed _) as [message|]; [split; reflexivity|].
  destruct (MIN_PLATFORM_SCORE <=? _); [intros []; reflexivity|].
  destruct (MIN_AI_SCORE <=? _); intros []; reflexivity.
Qed.

Lemma platformScan_scores (st : FetchState) :
  (platformScan st).1 =
  (fun entry =>
     (entry.1,
      scoreSignals (detectPlatform entry.1 entry.2 (st_html st) (st_responseHeaders st)
                      (st_finalUrl st)))) <$> FINGERPRINTS.
Proof. unfold platformScan. apply scanFingerprints_scores, NoDup_FINGERPRINTS. Qed.

(** The best entry of the score table of a page belongs to a platform of the
    table, has the score of that platform's signals, and no platform scores
    more. *)
Lemma bestPlatformEntry_of_page (st : FetchState) :
  exists (p : string) (fp : PlatformFingerprint),
    (p, fp) ∈ FINGERPRINTS /\
    bestPlatformEntry (platformScan st).1 =
      (p, scoreSignals (detectPlatform p fp (st_html st) (st_responseHeaders st)
                          (st_finalUrl st))) /\
    (platformScan st).2 !! p =
      Some (detectPlatform p fp (st_html st) (st_responseHeaders st) (st_finalUrl st)) /\
    (forall p' fp',
       (p', fp') ∈ FINGERPRINTS ->
       scoreSignals (detectPlatform p' fp' (st_html st) (st_responseHeaders st) (st_finalUrl st))
       <= (bestPlatformEntry (platformScan st).1).2).
Proof.
  destruct (bestPlatformEntry_elem (platformScan st).1) as [Hin Hmax].
  { rewrite platformScan_scores. intros H. apply fmap_nil_inv in H.
    exact (FINGERPRINTS_nonempty H). }
  rewrite platformScan_scores in Hin. apply list_elem_of_fmap in Hin as ([p fp] & Hbest & Hin).
  exists p, fp. split; [exact Hin|]. split; [exact Hbest|]. split.
  - unfold platformScan. apply scanFingerprints_signals; [apply NoDup_FINGERPRINTS|exact Hin].
  - intros p' fp' Hin'.
    apply (Hmax (p', scoreSignals (detectPlatform p' fp' (st_html st) (st_responseHeaders st)
                                     (st_finalUrl st)))).
    rewrite platformScan_scores. apply list_elem_of_fmap. exists (p', fp'). split; [reflexivity|assumption].
Qed.

(** X4: every entry of the score table of a result is a platform of
    [FINGERPRINTS] with a score between 0 and 180 (twelve categories capped at
    15), and so is the platform score of the result. *)
Theorem platform_scores_in_range (net : Network) (rawUrl : string) :
  let r := detectUrl net rawUrl in
  (forall (p : string) (s : Z),
     (p, s) ∈ allPlatformScores r -> p ∈ FINGERPRINTS.*1 /\ 0 <= s <= 180) /\
  0 <= platformScore r <= 180.
Proof.
  intros r. subst r.
  destruct (fetchFailed (pageState net rawUrl)) as [message|] eqn:Hf.
  - assert (error (detectUrl net rawUrl) ≠ None) as Herr
      by (rewrite detectUrl_error, Hf; discriminate).
    destruct (fetch_error_gives_unknown_defaults_aux net rawUrl Herr) as (Hs & Hp).
    rewrite Hs, Hp. split; [|lia].
    intros p s Hin. apply elem_of_nil in Hin. contradiction.
  - destruct (detectUrl_fetched net rawUrl Hf) as (Hscores & _ & _ & Hplat & Hnot).
    split.
    + intros p s. rewrite Hscores, platformScan_scores.
      intros Hin. apply list_elem_of_fmap in Hin as ([p' fp'] & [= -> ->] & Hin). split.
      * apply list_elem_of_fmap. exists (p', fp'). split; [reflexivity|assumption].
      * apply detectPlatform_score_range.
    + destruct (Z_lt_le_dec (bestPlatformScoreOf (pageState net rawUrl)) MIN_PLATFORM_SCORE)
        as [Hlt|Hge].
      * destruct (Hnot Hlt) as (_ & -> & _). lia.
      * destruct (Hplat Hge) as (_ & _ & -> & _).
        destruct (bestPlatformEntry_of_page (pageState net rawUrl)) as (p & fp & _ & Hbest & _).
        unfold bestPlatformScoreOf. rewrite Hbest. simpl. apply detectPlatform_score_range.
Qed.

End ResultRecord.

Section ResultInvariants.

Context {rt : JsRuntime}.

Ltac table_goal :=
  repeat split; intros;
  repeat match goal with
         | H : _ /\ _ |- _ => destruct H
         | H : _ \/ _ |- _ => destruct H
         end;
  try discriminate; try congruence; try lia; auto.

Lemma scoreSignals_nil : scoreSignals [] = 0.
Proof. reflexivity. Qed.

Lemma detectUrl_scores_and_signals (net : Network) (rawUrl : string) :
  let st := pageState net rawUrl in
  let r := detectUrl net rawUrl in
  platformScore r = scoreSignals (platformSignals r) /\
  aiScore r = scoreSignals (aiSignals r) /\
  (forall p : string,
     platform r = Some p ->
     exists fp : PlatformFingerprint,
       (p, fp) ∈ FINGERPRINTS /\
       platformSignals r =
         detectPlatform p fp (st_html st) (st_responseHeaders st) (st_finalUrl st) /\
       (p, platformScore r) ∈ allPlatformScores r).
Proof.
  intros st r. subst st r.
  destruct (fetchFailed (pageState net rawUrl)) as [message|] eqn:Hf.
  - unfold detectUrl. cbv zeta. fold (pageState net rawUrl). rewrite Hf. simpl.
    split; [reflexivity|]. split; [reflexivity|]. intros p Hp. discriminate Hp.
  - destruct (detectUrl_fetched net rawUrl Hf) as (Hscores & Hsigs & Hai & Hplat & Hnot).
    destruct (bestPlatformEntry_of_page (pageState net rawUrl))
      as (p & fp & Hin & Hbest & Hmap & _).
    destruct (Z_lt_le_dec (bestPlatformScoreOf (pageState net rawUrl)) MIN_PLATFORM_SCORE)
      as [Hlt|Hge].
    + destruct (Hnot Hlt) as (Hp & Hs & Hl & _).
      rewrite Hs, Hl, Hai, Hsigs, Hp.
      split; [reflexivity|]. split; [reflexivity|]. intros q Hq. discriminate Hq.
    + destruct (Hplat Hge) as (_ & Hp & Hs & Hl).
      unfold bestPlatformScoreOf in Hs. rewrite Hbest in Hp, Hs, Hl.
      cbn [fst snd] in Hp, Hs, Hl. rewrite Hmap in Hl. cbn [default] in Hl.
      rewrite Hs, Hl, Hai, Hsigs, Hp.
      split; [reflexivity|]. split; [reflexivity|].
      intros q [= <-]. exists fp. split; [exact Hin|]. split; [reflexivity|].
      rewrite Hscores, platformScan_scores. apply list_elem_of_fmap.
      exists (p, fp). split; [reflexivity|exact Hin].
Qed.

(** X5: in every result the platform score is the score of the platform
    signals and the AI score is the score of the AI signals; and a result
    that names a platform names one of [FINGERPRINTS], carries the signals the
    platform detector found for it, and lists it with that score in the score
    table. *)
Theorem result_scores_match_signals (net : Network) (rawUrl : string) :
  let st := pageState net rawUrl in
  let r := detectUrl net rawUrl in
  platformScore r = scoreSignals (platformSignals r) /\
  aiScore r = scoreSignals (aiSignals r) /\
  (forall p : string,
     platform r = Some p ->
     exists fp : PlatformFingerprint,
       (p, fp) ∈ FINGERPRINTS /\
       platformSignals r =
         detectPlatform p fp (st_html st) (st_responseHeaders st) (st_finalUrl st) /\
       (p, platformScore r) ∈ allPlatformScores r).
Proof. exact (detectUrl_scores_and_signals net rawUrl). Qed.

End ResultInvariants.

(* ------------------------------------------------------------------ *)
(** ** Thresholds met and never met *)
(* ------------------------------------------------------------------ *)

Lemma scoreSignals_single (sig : Signal) :
  scoreSignals [sig] = Z.min (weightOf sig) CATEGORY_CAP.
Proof.
  rewrite (scoreSignals_split (category sig) [sig]) by (simpl; left).
  unfold withoutCategory. rewrite filter_cons, decide_False by (intros H; apply H; reflexivity).
  rewrite filter_nil. simpl. rewrite decide_True by reflexivity.
  change (scoreSignals []) with 0. lia.
Qed.

Lemma scoreSignals_le_weights (signals : list Signal) :
  scoreSignals signals <= sumZ (weightOf <$> signals).
Proof.
  induction signals as [|s l IH]; [reflexivity|].
  rewrite fmap_cons, sumZ_cons.
  destruct (scoreSignals_app_bounds [s] l) as (_ & _ & Hle & _). simpl in Hle.
  rewrite scoreSignals_single in Hle. lia.
Qed.

Lemma FINGERPRINTS_Cursor_AI fp : ("Cursor AI", fp) ∈ FINGERPRINTS -> fp = fp_Cursor_AI.
Proof.
  unfold FINGERPRINTS. intros H.
  repeat (apply elem_of_cons in H as [H|H];
          [first [discriminate H | injection H as ->; reflexivity]|]).
  apply elem_of_nil in H. contradiction.
Qed.

Section Thresholds.

Context {rt : JsRuntime}.

Lemma matchAll_one_entry html pat conf desc cat :
  matchAll html [(pat, conf, desc)] cat = [] \/
  exists m, matchAll html [(pat, conf, desc)] cat = [mkSignal cat desc conf m].
Proof.
  unfold matchAll. simpl. destruct (regexpExec pat "is" html); simpl; eauto.
Qed.

(** The two entries of the Cursor AI fingerprint are of low confidence and
    of different categories: the platform never scores more than 4. *)
Lemma cursorAi_score html headers finalUrl :
  scoreSignals (detectPlatform "Cursor AI" fp_Cursor_AI html headers finalUrl) <= 4.
Proof.
  etransitivity; [apply scoreSignals_le_weights|].
  unfold detectPlatform, fp_Cursor_AI, htmlCategories. cbn -[matchAll].
  rewrite !fmap_app.
  match goal with
  | |- context [matchAll html [(?p1, ?c1, ?d1)] "meta_tag"] =>
      destruct (matchAll_one_entry html p1 c1 d1 "meta_tag") as [->|[m1 ->]]
  end;
  match goal with
  | |- context [matchAll html [(?p2, ?c2, ?d2)] "html_comment"] =>
      destruct (matchAll_one_entry html p2 c2 d2 "html_comment") as [->|[m2 ->]]
  end;
  simpl; rewrite ?weightOf_low by reflexivity; unfold sumZ; simpl; lia.
Qed.

Lemma platform_named_cleared (net : Network) (rawUrl p : string) :
  platform (detectUrl net rawUrl) = Some p ->
  bucket (detectUrl net rawUrl) = platform_assisted /\
  MIN_PLATFORM_SCORE <= platformScore (detectUrl net rawUrl).
Proof.
  unfold detectUrl. cbv zeta.
  destruct (fetchFailed _) as [message|]; [discriminate|].
  destruct (Z.leb_spec MIN_PLATFORM_SCORE
              (bestPlatformEntry (scanFingerprints FINGERPRINTS
                 (st_html (primaryFetch net (normalizeUrl rawUrl)))
                 (st_responseHeaders (primaryFetch net (normalizeUrl rawUrl)))
                 (st_finalUrl (primaryFetch net (normalizeUrl rawUrl)))).1).2) as [Hge|Hlt].
  - intros _. split; [reflexivity|exact Hge].
  - destruct (MIN_AI_SCORE <=? _); discriminate.
Qed.

(** X8: no page is ever attributed to the platform Cursor AI: its fingerprint
    cannot reach the platform threshold. *)
Theorem cursor_ai_is_never_the_platform (net : Network) (rawUrl : string) :
  platform (detectUrl net rawUrl) ≠ Some "Cursor AI".
Proof.
  intros Hp.
  destruct (platform_named_cleared net rawUrl _ Hp) as [_ Hge].
  destruct (detectUrl_scores_and_signals net rawUrl) as (Hs & _ & Hnamed).
  destruct (Hnamed _ Hp) as (fp & Hin & Hsigs & _).
  apply FINGERPRINTS_Cursor_AI in Hin. subst fp.
  rewrite Hs, Hsigs in Hge.
  pose proof (cursorAi_score (st_html (pageState net rawUrl))
                (st_responseHeaders (pageState net rawUrl))
                (st_finalUrl (pageState net rawUrl))).
  unfold MIN_PLATFORM_SCORE in Hge. lia.
Qed.

(** X9: when the page was fetched and the platform detector finds, for some
    platform of the table, a signal of high or medium confidence, the bucket
    is [platform_assisted]: one such signal reaches the threshold. *)
Theorem strong_platform_signal_decides
    (net : Network) (rawUrl p : string) (fp : PlatformFingerprint) (sig : Signal) :
  let st := pageState net rawUrl in
  fetchFailed st = None ->
  (p, fp) ∈ FINGERPRINTS ->
  sig ∈ detectPlatform p fp (st_html st) (st_responseHeaders st) (st_finalUrl st) ->
  confidence sig = "high" \/ confidence sig = "medium" ->
  bucket (detectUrl net rawUrl) = platform_assisted.
Proof.
  intros st Hok Hin Hsig Hconf. subst st.
  destruct (detectUrl_fetched net rawUrl Hok) as (_ & _ & _ & Hplat & _).
  apply Hplat. unfold bestPlatformScoreOf.
  destruct (bestPlatformEntry_of_page (pageState net rawUrl)) as (_ & _ & _ & _ & _ & Hmax).
  specialize (Hmax p fp Hin).
  pose proof (scoreSignals_ge_signal sig _ Hsig) as Hge.
  assert (5 <= weightOf sig) as Hw.
  { destruct Hconf as [E|E]; [rewrite (weightOf_high _ E)|rewrite (weightOf_medium _ E)]; lia. }
  unfold MIN_PLATFORM_SCORE, CATEGORY_CAP in *. lia.
Qed.

End Thresholds.

Lemma strong_platform_signal_decides_webflow :
  let st := pageState webflowNetwork "studio.webflow.io" in
  let sig := mkSignal "hostname" "Webflow subdomain (.webflow.io)" "high" "studio.webflow.io" in
  fetchFailed st = None /\
  ("Webflow", fp_Webflow) ∈ FINGERPRINTS /\
  sig ∈ @detectPlatform literalRuntime "Webflow" fp_Webflow
          (st_html st) (st_responseHeaders st) (st_finalUrl st) /\
  (confidence sig = "high" \/ confidence sig = "medium") /\
  bucket (@detectUrl literalRuntime webflowNetwork "studio.webflow.io") = platform_assisted.
Proof.
  cbv zeta.
  assert (fetchFailed (pageState webflowNetwork "studio.webflow.io") = None) as Hok
    by (vm_compute; reflexivity).
  assert (("Webflow", fp_Webflow) ∈ FINGERPRINTS) as Hin
    by (unfold FINGERPRINTS; right; left).
  assert (mkSignal "hostname" "Webflow subdomain (.webflow.io)" "high" "studio.webflow.io"
          ∈ @detectPlatform literalRuntime "Webflow" fp_Webflow
              (st_html (pageState webflowNetwork "studio.webflow.io"))
              (st_responseHeaders (pageState webflowNetwork "studio.webflow.io"))
              (st_finalUrl (pageState webflowNetwork "studio.webflow.io"))) as Hsig
    by (vm_compute; left).
  split; [exact Hok|]. split; [exact Hin|]. split; [exact Hsig|].
  split; [left; reflexivity|].
  exact (@strong_platform_signal_decides literalRuntime webflowNetwork "studio.webflow.io"
           "Webflow" fp_Webflow _ Hok Hin Hsig (or_introl eq_refl)).
Defined.

(* ------------------------------------------------------------------ *)
(** ** AI heuristic extractor: how much it can emit *)
(* ------------------------------------------------------------------ *)

Section AiRange.

Context {rt : JsRuntime}.

(** The score and the number of signals of a sub-detector that emits nothing
    or one signal. *)
Ltac piece_bound :=
  cbv zeta; each_branch;
  rewrite ?scoreSignals_single; change (scoreSignals []) with 0;
  rewrite ?weightOf_high, ?weightOf_medium, ?weightOf_low by reflexivity;
  unfold CATEGORY_CAP; simpl length; lia.

Lemma overCommenter_bound fullSource :
  scoreSignals (overCommenter fullSource) <= 10 /\ (length (overCommenter fullSource) <= 1)%nat.
Proof. unfold overCommenter. piece_bound. Qed.

Lemma shadcnUi_bound fullSource :
  scoreSignals (shadcnUi fullSource) <= 10 /\ (length (shadcnUi fullSource) <= 1)%nat.
Proof. unfold shadcnUi. piece_bound. Qed.

Lemma tailwindStack_bound fullSource :
  scoreSignals (tailwindStack fullSource) <= 5 /\ (length (tailwindStack fullSource) <= 1)%nat.
Proof. unfold tailwindStack. piece_bound. Qed.

Lemma viteBuild_bound html :
  scoreSignals (viteBuild html) <= 5 /\ (length (viteBuild html) <= 1)%nat.
Proof.
  unfold viteBuild. cbv zeta.
  destruct (1 <=? _)%nat; [|change (scoreSignals []) with 0; simpl; lia].
  destruct (existsb _ _); rewrite scoreSignals_single;
    rewrite ?weightOf_medium, ?weightOf_low by reflexivity;
    unfold CATEGORY_CAP; simpl length; lia.
Qed.

Lemma lucideIcons_bound fullSource :
  scoreSignals (lucideIcons fullSource) <= 5 /\ (length (lucideIcons fullSource) <= 1)%nat.
Proof. unfold lucideIcons. piece_bound. Qed.

Lemma interFontSignal_bound html fullSource :
  scoreSignals (interFontSignal html fullSource) <= 2 /\
  (length (interFontSignal html fullSource) <= 1)%nat.
Proof. unfold interFontSignal. piece_bound. Qed.

Lemma placeholderLinks_bound html :
  scoreSignals (placeholderLinks html) <= 10 /\ (length (placeholderLinks html) <= 1)%nat.
Proof. unfold placeholderLinks. piece_bound. Qed.

Lemma genericNaming_bound html :
  scoreSignals (genericNaming html) <= 5 /\ (length (genericNaming html) <= 1)%nat.
Proof. unfold genericNaming. piece_bound. Qed.

(** The prototype-hosting signal and the hosting-header signals exclude each
    other: together they weigh at most 5 and are at most two. *)
Lemma hosting_bound headers hostName :
  scoreSignals (prototypeHosting hostName) + scoreSignals (hostingPlatform headers hostName) <= 5 /\
  (length (prototypeHosting hostName) + length (hostingPlatform headers hostName) <= 2)%nat.
Proof.
  unfold prototypeHosting, hostingPlatform. cbv zeta.
  destruct (isPrototypeHost hostName); rewrite ?andb_false_r; simpl negb; rewrite ?andb_true_r.
  - simpl app. rewrite scoreSignals_single, weightOf_medium by reflexivity.
    change (scoreSignals []) with 0. unfold CATEGORY_CAP. simpl length. lia.
  - change (scoreSignals []) with 0. split.
    + etransitivity; [apply Z.add_le_mono_l, scoreSignals_le_weights|].
      each_branch; simpl; rewrite ?weightOf_low by reflexivity; unfold sumZ; simpl; lia.
    + each_branch; simpl; lia.
Qed.

Lemma aiGeneratorMeta_bound patterns html :
  scoreSignals (aiGeneratorMeta patterns html) <= 10 /\
  (length (aiGeneratorMeta patterns html) <= 1)%nat.
Proof.
  induction patterns as [|pat rest IH]; simpl.
  - change (scoreSignals []) with 0. lia.
  - destruct (regexpExec _ _ _); [|exact IH].
    rewrite scoreSignals_single, weightOf_high by reflexivity.
    unfold CATEGORY_CAP. simpl length. lia.
Qed.

Lemma scoreSignals_concat_le (pieces : list (list Signal)) :
  scoreSignals (concat pieces) <= sumZ (scoreSignals <$> pieces).
Proof.
  induction pieces as [|p pieces IH]; [reflexivity|].
  rewrite fmap_cons, sumZ_cons. simpl concat.
  destruct (scoreSignals_app_bounds p (concat pieces)) as (_ & _ & Hle & _). lia.
Qed.

Lemma aiHeuristics_range html jsSource headers finalUrl :
  0 <= scoreSignals (aiHeuristics html jsSource headers finalUrl) <= 67 /\
  (length (aiHeuristics html jsSource headers finalUrl) <= 11)%nat.
Proof.
  unfold aiHeuristics. cbv zeta.
  set (host := extractHostname finalUrl).
  set (full := html +:+ nl +:+ jsSource).
  pose proof (overCommenter_bound full) as [S1 L1].
  pose proof (shadcnUi_bound full) as [S2 L2].
  pose proof (tailwindStack_bound full) as [S3 L3].
  pose proof (viteBuild_bound html) as [S4 L4].
  pose proof (lucideIcons_bound full) as [S5 L5].
  pose proof (interFontSignal_bound html full) as [S6 L6].
  pose proof (placeholderLinks_bound html) as [S7 L7].
  pose proof (genericNaming_bound html) as [S8 L8].
  pose proof (hosting_bound headers host) as [S9 L9].
  pose proof (aiGeneratorMeta_bound AI_GENERATOR_META_PATTERNS html) as [S10 L10].
  split; [split; [apply scoreSignals_nonneg|]|].
  - match goal with
    | |- scoreSignals (?p1 ++ ?p2 ++ ?p3 ++ ?p4 ++ ?p5 ++ ?p6 ++ ?p7 ++ ?p8 ++ ?p9 ++ ?p10 ++ ?p11)
         <= _ =>
        assert (p1 ++ p2 ++ p3 ++ p4 ++ p5 ++ p6 ++ p7 ++ p8 ++ p9 ++ p10 ++ p11
                = concat [p1; p2; p3; p4; p5; p6; p7; p8; p9; p10; p11]) as ->
          by (simpl; rewrite app_nil_r; reflexivity)
    end.
    etransitivity; [apply scoreSignals_concat_le|].
    rewrite !fmap_cons, fmap_nil, !sumZ_cons. change (sumZ []) with 0. lia.
  - rewrite !length_app. lia.
Qed.

(** The prototype-hosting signal and a hosting-header signal never come
    together: the first needs a prototype host, the second a host that is
    none. *)
Lemma aiHeuristics_hosting_exclusive html jsSource headers finalUrl (a b : Signal) :
  a ∈ aiHeuristics html jsSource headers finalUrl ->
  b ∈ aiHeuristics html jsSource headers finalUrl ->
  category a = "prototype_hosting" -> category b ≠ "hosting_platform".
Proof.
  intros Ha Hb Hca Hcb.
  apply aiHeuristics_hosting_platform in Hb; [|exact Hcb].
  assert (Hhost : isPrototypeHost (extractHostname finalUrl) = false).
  { apply hostingPlatform_elem in Hb.
    destruct Hb as [(_ & _ & H)|(_ & _ & H)]; exact H. }
  unfold aiHeuristics in Ha. cbv zeta in Ha. rewrite !elem_of_app in Ha.
  repeat match type of Ha with
         | _ \/ _ => destruct Ha as [Ha|Ha]
         end;
    [ apply (allOfCategory_elem _ _ _ (overCommenter_category _)) in Ha
    | apply (allOfCategory_elem _ _ _ (shadcnUi_category _)) in Ha
    | apply (allOfCategory_elem _ _ _ (tailwindStack_category _)) in Ha
    | apply (allOfCategory_elem _ _ _ (viteBuild_category _)) in Ha
    | apply (allOfCategory_elem _ _ _ (lucideIcons_category _)) in Ha
    | apply (allOfCategory_elem _ _ _ (interFontSignal_category _ _)) in Ha
    | apply (allOfCategory_elem _ _ _ (placeholderLinks_category _)) in Ha
    | apply (allOfCategory_elem _ _ _ (genericNaming_category _)) in Ha
    | unfold prototypeHosting in Ha; rewrite Hhost in Ha; now apply elem_of_nil in Ha
    | apply hostingPlatform_elem in Ha;
      destruct Ha as [(-> & _)|(-> & _)]; discriminate Hca
    | apply (allOfCategory_elem _ _ _ (aiGeneratorMeta_category _ _)) in Ha ];
    rewrite Ha in Hca; discriminate Hca.
Qed.

(** X10: the AI heuristic extractor emits at most 11 signals and its score is
    between 0 and 67, so the AI score and the AI signals of every result are
    within these bounds; and no result carries the prototype-hosting signal
    together with a hosting-header signal. *)
Theorem ai_score_in_range (net : Network) (rawUrl : string) :
  let r := detectUrl net rawUrl in
  0 <= aiScore r <= 67 /\ (length (aiSignals r) <= 11)%nat /\
  (forall a b : Signal,
     a ∈ aiSignals r -> b ∈ aiSignals r ->
     category a = "prototype_hosting" -> category b ≠ "hosting_platform").
Proof.
  intros r. subst r.
  destruct (fetchFailed (pageState net rawUrl)) as [message|] eqn:Hf.
  - unfold detectUrl. cbv zeta. fold (pageState net rawUrl). rewrite Hf. simpl.
    split; [lia|]. split; [lia|]. intros a b Ha. now apply elem_of_nil in Ha.
  - destruct (detectUrl_fetched net rawUrl Hf) as (_ & -> & -> & _).
    unfold aiSignalsOf, detectAiHeuristics.
    destruct (aiHeuristics_range (st_html (pageState net rawUrl))
                (fetchJsSource net (st_html (pageState net rawUrl))
                   (st_finalUrl (pageState net rawUrl)))
                (st_responseHeaders (pageState net rawUrl))
                (st_finalUrl (pageState net rawUrl))) as [Hscore Hlen].
    split; [exact Hscore|]. split; [exact Hlen|].
    intros a b. apply aiHeuristics_hosting_exclusive.
Qed.

End AiRange.

(* ------------------------------------------------------------------ *)
(** ** The bucket and its confidence *)

Section BucketConfidence.

Context {rt : JsRuntime}.

Ltac table_goal :=
  repeat split; intros;
  repeat match goal with
         | H : _ /\ _ |- _ => destruct H
         | H : _ \/ _ |- _ => destruct H
         end;
  try discriminate; try congruence; try lia; auto.

(** The two scores [detectUrl] labels are integers within the checked range. *)
Lemma page_scores_in_range (net : Network) (st : FetchState) :
  0 <= (bestPlatformEntry (platformScan st).1).2 <= 180 /\
  0 <= scoreSignals
         (detectAiHeuristics net (st_html st) (st_responseHeaders st) (st_finalUrl st))
    <= 67.
Proof.
  split.
  - destruct (bestPlatformEntry_of_page st) as (p & fp & _ & Hbest & _).
    rewrite Hbest. cbn [snd]. apply detectPlatform_score_range.
  - unfold detectAiHeuristics. apply aiHeuristics_range.
Qed.

(** X6: the bucket as a function of the error field, the best score of the
    table and the AI score; and the confidence is [none] exactly for the
    buckets [unknown] and [no_ai_signals]. *)
Theorem bucket_decision_table (net : Network) (rawUrl : string) :
  let r := detectUrl net rawUrl in
  let best := (bestPlatformEntry (allPlatformScores r)).2 in
  (bucket r = unknown <-> error r ≠ None) /\
  (bucket r = platform_assisted <-> error r = None /\ 5 <= best) /\
  (bucket r = ai_assisted <-> error r = None /\ best < 5 /\ 10 <= aiScore r) /\
  (bucket r = no_ai_signals <-> error r = None /\ best < 5 /\ aiScore r < 10) /\
  (bucketConfidence r = none <-> bucket r = unknown \/ bucket r = no_ai_signals).
Proof.
  cbv zeta.
  pose proof (page_scores_in_range net (primaryFetch net (normalizeUrl rawUrl)))
    as [Hbest Hai].
  unfold platformScan in Hbest. unfold detectUrl. cbv zeta.
  set (st := primaryFetch net (normalizeUrl rawUrl)) in *.
  set (scan := scanFingerprints FINGERPRINTS _ _ _) in *.
  set (ai := detectAiHeuristics net _ _ _) in *.
  set (total := scoreSignals ai) in *.
  clearbody total ai scan st.
  set (best := (bestPlatformEntry scan.1).2) in *.
  destruct (fetchFailed st) as [message|];
    cbn [bucket bucketConfidence error allPlatformScores aiScore]; fold best.
  - table_goal.
  - unfold MIN_PLATFORM_SCORE, MIN_AI_SCORE.
    destruct (Z.leb_spec 5 best) as [Hp|Hp];
      cbn [bucket bucketConfidence error allPlatformScores aiScore]; fold best.
    + rewrite confidenceLabel_on_integers by lia. unfold labelBands.
      destruct (Z.leb_spec (3 * 5) best);
        [|destruct (Z.leb_spec (3 * 5) (2 * best));
          [|destruct (Z.leb_spec 5 best)]];
        table_goal.
    + destruct (Z.leb_spec 10 total) as [Ha|Ha];
        cbn [bucket bucketConfidence error allPlatformScores aiScore]; fold best.
      * rewrite confidenceLabel_on_integers by lia. unfold labelBands.
        destruct (Z.leb_spec (3 * 10) total);
          [|destruct (Z.leb_spec (3 * 10) (2 * total));
            [|destruct (Z.leb_spec 10 total)]];
          table_goal.
      * table_goal.
Qed.

(** X7: the confidence of a platform-assisted result is [low] for a platform
    score of 5 to 7, [medium] for 8 to 14 and [high] from 15; the confidence
    of an AI-assisted result is [low] for an AI score of 10 to 14, [medium]
    for 15 to 29 and [high] from 30. *)
Theorem bucket_confidence_bands (net : Network) (rawUrl : string) :
  let r := detectUrl net rawUrl in
  (bucket r = platform_assisted ->
   (bucketConfidence r = low <-> 5 <= platformScore r <= 7) /\
   (bucketConfidence r = medium <-> 8 <= platformScore r <= 14) /\
   (bucketConfidence r = high <-> 15 <= platformScore r)) /\
  (bucket r = ai_assisted ->
   (bucketConfidence r = low <-> 10 <= aiScore r <= 14) /\
   (bucketConfidence r = medium <-> 15 <= aiScore r <= 29) /\
   (bucketConfidence r = high <-> 30 <= aiScore r)).
Proof.
  cbv zeta.
  pose proof (page_scores_in_range net (primaryFetch net (normalizeUrl rawUrl)))
    as [Hbest Hai].
  unfold platformScan in Hbest. unfold detectUrl. cbv zeta.
  set (st := primaryFetch net (normalizeUrl rawUrl)) in *.
  set (scan := scanFingerprints FINGERPRINTS _ _ _) in *.
  set (ai := detectAiHeuristics net _ _ _) in *.
  set (total := scoreSignals ai) in *.
  set (best := (bestPlatformEntry scan.1).2) in *.
  clearbody best total ai scan st.
  destruct (fetchFailed st) as [message|];
    cbn [bucket bucketConfidence platformScore aiScore]; [split; discriminate|].
  unfold MIN_PLATFORM_SCORE, MIN_AI_SCORE.
  destruct (5 <=? best) eqn:Hp; cbn [bucket bucketConfidence platformScore aiScore].
  - apply Z.leb_le in Hp. split; [intros _|discriminate].
    rewrite confidenceLabel_on_integers by lia. unfold labelBands.
    destruct (Z.leb_spec (3 * 5) best);
      [|destruct (Z.leb_spec (3 * 5) (2 * best));
        [|destruct (Z.leb_spec 5 best)]];
      repeat split; intros; try discriminate; try lia.
  - destruct (10 <=? total) eqn:Ha; cbn [bucket bucketConfidence platformScore aiScore];
      [|split; discriminate].
    apply Z.leb_le in Ha. split; [discriminate|intros _].
    rewrite confidenceLabel_on_integers by lia. unfold labelBands.
    destruct (Z.leb_spec (3 * 10) total);
      [|destruct (Z.leb_spec (3 * 10) (2 * total));
        [|destruct (Z.leb_spec 10 total)]];
      repeat split; intros; try discriminate; try lia.
Qed.

End BucketConfidence.

(* ------------------------------------------------------------------ *)
(** ** Strings, URLs and headers *)
(* ------------------------------------------------------------------ *)

Lemma lowerChar_idempotent (c : ascii) : lowerChar (lowerChar c) = lowerChar c.
Proof. destruct c as [[] [] [] [] [] [] [] []]; reflexivity. Qed.

Lemma toLowerCase_idempotent (s : string) : toLowerCase (toLowerCase s) = toLowerCase s.
Proof.
  induction s as [|c s IH]; simpl; [reflexivity|].
  rewrite lowerChar_idempotent, IH. reflexivity.
Qed.

Lemma trimStart_idempotent (s : string) : trimStart (trimStart s) = trimStart s.
Proof.
  induction s as [|c s IH]; simpl; [reflexivity|].
  destruct (isSpace c) eqn:E; [exact IH|]. simpl. rewrite E. reflexivity.
Qed.

Lemma trimEnd_nonspace (c : ascii) (s : string) :
  isSpace c = false -> trimEnd (String c s) = String c (trimEnd s).
Proof. intros E. simpl. destruct (trimEnd s); [rewrite E|]; reflexivity. Qed.

Lemma trimEnd_idempotent (s : string) : trimEnd (trimEnd s) = trimEnd s.
Proof.
  induction s as [|c s IH]; simpl; [reflexivity|].
  destruct (trimEnd s) as [|c' r] eqn:E.
  - destruct (isSpace c) eqn:Ec; simpl; [reflexivity|]. rewrite Ec. reflexivity.
  - simpl in IH |- *. rewrite IH. reflexivity.
Qed.

(** A string that starts with a character that is no space keeps it under
    [trimEnd]. *)
Lemma trimStart_trimEnd (s : string) :
  trimStart s = s -> trimStart (trimEnd s) = trimEnd s.
Proof.
  destruct s as [|c s]; [reflexivity|].
  simpl trimStart at 1. destruct (isSpace c) eqn:E.
  - intros H. exfalso.
    assert (forall t, String.length (trimStart t) <= String.length t)%nat as Hlen.
    { induction t as [|a t IHt]; simpl; [lia|]. destruct (isSpace a); simpl; lia. }
    specialize (Hlen s). rewrite H in Hlen. simpl in Hlen. lia.
  - intros _. rewrite (trimEnd_nonspace c s E). simpl. rewrite E. reflexivity.
Qed.

Lemma trim_idempotent (s : string) : trim (trim s) = trim s.
Proof.
  unfold trim.
  rewrite (trimStart_trimEnd (trimStart s)) by apply trimStart_idempotent.
  apply trimEnd_idempotent.
Qed.

Lemma trim_https (u : string) : trim u = u -> trim ("https://" +:+ u) = "https://" +:+ u.
Proof.
  intros Hu. unfold trim.
  change ("https://" +:+ u)
    with (String "h" (String "t" (String "t" (String "p" (String "s"
            (String ":" (String "/" (String "/" u)))))))).
  simpl trimStart.
  rewrite !trimEnd_nonspace by reflexivity.
  do 8 f_equal.
  unfold trim in Hu.
  assert (trimStart u = u) as Hs.
  { rewrite <- Hu at 1. rewrite <- Hu at 2.
    apply trimStart_trimEnd, trimStart_idempotent. }
  rewrite Hs in Hu. exact Hu.
Qed.

Lemma startsWith_append (p s : string) : startsWith (p +:+ s) p = true.
Proof.
  unfold startsWith. induction p as [|c p IH]; simpl.
  - destruct s; reflexivity.
  - change (String c p +:+ s) with (String c (p +:+ s)). simpl.
    destruct (ascii_dec c c); [exact IH|contradiction].
Qed.

(** X11: the URL [detectUrl] requests always starts with [http://] or
    [https://]; a raw URL that has one of the two schemes is only trimmed;
    and normalizing twice is normalizing once. *)
Theorem normalizeUrl_scheme (rawUrl : string) :
  (startsWith (normalizeUrl rawUrl) "http://" = true \/
   startsWith (normalizeUrl rawUrl) "https://" = true) /\
  (startsWith (trim rawUrl) "http://" = true \/ startsWith (trim rawUrl) "https://" = true ->
   normalizeUrl rawUrl = trim rawUrl) /\
  normalizeUrl (normalizeUrl rawUrl) = normalizeUrl rawUrl.
Proof.
  unfold normalizeUrl. cbv zeta.
  destruct (startsWith (trim rawUrl) "http://") eqn:E1;
    [|destruct (startsWith (trim rawUrl) "https://") eqn:E2]; simpl.
  - split; [left; exact E1|]. split; [reflexivity|].
    rewrite trim_idempotent, E1. reflexivity.
  - split; [right; exact E2|]. split; [reflexivity|].
    rewrite trim_idempotent, E1, E2. reflexivity.
  - split; [right; apply startsWith_append|]. split; [intros [H|H]; discriminate H|].
    rewrite (trim_https (trim rawUrl)) by apply trim_idempotent.
    rewrite startsWith_append.
    change (startsWith ("https://" +:+ trim rawUrl) "http://") with false.
    reflexivity.
Qed.

Section Hostname.

Context {rt : JsRuntime}.

(** X13: the hostname the detectors match against is in lower case, whether
    the URL parses or the whole URL stands in for the hostname; and the
    bundle text the AI extractor reads is at most 300000 characters long. *)
Theorem extractHostname_lower_and_bundle_bounded
    (net : Network) (html finalUrl : string) :
  toLowerCase (extractHostname finalUrl) = extractHostname finalUrl /\
  (N.of_nat (String.length (fetchJsSource net html finalUrl)) <= 300000)%N.
Proof.
  split.
  - unfold extractHostname. destruct (urlHostname finalUrl); apply toLowerCase_idempotent.
  - unfold fetchJsSource.
    assert (N.of_nat (String.length "") <= 300000)%N as Hempty by (simpl; lia).
    destruct (regexpExec BUNDLE_SRC_PATTERN "i" html) as [m|]; [|exact Hempty].
    cbv zeta.
    destruct (if startsWith (group1 m) "http" then Some (group1 m)
              else urlResolve (group1 m) finalUrl) as [jsUrl|]; [|exact Hempty].
    destruct (fetchScript net jsUrl) as [body|]; [|exact Hempty].
    pose proof (length_sliceTo body JS_SOURCE_LIMIT) as H. unfold JS_SOURCE_LIMIT in *. lia.
Qed.

(** When no script request succeeds the AI extractor works on the page
    alone. *)
Lemma detectAiHeuristics_without_bundle (net : Network) html headers finalUrl :
  (forall u, fetchScript net u = None) ->
  detectAiHeuristics net html headers finalUrl = aiHeuristics html "" headers finalUrl.
Proof.
  intros Hnone. unfold detectAiHeuristics, fetchJsSource.
  destruct (regexpExec BUNDLE_SRC_PATTERN "i" html) as [m|]; [|reflexivity].
  cbv zeta.
  destruct (if startsWith (group1 m) "http" then Some (group1 m)
            else urlResolve (group1 m) finalUrl) as [jsUrl|]; [|reflexivity].
  rewrite Hnone. reflexivity.
Qed.

End Hostname.

(* ------------------------------------------------------------------ *)
(** ** The signals of a result are well formed *)
(* ------------------------------------------------------------------ *)

Lemma FINGERPRINTS_tiered : forallb (fun entry => fingerprintTiered entry.2) FINGERPRINTS = true.
Proof. vm_compute. reflexivity. Qed.

Lemma FINGERPRINTS_tiered_elem p fp : (p, fp) ∈ FINGERPRINTS -> fingerprintTiered fp = true.
Proof.
  intros Hin. pose proof FINGERPRINTS_tiered as H.
  rewrite forallb_forall in H. apply (H (p, fp)). apply list_elem_of_In. exact Hin.
Qed.

Lemma tiered_flat_map (patterns : list PatternEntry) (f : PatternEntry -> list Signal) :
  groupTiered (Some patterns) = true ->
  (forall pat conf desc,
     Forall (fun sig => confidence sig = conf) (f (pat, conf, desc))) ->
  tiered (flat_map f patterns).
Proof.
  unfold tiered. simpl. intros Hv Hf.
  induction patterns as [|[[pat conf] desc] rest IH]; simpl; [constructor|].
  simpl in Hv. apply andb_true_iff in Hv as [Hc Hrest].
  apply Forall_app. split; [|apply IH; exact Hrest].
  apply bool_decide_eq_true_1 in Hc. simpl in Hc.
  eapply Forall_impl; [apply Hf|]. intros sig ->. exact Hc.
Qed.

Lemma whenPresent_tiered group (k : list PatternEntry -> list Signal) :
  (forall patterns, group = Some patterns -> tiered (k patterns)) ->
  tiered (whenPresent group k).
Proof. intros Hk. destruct group; simpl; [apply Hk; reflexivity|constructor]. Qed.

Section WellFormed.

Context {rt : JsRuntime}.

Lemma matchAll_tiered html patterns cat :
  groupTiered (Some patterns) = true -> tiered (matchAll html patterns cat).
Proof.
  intros Hv. unfold matchAll. apply tiered_flat_map; [exact Hv|].
  intros pat conf desc. destruct (regexpExec pat "is" html); no_or_one_signal ltac:(reflexivity).
Qed.

Lemma firstUrlMatch_tiered src patterns cat :
  groupTiered (Some patterns) = true -> tiered (firstUrlMatch src patterns cat).
Proof.
  unfold tiered. simpl.
  induction patterns as [|[[pat conf] desc] rest IH]; simpl; [constructor|].
  intros Hv. apply andb_true_iff in Hv as [Hc Hrest].
  destruct (regexpTest pat "i" src); [|apply IH; exact Hrest].
  apply Forall_singleton. apply bool_decide_eq_true_1 in Hc. exact Hc.
Qed.

Lemma matchTagSrcs_tiered html tagPattern patterns cat :
  groupTiered (Some patterns) = true -> tiered (matchTagSrcs html tagPattern patterns cat).
Proof.
  intros Hv. unfold matchTagSrcs. apply Forall_flat_map.
  intros m. apply firstUrlMatch_tiered. exact Hv.
Qed.

Ltac tier := unfold CONFIDENCE_TIERS; simpl; set_solver.

Lemma detectPlatform_tiered platformName fp html headers finalUrl :
  fingerprintTiered fp = true ->
  tiered (detectPlatform platformName fp html headers finalUrl).
Proof.
  unfold fingerprintTiered. simpl forallb. rewrite !andb_true_iff.
  intros (Hhost & Hhdr & Hmeta & Hcomment & Hdata & Hclass & Hvar & Hjs & Hdom & Hscript
          & Hsrc & Hhref & Himg & Hfont & _).
  unfold detectPlatform. cbv zeta. unfold tiered. split_concat.
  - apply whenPresent_tiered. intros patterns E. rewrite E in Hhost.
    apply tiered_flat_map; [exact Hhost|].
    intros pat conf desc. each_branch; no_or_one_signal ltac:(reflexivity).
  - apply whenPresent_tiered. intros patterns E. rewrite E in Hhdr.
    apply tiered_flat_map; [exact Hhdr|].
    intros pat conf desc. each_branch; no_or_one_signal ltac:(reflexivity).
  - destruct (String.eqb platformName "Wix"); [|apply Forall_nil_2].
    apply Forall_app. split; each_branch; no_or_one_signal ltac:(tier).
  - each_branch; no_or_one_signal ltac:(tier).
  - unfold htmlCategories. simpl flat_map. rewrite app_nil_r. split_concat;
      (apply whenPresent_tiered; intros patterns E; apply matchAll_tiered;
       rewrite <- E; assumption).
  - apply whenPresent_tiered. intros patterns E. apply matchTagSrcs_tiered.
    rewrite <- E. assumption.
  - apply whenPresent_tiered. intros patterns E. apply matchTagSrcs_tiered.
    rewrite <- E. assumption.
  - apply whenPresent_tiered. intros patterns E. apply matchTagSrcs_tiered.
    rewrite <- E. assumption.
Qed.

Lemma aiGeneratorMeta_tiered patterns html : tiered (aiGeneratorMeta patterns html).
Proof.
  unfold tiered. induction patterns as [|pat rest IH]; simpl; [constructor|].
  destruct (regexpExec _ _ _); [|exact IH]. no_or_one_signal ltac:(tier).
Qed.

Lemma aiHeuristics_tiered html jsSource headers finalUrl :
  tiered (aiHeuristics html jsSource headers finalUrl).
Proof.
  unfold aiHeuristics, tiered. cbv zeta. split_concat.
  - unfold overCommenter. cbv zeta. each_branch; no_or_one_signal ltac:(tier).
  - unfold shadcnUi. cbv zeta. each_branch; no_or_one_signal ltac:(tier).
  - unfold tailwindStack. cbv zeta. each_branch; no_or_one_signal ltac:(tier).
  - unfold viteBuild. cbv zeta.
    destruct (1 <=? _)%nat; [|apply Forall_nil_2].
    destruct (existsb _ _); no_or_one_signal ltac:(tier).
  - unfold lucideIcons. cbv zeta. each_branch; no_or_one_signal ltac:(tier).
  - unfold interFontSignal. cbv zeta. each_branch; no_or_one_signal ltac:(tier).
  - unfold placeholderLinks. cbv zeta. each_branch; no_or_one_signal ltac:(tier).
  - unfold genericNaming. cbv zeta. each_branch; no_or_one_signal ltac:(tier).
  - unfold prototypeHosting. each_branch; no_or_one_signal ltac:(tier).
  - unfold hostingPlatform. cbv zeta. apply Forall_app.
    split; each_branch; no_or_one_signal ltac:(tier).
  - apply aiGeneratorMeta_tiered.
Qed.

Ltac ai_category := unfold AI_CATEGORIES; simpl; set_solver.

Lemma aiHeuristics_categories html jsSource headers finalUrl :
  categoriesAmong AI_CATEGORIES (aiHeuristics html jsSource headers finalUrl).
Proof.
  unfold aiHeuristics, categoriesAmong. cbv zeta. split_concat.
  - eapply allOfCategory_among; [|apply overCommenter_category]. ai_category.
  - eapply allOfCategory_among; [|apply shadcnUi_category]. ai_category.
  - eapply allOfCategory_among; [|apply tailwindStack_category]. ai_category.
  - eapply allOfCategory_among; [|apply viteBuild_category]. ai_category.
  - eapply allOfCategory_among; [|apply lucideIcons_category]. ai_category.
  - eapply allOfCategory_among; [|apply interFontSignal_category]. ai_category.
  - eapply allOfCategory_among; [|apply placeholderLinks_category]. ai_category.
  - eapply allOfCategory_among; [|apply genericNaming_category]. ai_category.
  - eapply allOfCategory_among; [|apply prototypeHosting_category]. ai_category.
  - unfold hostingPlatform. cbv zeta. apply Forall_app.
    split; each_branch; no_or_one_signal ltac:(ai_category).
  - eapply allOfCategory_among; [|apply aiGeneratorMeta_category]. ai_category.
Qed.

Lemma Forall_wellFormed cats signals :
  categoriesAmong cats signals -> tiered signals -> Forall (wellFormedSignal cats) signals.
Proof.
  unfold categoriesAmong, tiered, wellFormedSignal. rewrite !Forall_forall.
  intros Hc Ht sig Hin. split; auto.
Qed.

Lemma result_signals_shape (net : Network) (rawUrl : string) :
  Forall (wellFormedSignal PLATFORM_CATEGORIES) (platformSignals (detectUrl net rawUrl)) /\
  Forall (wellFormedSignal AI_CATEGORIES) (aiSignals (detectUrl net rawUrl)).
Proof.
  destruct (fetchFailed (pageState net rawUrl)) as [message|] eqn:Hf.
  - unfold detectUrl. cbv zeta. fold (pageState net rawUrl). rewrite Hf. simpl.
    split; constructor.
  - destruct (detectUrl_fetched net rawUrl Hf) as (_ & Hsigs & _ & _ & Hnot).
    split.
    + destruct (platform (detectUrl net rawUrl)) as [p|] eqn:Hplat.
      * destruct (detectUrl_scores_and_signals net rawUrl) as (_ & _ & Hnamed).
        destruct (Hnamed p Hplat) as (fp & Hin & -> & _).
        apply Forall_wellFormed.
        -- apply detectPlatform_categories.
        -- apply detectPlatform_tiered. exact (FINGERPRINTS_tiered_elem p fp Hin).
      * destruct (Z_lt_le_dec (bestPlatformScoreOf (pageState net rawUrl)) MIN_PLATFORM_SCORE)
          as [Hlt|Hge].
        -- destruct (Hnot Hlt) as (_ & _ & -> & _). constructor.
        -- destruct (detectUrl_fetched net rawUrl Hf) as (_ & _ & _ & Hyes & _).
           destruct (Hyes Hge) as (_ & E & _). rewrite E in Hplat. discriminate Hplat.
    + rewrite Hsigs. unfold aiSignalsOf, detectAiHeuristics.
      apply Forall_wellFormed; [apply aiHeuristics_categories|apply aiHeuristics_tiered].
Qed.

(** X14: every platform signal of a result carries one of the twelve platform
    categories, every AI signal one of the eleven AI categories, and each of
    them one of the confidence tiers high, medium and low, so that its weight
    is 10, 5 or 2 and never the fallback. *)
Theorem result_signals_well_formed (net : Network) (rawUrl : string) :
  let r := detectUrl net rawUrl in
  Forall (wellFormedSignal PLATFORM_CATEGORIES) (platformSignals r) /\
  Forall (wellFormedSignal AI_CATEGORIES) (aiSignals r) /\
  Forall (fun sig => weightOf sig ∈ [10; 5; 2]) (platformSignals r ++ aiSignals r).
Proof.
  intros r. subst r.
  destruct (result_signals_shape net rawUrl) as [Hp Ha].
  split; [exact Hp|]. split; [exact Ha|].
  apply Forall_app. split; (eapply Forall_impl; [eassumption|]);
    intros sig [_ Ht]; unfold CONFIDENCE_TIERS in Ht;
    repeat (apply elem_of_cons in Ht as [Ht|Ht];
            [first [rewrite (weightOf_high _ Ht) | rewrite (weightOf_medium _ Ht)
                   | rewrite (weightOf_low _ Ht)]; set_solver|]);
    apply elem_of_nil in Ht; contradiction.
Qed.


Lemma wellFormed_plain (cats : list string) (sig : Signal) :
  forallb (fun c => negb (inheritedKey c)) cats = true ->
  wellFormedSignal cats sig -> plainSignal sig.
Proof.
  intros Hcats [Hcat Hconf]. split.
  - rewrite forallb_forall in Hcats. apply list_elem_of_In, Hcats in Hcat.
    now apply negb_true_iff in Hcat.
  - unfold CONFIDENCE_TIERS in Hconf.
    repeat (apply elem_of_cons in Hconf as [->|Hconf]; [reflexivity|]).
    now apply elem_of_nil in Hconf.
Qed.

(** The signals the detector emits carry no name of [Object.prototype]: the
    categories are those of the two detectors and the confidence values are
    the three tiers. *)
Lemma detector_signals_plain html headers finalUrl :
  (forall p fp,
     (p, fp) ∈ FINGERPRINTS ->
     Forall plainSignal (detectPlatform p fp html headers finalUrl)) /\
  (forall jsSource, Forall plainSignal (aiHeuristics html jsSource headers finalUrl)).
Proof.
  split.
  - intros p fp Hin.
    eapply Forall_impl;
      [apply (Forall_wellFormed PLATFORM_CATEGORIES);
       [apply detectPlatform_categories
       |apply detectPlatform_tiered; exact (FINGERPRINTS_tiered_elem p fp Hin)]|].
    intros sig. now apply wellFormed_plain.
  - intros jsSource.
    eapply Forall_impl;
      [apply (Forall_wellFormed AI_CATEGORIES);
       [apply aiHeuristics_categories|apply aiHeuristics_tiered]|].
    intros sig. now apply wellFormed_plain.
Qed.

(** X30: every score [detectUrl] computes is a number.  On the signal list
    of every platform of [FINGERPRINTS] and on the list of the AI extractor,
    [scoreSignals] with the inherited properties of its two dictionaries
    returns the integer score and never NaN; the platform score and the AI
    score of a result are the scores of its two signal lists in this sense
    too. *)
Theorem result_scores_are_numbers (net : Network) (rawUrl : string) :
  let st := pageState net rawUrl in
  let r := detectUrl net rawUrl in
  (forall p fp,
     (p, fp) ∈ FINGERPRINTS ->
     let signals := detectPlatform p fp (st_html st) (st_responseHeaders st) (st_finalUrl st) in
     Js.scoreSignals signals = Finite (scoreSignals signals)) /\
  Js.scoreSignals (aiSignalsOf net st) = Finite (scoreSignals (aiSignalsOf net st)) /\
  Js.scoreSignals (platformSignals r) = Finite (platformScore r) /\
  Js.scoreSignals (aiSignals r) = Finite (aiScore r).
Proof.
  cbv zeta.
  destruct (detector_signals_plain (st_html (pageState net rawUrl))
              (st_responseHeaders (pageState net rawUrl))
              (st_finalUrl (pageState net rawUrl))) as [Hplatform Hai].
  destruct (result_signals_shape net rawUrl) as [Hp Ha].
  destruct (detectUrl_scores_and_signals net rawUrl) as (Hps & Has & _).
  split; [intros p fp Hin; apply scoreSignals_plain, Hplatform, Hin|].
  split; [apply scoreSignals_plain, Hai|].
  split.
  - rewrite Hps. apply scoreSignals_plain.
    eapply Forall_impl; [exact Hp|]. intros sig. now apply wellFormed_plain.
  - rewrite Has. apply scoreSignals_plain.
    eapply Forall_impl; [exact Ha|]. intros sig. now apply wellFormed_plain.
Qed.

End WellFormed.

(* ------------------------------------------------------------------ *)
(** ** CSV rows of the batch endpoint *)

Lemma append_cons (c : ascii) (s t : string) : String c s +:+ t = String c (s +:+ t).
Proof. reflexivity. Qed.

Lemma append_nil_r (s : string) : s +:+ "" = s.
Proof. induction s as [|c s IH]; [reflexivity|]. now rewrite append_cons, IH. Qed.

Lemma append_assoc (a b c : string) : (a +:+ b) +:+ c = a +:+ (b +:+ c).
Proof. induction a as [|x a IH]; [reflexivity|]. now rewrite !append_cons, IH. Qed.

Lemma append_char (cur : string) (c : ascii) (v : string) :
  (cur +:+ String c "") +:+ v = cur +:+ String c v.
Proof. now rewrite append_assoc. Qed.

Lemma includes_char (c d : ascii) (s : string) :
  includes (String c s) (String d "") = Ascii.eqb c d || includes s (String d "").
Proof.
  cbn [includes String.prefix]. f_equal.
  destruct (Ascii.ascii_dec d c) as [->|Hne].
  - rewrite Ascii.eqb_refl. now destruct s.
  - symmetry. apply Ascii.eqb_neq. congruence.
Qed.

Lemma splitCSVRowFrom_open_quote (rest : string) fields cur :
  splitCSVRowFrom (String "034" rest) fields cur false
  = splitCSVRowFrom rest fields cur true.
Proof. now destruct rest. Qed.

Lemma splitCSVRowFrom_comma (rest : string) fields cur :
  splitCSVRowFrom (String "," rest) fields cur false
  = splitCSVRowFrom rest (fields ++ [trim cur]) "" false.
Proof. reflexivity. Qed.

Lemma splitCSVRowFrom_plain_char (c : ascii) (rest : string) fields cur inQuotes :
  Ascii.eqb c "034" = false ->
  Ascii.eqb c "," && negb inQuotes = false ->
  splitCSVRowFrom (String c rest) fields cur inQuotes
  = splitCSVRowFrom rest fields (cur +:+ String c "") inQuotes.
Proof. intros Hq Hc. cbn [splitCSVRowFrom]. now rewrite Hq, Hc. Qed.

Lemma splitCSVRowFrom_close_quote (tail : string) fields cur :
  notQuoteNext tail ->
  splitCSVRowFrom (String "034" tail) fields cur true
  = splitCSVRowFrom tail fields cur false.
Proof.
  destruct tail as [|n tail]; [reflexivity|]. intros Htail. cbn in Htail.
  change (splitCSVRowFrom (String "034" (String n tail)) fields cur true)
    with (if true && Ascii.eqb n "034"
          then splitCSVRowFrom tail fields (cur +:+ dq) true
          else splitCSVRowFrom (String n tail) fields cur false).
  now rewrite Htail.
Qed.

Lemma splitCSVRowFrom_escaped_quote (rest : string) fields cur :
  splitCSVRowFrom (String "034" (String "034" rest)) fields cur true
  = splitCSVRowFrom rest fields (cur +:+ dq) true.
Proof. reflexivity. Qed.

Lemma splitCSVRowFrom_unquoted (v tail : string) fields cur :
  includes v "," = false -> includes v dq = false ->
  splitCSVRowFrom (v +:+ tail) fields cur false
  = splitCSVRowFrom tail fields (cur +:+ v) false.
Proof.
  revert cur. induction v as [|c v IH]; intros cur Hc Hq.
  - now rewrite append_nil_r.
  - unfold dq in *. rewrite includes_char in Hc, Hq.
    apply orb_false_iff in Hc as [Hc Hc'], Hq as [Hq Hq'].
    change (String c v +:+ tail) with (String c (v +:+ tail)).
    rewrite splitCSVRowFrom_plain_char by (try rewrite Hc; easy).
    rewrite IH by assumption. now rewrite append_char.
Qed.

Lemma splitCSVRowFrom_quoted (v tail : string) fields cur :
  notQuoteNext tail ->
  splitCSVRowFrom (doubleQuotes v +:+ dq +:+ tail) fields cur true
  = splitCSVRowFrom tail fields (cur +:+ v) false.
Proof.
  intros Htail. revert cur. induction v as [|c v IH]; intros cur.
  - rewrite append_nil_r. now apply splitCSVRowFrom_close_quote.
  - cbn [doubleQuotes]. destruct (Ascii.eqb c "034") eqn:Hq.
    + apply Ascii.eqb_eq in Hq as ->. rewrite !append_cons.
      rewrite splitCSVRowFrom_escaped_quote, IH. unfold dq. now rewrite append_char.
    + change (String c (doubleQuotes v) +:+ dq +:+ tail)
        with (String c (doubleQuotes v +:+ dq +:+ tail)).
      rewrite splitCSVRowFrom_plain_char by (try rewrite andb_false_r; easy).
      rewrite IH. now rewrite append_char.
Qed.

Lemma splitCSVRowFrom_csvEscape (v tail : string) fields cur :
  notQuoteNext tail ->
  splitCSVRowFrom (csvEscape v +:+ tail) fields cur false
  = splitCSVRowFrom tail fields (cur +:+ v) false.
Proof.
  intros Htail. unfold csvEscape.
  destruct (includes v ",") eqn:Hc; [|destruct (includes v dq) eqn:Hq].
  1,2: cbn [orb]; rewrite !append_assoc;
       change (dq +:+ ?s) with (String "034" s);
       rewrite splitCSVRowFrom_open_quote;
       change (String "034" tail) with (dq +:+ tail);
       now apply splitCSVRowFrom_quoted.
  cbn [orb]. destruct (includes v nl).
  - rewrite !append_assoc. change (dq +:+ ?s) with (String "034" s).
    rewrite splitCSVRowFrom_open_quote.
    change (String "034" tail) with (dq +:+ tail).
    now apply splitCSVRowFrom_quoted.
  - now apply splitCSVRowFrom_unquoted.
Qed.

Lemma splitCSVRowFrom_joined (v : string) (vs fields : list string) :
  splitCSVRowFrom (joinWith "," (csvEscape <$> v :: vs)) fields "" false
  = fields ++ (trim <$> v :: vs).
Proof.
  revert v fields. induction vs as [|v2 vs IH]; intros v fields.
  - cbn [fmap list_fmap joinWith].
    rewrite <- (append_nil_r (csvEscape v)).
    now rewrite splitCSVRowFrom_csvEscape.
  - change (joinWith "," (csvEscape <$> v :: v2 :: vs))
      with (csvEscape v +:+ "," +:+ joinWith "," (csvEscape <$> v2 :: vs)).
    rewrite splitCSVRowFrom_csvEscape by reflexivity.
    change ("," +:+ ?s) with (String "," s).
    rewrite splitCSVRowFrom_comma, IH.
    rewrite <- app_assoc. reflexivity.
Qed.

(** X15. A line written by the endpoint is read back by its own reader:
    for every non-empty list of values, joining their [csvEscape] forms with
    commas and splitting the line with [splitCSVRow] gives the values back,
    each one trimmed, whatever commas, quotes and line breaks they hold. *)
Theorem splitCSVRow_reads_back_csvEscape (v : string) (vs : list string) :
  splitCSVRow (joinWith "," (csvEscape <$> v :: vs)) = trim <$> v :: vs.
Proof. unfold splitCSVRow. now rewrite splitCSVRowFrom_joined. Qed.
Lemma splitOn_nonempty (sep : ascii) (s : string) :
  exists part parts, splitOn sep s = part :: parts.
Proof.
  induction s as [|c s (p & ps & IH)]; cbn [splitOn]; [eauto|].
  destruct (Ascii.eqb c sep); [eauto|]. rewrite IH. eauto.
Qed.

Lemma splitCSVRowFrom_no_quotes (line : string) fields cur :
  includes line dq = false ->
  splitCSVRowFrom line fields cur false
  = fields ++ match splitOn "," line with
              | part :: parts => trim (cur +:+ part) :: (trim <$> parts)
              | [] => []
              end.
Proof.
  revert fields cur. induction line as [|c line IH]; intros fields cur Hq.
  - cbn. now rewrite append_nil_r.
  - unfold dq in *. rewrite includes_char in Hq.
    apply orb_false_iff in Hq as [Hq Hq'].
    cbn [splitOn]. destruct (Ascii.eqb c ",") eqn:Hc.
    + apply Ascii.eqb_eq in Hc as ->.
      rewrite splitCSVRowFrom_comma, IH by assumption.
      destruct (splitOn_nonempty "," line) as (p & ps & ->).
      rewrite append_nil_r, <- app_assoc. reflexivity.
    + rewrite splitCSVRowFrom_plain_char by (try rewrite Hc; easy).
      rewrite IH by assumption.
      destruct (splitOn_nonempty "," line) as (p & ps & ->).
      now rewrite append_char.
Qed.

Lemma splitCSVRowFrom_extends (n : nat) :
  forall line, (String.length line <= n)%nat ->
  forall fields cur inQuotes,
  exists more,
    splitCSVRowFrom line fields cur inQuotes = fields ++ more /\
    more <> [] /\ Forall trimmed more.
Proof.
  assert (Hlast : forall fields cur, exists more,
             fields ++ [trim cur] = fields ++ more /\ more <> [] /\ Forall trimmed more).
  { intros fields cur. exists [trim cur]. split; [reflexivity|]. split; [easy|].
    apply Forall_singleton, trim_idempotent. }
  assert (Hpush : forall (rest : string) fields cur q,
             (exists more, splitCSVRowFrom rest (fields ++ [trim cur]) "" q
                           = (fields ++ [trim cur]) ++ more /\
                           more <> [] /\ Forall trimmed more) ->
             exists more, splitCSVRowFrom rest (fields ++ [trim cur]) "" q
                          = fields ++ more /\ more <> [] /\ Forall trimmed more).
  { intros rest fields cur q (more & -> & Hne & Hall).
    exists (trim cur :: more). rewrite <- app_assoc. split; [reflexivity|].
    split; [easy|]. constructor; [apply trim_idempotent|exact Hall]. }
  induction n as [|n IH]; intros line Hlen fields cur inQuotes.
  - destruct line; [apply Hlast|cbn in Hlen; lia].
  - destruct line as [|ch rest]; [apply Hlast|]. cbn in Hlen.
    cbn [splitCSVRowFrom]. destruct (Ascii.eqb ch "034").
    + destruct rest as [|next rest']; [apply Hlast|].
      destruct (inQuotes && Ascii.eqb next "034").
      * apply IH. cbn in Hlen. lia.
      * apply IH. lia.
    + destruct (Ascii.eqb ch "," && negb inQuotes).
      * apply Hpush, IH. lia.
      * apply IH. lia.
Qed.

(** X16. [splitCSVRow] always returns at least one field, and every field it
    returns is trimmed: no field starts or ends with white space. *)
Theorem splitCSVRow_fields_trimmed (line : string) :
  splitCSVRow line <> [] /\ Forall (fun field => trim field = field) (splitCSVRow line).
Proof.
  unfold splitCSVRow.
  destruct (splitCSVRowFrom_extends (String.length line) line (le_n _) [] "" false)
    as (more & -> & Hne & Hall).
  split; assumption.
Qed.

(** X17. On a line without a double quote the reader is a split at the
    commas: [splitCSVRow] returns the pieces between the commas, trimmed. *)
Theorem splitCSVRow_without_quotes (line : string) :
  includes line dq = false ->
  splitCSVRow line = trim <$> splitOn "," line.
Proof.
  intros Hq. unfold splitCSVRow. rewrite splitCSVRowFrom_no_quotes by assumption.
  now destruct (splitOn_nonempty "," line) as (p & ps & ->).
Qed.

Lemma splitCSVRow_without_quotes_example :
  includes "url , name,, x" dq = false /\
  splitCSVRow "url , name,, x" = ["url"; "name"; ""; "x"].
Proof.
  split; [reflexivity|].
  rewrite (splitCSVRow_without_quotes "url , name,, x"); reflexivity.
Defined.
Lemma find_first {A} (f : A -> bool) (l : list A) (x : A) :
  List.find f l = Some x ->
  f x = true /\
  exists before after, l = before ++ x :: after /\ Forall (fun y => f y = false) before.
Proof.
  induction l as [|y l IH]; [discriminate|]. cbn [List.find].
  destruct (f y) eqn:Hy.
  - intros [= ->]. split; [exact Hy|]. exists [], l. split; [reflexivity|constructor].
  - intros Hx. destruct (IH Hx) as (Hfx & before & after & -> & Hall).
    split; [exact Hfx|]. exists (y :: before), after. split; [reflexivity|].
    constructor; assumption.
Qed.

Lemma find_none_Forall {A} (f : A -> bool) (l : list A) :
  List.find f l = None -> Forall (fun y => f y = false) l.
Proof.
  induction l as [|y l IH]; [constructor|]. cbn [List.find].
  destruct (f y) eqn:Hy; [discriminate|]. intros H. constructor; auto.
Qed.

Lemma indexOf_Some (c : string) (headers : list string) (idx : nat) :
  indexOf c (toLowerCase <$> headers) = Some idx ->
  exists before column after,
    headers = before ++ column :: after /\ length before = idx /\
    toLowerCase column = c /\
    Forall (fun h => toLowerCase h <> c) before.
Proof.
  revert idx. induction headers as [|h headers IH]; intros idx; [discriminate|].
  rewrite fmap_cons. cbn [indexOf]. destruct (String.eqb (toLowerCase h) c) eqn:Hh.
  - intros [= <-]. apply String.eqb_eq in Hh.
    exists [], h, headers. repeat split; [exact Hh|constructor].
  - apply String.eqb_neq in Hh.
    destruct (indexOf c (toLowerCase <$> headers)) as [i|] eqn:Hi; [|discriminate].
    intros [= <-]. destruct (IH i eq_refl) as (before & column & after & -> & Hlen & Hc & Hall).
    exists (h :: before), column, after. repeat split; [cbn; now rewrite Hlen|exact Hc|].
    constructor; assumption.
Qed.

Lemma indexOf_None (c : string) (lower : list string) :
  indexOf c lower = None -> c ∉ lower.
Proof.
  induction lower as [|h lower IH]; [intros _; apply not_elem_of_nil|].
  cbn [indexOf]. destruct (String.eqb h c) eqn:Hh; [discriminate|].
  apply String.eqb_neq in Hh.
  destruct (indexOf c lower); [discriminate|]. intros _.
  apply not_elem_of_cons. split; [congruence|auto].
Qed.

Lemma firstCandidate_Some (candidates headers : list string) (column : string) :
  firstCandidate candidates headers (toLowerCase <$> headers) = Some column ->
  (exists before after,
     headers = before ++ column :: after /\
     Forall (fun h => toLowerCase h <> toLowerCase column) before) /\
  (exists earlier later,
     candidates = earlier ++ toLowerCase column :: later /\
     Forall (fun c => c ∉ toLowerCase <$> headers) earlier).
Proof.
  induction candidates as [|c candidates IH]; [discriminate|]. cbn [firstCandidate].
  destruct (indexOf c (toLowerCase <$> headers)) as [idx|] eqn:Hidx.
  - destruct (indexOf_Some _ _ _ Hidx) as (before & col & after & -> & Hlen & Hc & Hall).
    rewrite lookup_app_r by lia. rewrite <- Hlen, Nat.sub_diag. cbn [lookup list_lookup default].
    intros [= <-]. subst c. split.
    + exists before, after. split; [reflexivity|exact Hall].
    + exists [], candidates. split; [reflexivity|constructor].
  - intros Hrest. destruct (IH Hrest) as (Hfirst & earlier & later & -> & Hall).
    split; [exact Hfirst|].
    exists (c :: earlier), later. split; [reflexivity|].
    constructor; [now apply indexOf_None|exact Hall].
Qed.

Lemma firstCandidate_None (candidates headers : list string) :
  firstCandidate candidates headers (toLowerCase <$> headers) = None ->
  Forall (fun h => toLowerCase h ∉ candidates) headers.
Proof.
  induction candidates as [|c candidates IH].
  - intros _. apply Forall_forall. intros h _. apply not_elem_of_nil.
  - cbn [firstCandidate].
    destruct (indexOf c (toLowerCase <$> headers)) eqn:Hidx; [discriminate|].
    intros Hrest. apply indexOf_None in Hidx. specialize (IH Hrest).
    rewrite Forall_forall in IH |- *. intros h Hh.
    apply not_elem_of_cons. split; [|now apply IH].
    intros Heq. apply Hidx. rewrite <- Heq. now apply list_elem_of_fmap_2.
Qed.

Lemma toLowerCase_truthy (a b : string) :
  toLowerCase a = toLowerCase b -> truthy b = true -> truthy a = true.
Proof. destruct a, b; cbn; congruence. Qed.

Lemma findUrlColumn_cases (headers : list string) (override : string) :
  match findUrlColumn headers override with
  | Returned column =>
      (exists before after,
         headers = before ++ column :: after /\
         Forall (fun h => toLowerCase h <> toLowerCase column) before) /\
      if truthy override then toLowerCase column = toLowerCase override
      else exists earlier later,
             URL_COLUMN_CANDIDATES = earlier ++ toLowerCase column :: later /\
             Forall (fun c => c ∉ toLowerCase <$> headers) earlier
  | Thrown _ =>
      if truthy override
      then Forall (fun h => toLowerCase h <> toLowerCase override) headers
      else Forall (fun h => toLowerCase h ∉ URL_COLUMN_CANDIDATES) headers
  end.
Proof.
  unfold findUrlColumn. destruct (truthy override) eqn:Hov.
  - destruct (List.find _ headers) as [found|] eqn:Hfind.
    + destruct (find_first _ _ _ Hfind) as (Hfound & before & after & -> & Hall).
      apply String.eqb_eq in Hfound.
      rewrite (toLowerCase_truthy _ _ Hfound Hov).
      split; [|exact Hfound]. exists before, after. split; [reflexivity|].
      eapply Forall_impl; [exact Hall|]. cbn. intros h Hh.
      apply String.eqb_neq in Hh. congruence.
    + apply find_none_Forall in Hfind.
      eapply Forall_impl; [exact Hfind|]. cbn. intros h Hh.
      now apply String.eqb_neq in Hh.
  - destruct (firstCandidate _ _ _) as [column|] eqn:Hc.
    + now apply firstCandidate_Some.
    + now apply firstCandidate_None.
Qed.

(** X18. The URL column [findUrlColumn] returns is the first header that is
    equal to it without regard to case.  With an override it is the header
    equal to the override without regard to case, and the function throws
    exactly when no header is; the candidate names are not tried then.
    Without an override it is a header whose lower-case form is in
    [URL_COLUMN_CANDIDATES] and no earlier candidate names a header, and the
    function throws exactly when no header is a candidate. *)
Theorem findUrlColumn_first_match (headers : list string) (override : string) :
  match findUrlColumn headers override with
  | Returned column =>
      (exists before after,
         headers = before ++ column :: after /\
         Forall (fun h => toLowerCase h <> toLowerCase column) before) /\
      if truthy override then toLowerCase column = toLowerCase override
      else exists earlier later,
             URL_COLUMN_CANDIDATES = earlier ++ toLowerCase column :: later /\
             Forall (fun c => c ∉ toLowerCase <$> headers) earlier
  | Thrown _ =>
      if truthy override
      then Forall (fun h => toLowerCase h <> toLowerCase override) headers
      else Forall (fun h => toLowerCase h ∉ URL_COLUMN_CANDIDATES) headers
  end.
Proof. exact (findUrlColumn_cases headers override). Qed.
Lemma objGet_objSet_eq (k v : string) (obj : list (string * string)) :
  objGet k (objSet k v obj) = Some v.
Proof.
  unfold objGet. induction obj as [|[k' v'] obj IH]; cbn.
  - now rewrite String.eqb_refl.
  - destruct (String.eqb k' k) eqn:Hk; cbn.
    + now rewrite String.eqb_refl.
    + now rewrite Hk.
Qed.

Lemma objGet_objSet_ne (k k' v : string) (obj : list (string * string)) :
  k' <> k -> objGet k' (objSet k v obj) = objGet k' obj.
Proof.
  intros Hne. unfold objGet. induction obj as [|[k2 v2] obj IH]; cbn.
  - apply String.eqb_neq in Hne. rewrite String.eqb_sym in Hne. now rewrite Hne.
  - destruct (String.eqb k2 k) eqn:Hk; cbn.
    + apply String.eqb_eq in Hk as ->.
      apply String.eqb_neq in Hne. rewrite String.eqb_sym in Hne. now rewrite Hne.
    + destruct (String.eqb k2 k'); [reflexivity|exact IH].
Qed.

Lemma objGet_is_Some (k : string) (obj : list (string * string)) :
  is_Some (objGet k obj) <-> k ∈ obj.*1.
Proof.
  unfold objGet. induction obj as [|[k' v'] obj IH]; cbn.
  - split; [intros [x Hx]; discriminate|intros H; now apply elem_of_nil in H].
  - destruct (String.eqb k' k) eqn:Hk; cbn.
    + apply String.eqb_eq in Hk as ->. split; [intros _; apply list_elem_of_here|eauto].
    + apply String.eqb_neq in Hk. rewrite IH, elem_of_cons. cbn. intuition congruence.
Qed.

Lemma objGet_elem (k v : string) (obj : list (string * string)) :
  objGet k obj = Some v -> v ∈ obj.*2.
Proof.
  unfold objGet. induction obj as [|[k' v'] obj IH]; cbn; [discriminate|].
  destruct (String.eqb k' k); cbn.
  - intros [= ->]. apply list_elem_of_here.
  - intros H. apply list_elem_of_further, IH, H.
Qed.

Lemma objSet_keys {A} (k : string) (v : A) (obj : list (string * A)) :
  (objSet k v obj).*1 = if decide (k ∈ obj.*1) then obj.*1 else obj.*1 ++ [k].
Proof.
  induction obj as [|[k' v'] obj IH]; cbn.
  - rewrite decide_False by apply not_elem_of_nil. reflexivity.
  - destruct (String.eqb k' k) eqn:Hk; cbn.
    + apply String.eqb_eq in Hk as ->.
      rewrite decide_True by apply list_elem_of_here. reflexivity.
    + apply String.eqb_neq in Hk. rewrite IH.
      destruct (decide (k ∈ obj.*1)) as [Hin|Hin].
      * rewrite decide_True by now apply list_elem_of_further. reflexivity.
      * rewrite decide_False; [reflexivity|].
        rewrite elem_of_cons. intuition congruence.
Qed.

Lemma objSet_values (P : string -> Prop) (k v : string) (obj : list (string * string)) :
  P v -> Forall P obj.*2 -> Forall P (objSet k v obj).*2.
Proof.
  intros Hv. induction obj as [|[k' v'] obj IH]; cbn.
  - intros _. now apply Forall_singleton.
  - intros Hall. apply Forall_cons in Hall as [Hv' Hall].
    destruct (String.eqb k' k); cbn; constructor; auto.
Qed.

Lemma objSet_NoDup {A} (k : string) (v : A) (obj : list (string * A)) :
  NoDup obj.*1 -> NoDup (objSet k v obj).*1.
Proof.
  intros Hnd. rewrite objSet_keys. destruct (decide (k ∈ obj.*1)); [exact Hnd|].
  apply NoDup_app. split; [exact Hnd|]. split.
  - intros x Hx Hk. apply list_elem_of_singleton in Hk as ->. contradiction.
  - apply NoDup_singleton.
Qed.

Lemma objSet_elem_of_keys {A} (k : string) (v : A) (obj : list (string * A)) (h : string) :
  h ∈ (objSet k v obj).*1 <-> h ∈ obj.*1 \/ h = k.
Proof.
  rewrite objSet_keys. destruct (decide (k ∈ obj.*1)) as [Hin|Hin].
  - split; [auto|]. intros [H| ->]; assumption.
  - rewrite elem_of_app, list_elem_of_singleton. reflexivity.
Qed.

Lemma assignCell_keys (k v : string) (row : list (string * string)) (h : string) :
  h ∈ (assignCell k v row).*1 <-> h ∈ row.*1 \/ (h = k /\ k <> "__proto__").
Proof.
  unfold assignCell. destruct (String.eqb_spec k "__proto__") as [->|Hk].
  - split; [auto|]. intros [H|[_ H]]; [exact H|contradiction].
  - rewrite objSet_elem_of_keys. split; (intros [H|H]; [left; exact H|right]).
    + split; [exact H|exact Hk].
    + apply H.
Qed.

Lemma assignCell_NoDup (k v : string) (row : list (string * string)) :
  NoDup row.*1 -> NoDup (assignCell k v row).*1.
Proof.
  unfold assignCell. destruct (String.eqb k "__proto__"); [easy|apply objSet_NoDup].
Qed.

Lemma assignCell_values (P : string -> Prop) (k v : string) (row : list (string * string)) :
  P v -> Forall P row.*2 -> Forall P (assignCell k v row).*2.
Proof.
  unfold assignCell. destruct (String.eqb k "__proto__"); [easy|apply objSet_values].
Qed.

Lemma fillRow_values (P : string -> Prop) (headers values : list string) (idx : nat)
    (row : list (string * string)) :
  P "" -> Forall P values -> Forall P row.*2 ->
  Forall P (fillRow headers values idx row).*2.
Proof.
  intros Hnil Hvalues. revert idx row.
  induction headers as [|h headers IH]; intros idx row Hrow; cbn [fillRow]; [exact Hrow|].
  apply IH, assignCell_values; [|exact Hrow].
  destruct (values !! idx) as [v|] eqn:Hv; [|exact Hnil].
  cbn. eapply Forall_lookup_1 in Hv; [exact Hv|exact Hvalues].
Qed.

Lemma fillRow_shape (headers values : list string) (idx : nat) (row : list (string * string)) :
  NoDup row.*1 ->
  let filled := fillRow headers values idx row in
  NoDup filled.*1 /\
  (forall h, h ∈ filled.*1 <-> h ∈ row.*1 \/ (h ∈ headers /\ h <> "__proto__")).
Proof.
  revert idx row.
  induction headers as [|h headers IH]; intros idx row Hnd; cbn [fillRow].
  - split; [exact Hnd|]. intros h. rewrite elem_of_nil. tauto.
  - destruct (IH (S idx) (assignCell h (default "" (values !! idx)) row)) as (H1 & H2).
    + now apply assignCell_NoDup.
    + split; [exact H1|].
      intros k. rewrite H2, assignCell_keys, elem_of_cons.
      split; [intros [[H|[-> H]]|[H H']]|intros [H|[[->|H] H']]]; tauto.
Qed.

Lemma splitCSVRow_trimmed (line : string) : Forall trimmed (splitCSVRow line).
Proof.
  unfold splitCSVRow.
  destruct (splitCSVRowFrom_extends (String.length line) line (le_n _) [] "" false)
    as (more & -> & _ & Hall).
  exact Hall.
Qed.

Lemma splitCSVRow_nonempty (line : string) : splitCSVRow line <> [].
Proof.
  unfold splitCSVRow.
  destruct (splitCSVRowFrom_extends (String.length line) line (le_n _) [] "" false)
    as (more & -> & Hne & _).
  exact Hne.
Qed.

Lemma parseCSV_shape (text : string) :
  let parsed := parseCSV text in
  csv_headers parsed <> [] /\
  Forall trimmed (csv_headers parsed) /\
  Forall (fun row =>
            NoDup row.*1 /\
            (forall h, h ∈ row.*1 <-> h ∈ csv_headers parsed /\ h <> "__proto__") /\
            Forall trimmed row.*2)
         (csv_rows parsed).
Proof.
  unfold parseCSV.
  destruct (splitOn_nonempty "010" (trim (replaceCR (replaceCRLF text))))
    as (first & rest & ->).
  cbn [csv_headers csv_rows].
  split; [apply splitCSVRow_nonempty|]. split; [apply splitCSVRow_trimmed|].
  apply Forall_forall. intros row Hrow.
  apply list_elem_of_In, in_flat_map in Hrow as (l & _ & Hrow).
  destruct (truthy (trim l)); [|contradiction].
  destruct Hrow as [<-|[]].
  destruct (fillRow_shape (splitCSVRow first) (splitCSVRow (trim l)) 0 [])
    as (H1 & H2); [apply NoDup_nil_2|].
  split; [exact H1|]. split.
  - intros h. rewrite H2. cbn. rewrite elem_of_nil. tauto.
  - apply fillRow_values; [reflexivity|apply splitCSVRow_trimmed|constructor].
Qed.

(** X19. What [parseCSV] returns is a table: there is at least one header,
    every row has as its columns exactly the header names other than
    [__proto__] (a name under which a row stores nothing), each once, and
    every header and every cell is trimmed. *)
Theorem parseCSV_rows_keyed_by_headers (text : string) :
  let parsed := parseCSV text in
  csv_headers parsed <> [] /\
  Forall (fun h => trim h = h) (csv_headers parsed) /\
  Forall (fun row =>
            NoDup row.*1 /\
            (forall h, h ∈ row.*1 <-> h ∈ csv_headers parsed /\ h <> "__proto__") /\
            Forall (fun cell => trim cell = cell) row.*2)
         (csv_rows parsed).
Proof. exact (parseCSV_shape text). Qed.

(** A file whose second column is named [__proto__]: the rows have the first
    column only. *)
Example parseCSV_proto_header :
  parseCSV ("url,__proto__" +:+ nl +:+ "a.example,x")
  = mkParsedCSV ["url"; "__proto__"] [[("url", "a.example")]].
Proof. vm_compute. reflexivity. Qed.

Section BatchResults.

Context {rt : JsRuntime}.

Lemma detectUrl_error_message (net : Network) (rawUrl message : string) :
  error (detectUrl net rawUrl) = Some message -> truthy message = true.
Proof.
  rewrite detectUrl_error. unfold fetchFailed.
  destruct (st_fetchError _) as [m|]; [|discriminate].
  destruct (truthy m) eqn:Hm; [|discriminate]. now intros [= <-].
Qed.

Lemma detectRow_own_cell (net : Network) (urlColumn cell : string)
    (row : list (string * string)) :
  objGet urlColumn row = Some cell ->
  detectRow net urlColumn row
  = Some (if truthy (trim cell) then detectUrl net (trim cell) else emptyUrlResult, row).
Proof.
  intros Hcell. unfold detectRow, trimmedCell. rewrite Hcell. cbn.
  now destruct (truthy (trim cell)).
Qed.

Lemma detectRow_throws (net : Network) (urlColumn : string) (row : list (string * string)) :
  detectRow net urlColumn row = None
  <-> objGet urlColumn row = None /\ inheritedKey urlColumn = true.
Proof.
  unfold detectRow, trimmedCell.
  destruct (objGet urlColumn row) as [cell|]; cbn.
  - split; [discriminate|]. now intros [? _].
  - destruct (inheritedKey urlColumn); cbn; split; try discriminate; try tauto.
    now intros [_ ?].
Qed.

Lemma detectRows_each (net : Network) (urlColumn : string)
    (rows : list (list (string * string)))
    (result : list (string * string) -> DetectionResult * list (string * string)) :
  (forall row, row ∈ rows -> detectRow net urlColumn row = Some (result row)) ->
  detectRows net urlColumn rows = Some (result <$> rows).
Proof.
  intros Hrows. unfold detectRows. apply mapM_Some, Forall2_fmap_r, Forall_Forall2_diag.
  apply Forall_forall. exact Hrows.
Qed.

Lemma detectRows_first_throws (net : Network) (urlColumn : string)
    (row : list (string * string)) (rows : list (list (string * string))) :
  detectRow net urlColumn row = None -> detectRows net urlColumn (row :: rows) = None.
Proof. intros Hrow. unfold detectRows. cbn. now rewrite Hrow. Qed.

Lemma detectRow_url_row (net : Network) (u : string) :
  detectRow net "url" [("url", u)]
  = Some (if truthy (trim u) then detectUrl net (trim u) else emptyUrlResult, [("url", u)]).
Proof. now apply detectRow_own_cell. Qed.

(** X20. A JSON batch is always answered.  The request is refused with
    status 400 exactly when the list of URLs is empty and with status 413
    exactly when it has more than 50 entries; otherwise the answer has
    status 200 and one result for each URL, in the order of the list: the
    result of [detectUrl] on the trimmed URL, or the [empty_url] result when
    nothing is left after trimming, each with the row of its URL. *)
Theorem json_batch_one_result_per_url (net : Network) (urls : list string) :
  exists resp,
    onRequestPost net (JsonBody (Some (Some urls))) = Some resp /\
    (status resp = 400%nat <-> urls = []) /\
    (status resp = 413%nat <-> (50 < length urls)%nat) /\
    ((1 <= length urls <= 50)%nat ->
     resp = mkBatchResponse 200
              (ResultsBody
                 ((fun u => (if truthy (trim u) then detectUrl net (trim u) else emptyUrlResult,
                             [("url", u)])) <$> urls))).
Proof.
  destruct urls as [|u urls].
  - eexists. split; [reflexivity|]. cbn.
    split; [tauto|]. split; [split; [discriminate|lia]|lia].
  - set (all := u :: urls). unfold onRequestPost.
    change (match all with [] => _ | _ => ?x end) with x.
    cbn [mbind option_bind]. rewrite length_fmap.
    assert (Hall : all <> []) by discriminate.
    unfold MAX_BATCH. destruct (Nat.ltb_spec 50 (length all)) as [Hlt|Hle].
    + eexists. split; [reflexivity|]. cbn [status].
      split; [split; [discriminate|contradiction]|]. split; [tauto|lia].
    + rewrite (detectRows_each net "url" _
                 (fun row => (if truthy (trim (default "" (objGet "url" row)))
                              then detectUrl net (trim (default "" (objGet "url" row)))
                              else emptyUrlResult, row))).
      * eexists. split; [reflexivity|]. cbn [status].
        split; [split; [discriminate|contradiction]|].
        split; [split; [discriminate|lia]|]. intros _. do 2 f_equal.
        rewrite <- list_fmap_compose. apply list_fmap_ext. intros i x _. reflexivity.
      * intros row Hrow. apply list_elem_of_fmap in Hrow as (x & -> & _).
        apply detectRow_url_row.
Qed.

Lemma parsed_row_url_cell (net : Network) (text override column : string)
    (row : list (string * string)) :
  findUrlColumn (csv_headers (parseCSV text)) override = Returned column ->
  row ∈ csv_rows (parseCSV text) ->
  if String.eqb column "__proto__" then detectRow net column row = None
  else exists cell,
         objGet column row = Some cell /\
         detectRow net column row
         = Some (if truthy cell then detectUrl net cell else emptyUrlResult, row).
Proof.
  intros Hcol Hrow.
  pose proof (findUrlColumn_cases (csv_headers (parseCSV text)) override) as Hfind.
  rewrite Hcol in Hfind. destruct Hfind as ((before & after & Hheaders & _) & _).
  destruct (parseCSV_shape text) as (_ & _ & Hrows).
  rewrite Forall_forall in Hrows. destruct (Hrows row Hrow) as (_ & Hkeys & Hcells).
  destruct (String.eqb_spec column "__proto__") as [->|Hne].
  - apply detectRow_throws. split; [|reflexivity].
    destruct (objGet "__proto__" row) as [cell|] eqn:Hcell; [|reflexivity].
    assert (Hin : "__proto__" ∈ row.*1) by (apply objGet_is_Some; eauto).
    apply Hkeys in Hin as [_ Hin]. contradiction.
  - assert (Hin : column ∈ row.*1).
    { apply Hkeys. split; [|exact Hne].
      rewrite Hheaders. apply elem_of_app. right. apply list_elem_of_here. }
    apply objGet_is_Some in Hin as [cell Hcell]. exists cell. split; [exact Hcell|].
    assert (Htrim : trim cell = cell).
    { rewrite Forall_forall in Hcells. apply Hcells. eapply objGet_elem, Hcell. }
    rewrite (detectRow_own_cell net column cell row Hcell). now rewrite Htrim.
Qed.

Lemma csv_upload_cases (net : Network) (text override : string) :
  let parsed := parseCSV text in
  let outcome := onRequestPost net (CsvUpload (Some text) override) in
  match csv_rows parsed, findUrlColumn (csv_headers parsed) override with
  | [], _ => outcome = Some (mkBatchResponse 400 (ErrorBody "CSV has no data rows"))
  | _ :: _, Thrown message => outcome = Some (mkBatchResponse 400 (ErrorBody message))
  | _ :: _, Returned column =>
      if (50 <? length (csv_rows parsed))%nat
      then outcome
           = Some (mkBatchResponse 413
                     (ErrorBody "Batch too large. Max 50 rows per request. Split your CSV into chunks."))
      else if String.eqb column "__proto__" then outcome = None
      else outcome
           = Some (mkBatchResponse 200
                     (CsvBody (joinWith crlf
                                 (csvLines (outputHeaders (csv_rows parsed))
                                    ((fun row =>
                                        (let cell := default "" (objGet column row) in
                                         if truthy cell then detectUrl net cell
                                         else emptyUrlResult, row))
                                       <$> csv_rows parsed)))))
  end.
Proof.
  cbv zeta. unfold onRequestPost.
  pose proof (parsed_row_url_cell net text override) as Hcell.
  destruct (csv_rows (parseCSV text)) as [|row rows] eqn:Hrows; [reflexivity|].
  destruct (findUrlColumn _ override) as [column|message]; [|reflexivity].
  cbn [mbind option_bind]. unfold MAX_BATCH.
  destruct (50 <? length (row :: rows))%nat; [reflexivity|].
  specialize (Hcell column).
  destruct (String.eqb column "__proto__").
  - rewrite detectRows_first_throws; [reflexivity|].
    apply Hcell; [reflexivity|apply list_elem_of_here].
  - rewrite (detectRows_each net column _
               (fun r => (if truthy (default "" (objGet column r))
                          then detectUrl net (default "" (objGet column r))
                          else emptyUrlResult, r))); [reflexivity|].
    intros r Hr. destruct (Hcell r eq_refl Hr) as (cell & Hget & ->).
    now rewrite Hget.
Qed.

(** X21. When the handler answers a CSV upload, the status is 400 exactly
    when the file has no data row or [findUrlColumn] finds no URL column,
    413 exactly when a URL column is found and there are more than 50 data
    rows, and 200 exactly when a URL column other than the header
    [__proto__] is found and there are between 1 and 50 data rows.  So a
    file without a URL column is refused with 400 however many rows it has.
    The handler throws, and gives no answer, exactly when the URL column
    found is the header [__proto__] and there are between 1 and 50 data
    rows: the rows have no such cell, and [trim] is called on
    [Object.prototype]. *)
Theorem csv_upload_status (net : Network) (text override : string) :
  let parsed := parseCSV text in
  let outcome := onRequestPost net (CsvUpload (Some text) override) in
  let found := exists column, findUrlColumn (csv_headers parsed) override = Returned column in
  let inherited := findUrlColumn (csv_headers parsed) override = Returned "__proto__" in
  (outcome = None <-> (1 <= length (csv_rows parsed) <= 50)%nat /\ inherited) /\
  (forall resp, outcome = Some resp ->
     (status resp = 400%nat <-> csv_rows parsed = [] \/ ~ found) /\
     (status resp = 413%nat <-> (50 < length (csv_rows parsed))%nat /\ found) /\
     (status resp = 200%nat
      <-> (1 <= length (csv_rows parsed) <= 50)%nat /\ found /\ ~ inherited)).
Proof.
  cbv zeta. pose proof (csv_upload_cases net text override) as H. cbv zeta in H.
  destruct (csv_rows (parseCSV text)) as [|row rows] eqn:Hrows.
  - rewrite H. split; [split; [discriminate|cbn; lia]|]. intros resp [= <-]. cbn.
    split; [tauto|]. split; split; try discriminate; intros [? _]; lia.
  - assert (Hne : row :: rows <> []) by discriminate.
    assert (Hpos : (1 <= length (row :: rows))%nat) by (cbn; lia).
    destruct (findUrlColumn _ override) as [column|message].
    + assert (Hfound : exists c, Returned column = Returned c :> Outcome string) by eauto.
      destruct (Nat.ltb_spec 50 (length (row :: rows))) as [Hlt|Hle].
      * rewrite H. split; [split; [discriminate|lia]|]. intros resp [= <-]. cbn [status].
        split; [split; [discriminate|tauto]|]. split; [tauto|].
        split; [discriminate|]. intros [? _]. lia.
      * destruct (String.eqb_spec column "__proto__") as [Hcol|Hcol].
        -- rewrite Hcol. split; [tauto|]. rewrite H. discriminate.
        -- assert (Hother : Returned column <> Returned "__proto__" :> Outcome string)
             by congruence.
           rewrite H. split; [split; [discriminate|tauto]|]. intros resp [= <-].
           cbn [status].
           split; [split; [discriminate|tauto]|].
           split; [split; [discriminate|intros [? _]; lia]|].
           split; [|reflexivity]. intros _. split; [lia|]. split; [exact Hfound|exact Hother].
    + assert (Hno : ~ exists c, Thrown message = Returned c :> Outcome string)
        by (intros [c Hc]; discriminate).
      rewrite H. split; [split; [discriminate|intros [_ ?]; discriminate]|].
      intros resp [= <-]. cbn [status].
      split; [tauto|]. split; split; try discriminate; intros [_ ?]; tauto.
Qed.

(** X22. In a CSV upload answered with status 200 every data row has a cell
    in the URL column, and the answer is the CSV text of one result for each
    data row, in the order of the file: the result of [detectUrl] on that
    cell as it is (cells are trimmed when the file is read), or the
    [empty_url] result when the cell is empty, each with its row. *)
Theorem csv_upload_detects_each_url_cell (net : Network) (text override : string)
    (resp : BatchResponse) :
  let parsed := parseCSV text in
  onRequestPost net (CsvUpload (Some text) override) = Some resp ->
  status resp = 200%nat ->
  exists column results,
    findUrlColumn (csv_headers parsed) override = Returned column /\
    body resp = CsvBody (joinWith crlf (csvLines (outputHeaders (csv_rows parsed)) results)) /\
    Forall2 (fun row entry =>
               entry.2 = row /\
               exists cell,
                 objGet column row = Some cell /\
                 entry.1 = if truthy cell then detectUrl net cell else emptyUrlResult)
            (csv_rows parsed) results.
Proof.
  cbv zeta. intros Hresp Hstatus.
  pose proof (csv_upload_cases net text override) as H. cbv zeta in H.
  pose proof (parsed_row_url_cell net text override) as Hcell.
  rewrite Hresp in H.
  destruct (csv_rows (parseCSV text)) as [|row rows] eqn:Hrows.
  { injection H as ->. discriminate. }
  destruct (findUrlColumn _ override) as [column|message];
    [|injection H as ->; discriminate].
  destruct (50 <? length (row :: rows))%nat; [injection H as ->; discriminate|].
  specialize (Hcell column).
  destruct (String.eqb column "__proto__"); [discriminate|].
  apply (inj Some) in H as ->.
  exists column,
    ((fun r => (if truthy (default "" (objGet column r))
                then detectUrl net (default "" (objGet column r))
                else emptyUrlResult, r)) <$> row :: rows).
  split; [reflexivity|]. split; [reflexivity|].
  apply Forall2_fmap_r, Forall_Forall2_diag, Forall_forall.
  intros r Hr. destruct (Hcell r eq_refl Hr) as (cell & Hget & _).
  cbn. rewrite Hget. split; [reflexivity|]. exists cell. split; reflexivity.
Qed.

End BatchResults.
(** An upload of two data rows, the second with an empty URL cell. *)
Lemma csv_upload_detects_each_url_cell_example :
  let net := deadNetwork "The operation was aborted" in
  let text := "name,URL" +:+ nl +:+ "a, example.com " +:+ nl +:+ "b," in
  let parsed := parseCSV text in
  exists resp,
    @onRequestPost literalRuntime net (CsvUpload (Some text) "") = Some resp /\
    status resp = 200%nat /\
    exists column results,
      findUrlColumn (csv_headers parsed) "" = Returned column /\
      body resp = CsvBody (joinWith crlf (csvLines (outputHeaders (csv_rows parsed)) results)) /\
      Forall2 (fun row entry =>
                 entry.2 = row /\
                 exists cell,
                   objGet column row = Some cell /\
                   entry.1 = if truthy cell then @detectUrl literalRuntime net cell
                             else emptyUrlResult)
              (csv_rows parsed) results.
Proof.
  eexists. split; [vm_compute; reflexivity|]. split; [reflexivity|].
  apply (@csv_upload_detects_each_url_cell literalRuntime
           (deadNetwork "The operation was aborted")
           ("name,URL" +:+ nl +:+ "a, example.com " +:+ nl +:+ "b,") "");
    [vm_compute; reflexivity|reflexivity].
Defined.

(** An upload whose URL column is the header [__proto__]: the rows have no
    such cell and the handler throws. *)
Example csv_upload_proto_column :
  @onRequestPost literalRuntime (deadNetwork "The operation was aborted")
    (CsvUpload (Some ("__proto__" +:+ nl +:+ "a.example")) "__proto__")
  = None.
Proof. vm_compute. reflexivity. Qed.

Lemma arrayIncludes_elem (arr : list string) (x : string) :
  arrayIncludes arr x = true <-> x ∈ arr.
Proof.
  unfold arrayIncludes. rewrite existsb_exists. split.
  - intros (y & Hy & Heq). apply String.eqb_eq in Heq as ->. now apply list_elem_of_In.
  - intros Hx. exists x. split; [now apply list_elem_of_In|apply String.eqb_refl].
Qed.

Lemma outputHeaders_result_headers (rows : list (list (string * string))) :
  Forall (fun h => h ∈ outputHeaders rows) RESULT_HEADERS.
Proof.
  apply Forall_forall. intros h Hh. unfold outputHeaders. cbv zeta.
  set (originalHeaders := objectKeys (default [] (head rows))).
  apply elem_of_app.
  destruct (arrayIncludes originalHeaders h) eqn:Hinc.
  - left. now apply arrayIncludes_elem.
  - right. apply list_elem_of_In, filter_In. split; [now apply list_elem_of_In|].
    now rewrite Hinc.
Qed.

Lemma splitCSVRow_joined (v : string) (vs : list string) :
  splitCSVRow (joinWith "," (csvEscape <$> v :: vs)) = trim <$> v :: vs.
Proof. unfold splitCSVRow. now rewrite splitCSVRowFrom_joined. Qed.

Lemma csvLines_split (allHeaders : list string)
    (results : list (DetectionResult * list (string * string))) :
  allHeaders <> [] ->
  splitCSVRow <$> csvLines allHeaders results
  = (trim <$> allHeaders)
    :: ((fun entry =>
           (fun h => trim (default "" (objGet h (outputRow entry)))) <$> allHeaders)
          <$> results).
Proof.
  destruct allHeaders as [|h hs]; [contradiction|]. intros _.
  unfold csvLines. rewrite fmap_cons, splitCSVRow_joined. f_equal.
  rewrite <- list_fmap_compose. apply list_fmap_ext. intros i entry _.
  unfold compose. set (cell := fun k => default "" (objGet k (outputRow entry))).
  transitivity (splitCSVRow (joinWith "," (csvEscape <$> cell h :: (cell <$> hs)))).
  - rewrite !fmap_cons, <- list_fmap_compose. reflexivity.
  - rewrite splitCSVRow_joined, !fmap_cons, <- list_fmap_compose. reflexivity.
Qed.

(** X23. The lines of the CSV answer form a table under the reader of the
    endpoint: the six result columns are among the output columns, the
    header line splits into the output columns, and the line of each result
    splits into one cell for each output column, the cell of the output row
    under that column (the empty string when the row has none), each
    trimmed. *)
Theorem csv_answer_lines_read_back (rows : list (list (string * string)))
    (results : list (DetectionResult * list (string * string))) :
  let allHeaders := outputHeaders rows in
  Forall (fun h => h ∈ allHeaders) RESULT_HEADERS /\
  splitCSVRow <$> csvLines allHeaders results
  = (trim <$> allHeaders)
    :: ((fun entry =>
           (fun h => trim (default "" (objGet h (outputRow entry)))) <$> allHeaders)
          <$> results).
Proof.
  cbv zeta. pose proof (outputHeaders_result_headers rows) as Hall.
  split; [exact Hall|]. apply csvLines_split.
  apply Forall_cons in Hall as [Hin _]. intros Hnil. rewrite Hnil in Hin.
  now apply elem_of_nil in Hin.
Qed.

Lemma outputRow_columns (entry : DetectionResult * list (string * string)) :
  let r := entry.1 in
  let out := outputRow entry in
  objGet "ai_bucket" out = Some (bucketName (bucket r)) /\
  objGet "ai_bucket_confidence" out = Some (confidenceName (bucketConfidence r)) /\
  objGet "ai_platform" out = Some (default "" (platform r)) /\
  objGet "ai_platform_score" out = Some (toFixed1 (platformScore r)) /\
  objGet "ai_score" out = Some (toFixed1 (aiScore r)) /\
  objGet "ai_error" out = Some (default "" (error r)) /\
  (forall h, h ∉ RESULT_HEADERS -> objGet h out = objGet h entry.2).
Proof.
  cbv zeta. unfold outputRow. cbv zeta.
  repeat split;
    try (repeat (rewrite objGet_objSet_ne by discriminate); apply objGet_objSet_eq).
  intros h Hh. unfold RESULT_HEADERS in Hh.
  repeat (apply not_elem_of_cons in Hh as [? Hh]).
  now repeat (rewrite objGet_objSet_ne by assumption).
Qed.

(** X24. The output row of a result is the uploaded row with the six result
    cells written over it: under each result column stands the field of the
    result, also when the upload has a column of that name, and every other
    column keeps the cell of the upload. *)
Theorem outputRow_result_columns (entry : DetectionResult * list (string * string)) :
  let r := entry.1 in
  let out := outputRow entry in
  objGet "ai_bucket" out = Some (bucketName (bucket r)) /\
  objGet "ai_bucket_confidence" out = Some (confidenceName (bucketConfidence r)) /\
  objGet "ai_platform" out = Some (default "" (platform r)) /\
  objGet "ai_platform_score" out = Some (toFixed1 (platformScore r)) /\
  objGet "ai_score" out = Some (toFixed1 (aiScore r)) /\
  objGet "ai_error" out = Some (default "" (error r)) /\
  (forall h, h ∉ RESULT_HEADERS -> objGet h out = objGet h entry.2).
Proof. exact (outputRow_columns entry). Qed.

Section BatchRows.

Context {rt : JsRuntime}.

Lemma detectRow_error_unknown (net : Network) (urlColumn : string)
    (row : list (string * string)) (entry : DetectionResult * list (string * string)) :
  detectRow net urlColumn row = Some entry ->
  (bucket entry.1 = unknown <-> error entry.1 <> None) /\
  (forall message, error entry.1 = Some message -> truthy message = true).
Proof.
  unfold detectRow. destruct (trimmedCell urlColumn row) as [u|]; [|discriminate].
  cbn [mbind option_bind]. destruct (truthy u); intros [= <-]; cbn [fst].
  - split; [apply bucket_unknown_iff_error|]. intros message. apply detectUrl_error_message.
  - cbn. split; [split; [discriminate|reflexivity]|]. now intros message [= <-].
Qed.

Lemma bucketName_unknown (b : Bucket) : bucketName b = "unknown" <-> b = unknown.
Proof. destruct b; cbn; split; congruence. Qed.

(** X25. In the answer to a batch, a row is marked [unknown] exactly when it
    carries an error message: for the result of every row the bucket is
    [unknown] exactly when [error] is set, a set [error] is never the empty
    string, and so in the CSV answer the cell under [ai_bucket] is the word
    for unknown exactly when the cell under [ai_error] is not empty.  A row
    has no result only when the URL column is a name the row has not and
    every object inherits; then the handler throws. *)
Theorem batch_row_unknown_iff_error (net : Network) (urlColumn : string)
    (row : list (string * string)) :
  match detectRow net urlColumn row with
  | Some entry =>
      let out := outputRow entry in
      (bucket entry.1 = unknown <-> error entry.1 <> None) /\
      (forall message, error entry.1 = Some message -> message <> "") /\
      (objGet "ai_bucket" out = Some "unknown" <-> objGet "ai_error" out <> Some "")
  | None => objGet urlColumn row = None /\ inheritedKey urlColumn = true
  end.
Proof.
  destruct (detectRow net urlColumn row) as [entry|] eqn:Hentry;
    [|exact (proj1 (detectRow_throws net urlColumn row) Hentry)].
  cbv zeta.
  destruct (detectRow_error_unknown net urlColumn row entry Hentry) as (Hiff & Hmsg).
  destruct (outputRow_columns entry) as (Hb & _ & _ & _ & _ & He & _).
  cbv zeta in *. rewrite Hb, He.
  split; [exact Hiff|]. split.
  - intros message Hm ->. specialize (Hmsg _ Hm). discriminate.
  - destruct (error entry.1) as [message|] eqn:Herr.
    + specialize (Hmsg _ eq_refl). split.
      * intros _ [= Hempty]. cbn in Hempty. subst message. discriminate.
      * intros _. f_equal. apply bucketName_unknown, Hiff. discriminate.
    + split.
      * intros [= Hb']. apply bucketName_unknown, Hiff in Hb'. contradiction.
      * intros Hne. contradiction Hne. reflexivity.
Qed.

End BatchRows.

(* ------------------------------------------------------------------ *)
(** ** Chunks of the page script *)

Lemma chunkArrayFrom_chunks {A} (arr : list A) (size : nat) :
  (0 < size)%nat ->
  forall fuel i chunks,
    (length arr - i < fuel)%nat ->
    exists more,
      App.chunkArrayFrom fuel arr size i chunks = Some (chunks ++ more) /\
      concat more = drop i arr /\
      forall k c, more !! k = Some c ->
        (i + k * size < length arr)%nat /\
        c = slice arr (i + k * size) (i + k * size + size).
Proof.
  intros Hsize. induction fuel as [|fuel IH]; intros i chunks Hfuel; [lia|].
  cbn [App.chunkArrayFrom]. destruct (Nat.ltb_spec i (length arr)) as [Hlt|Hge].
  - destruct (IH (i + size)%nat (chunks ++ [slice arr i (i + size)])) as (more & -> & Hcat & Hk);
      [lia|].
    exists (slice arr i (i + size) :: more). rewrite <- app_assoc. split; [reflexivity|].
    split.
    + cbn [concat]. rewrite Hcat. unfold slice.
      replace (i + size - i)%nat with size by lia.
      rewrite <- drop_drop. apply take_drop.
    + intros [|k] c Hc; cbn in Hc.
      * injection Hc as <-. rewrite Nat.add_0_r. split; [exact Hlt|reflexivity].
      * destruct (Hk k c Hc) as (Hin & ->).
        replace (i + S k * size)%nat with (i + size + k * size)%nat by lia.
        split; [exact Hin|reflexivity].
  - exists []. rewrite app_nil_r. split; [reflexivity|]. split.
    + cbn. symmetry. apply drop_ge. lia.
    + intros k c Hc. discriminate.
Qed.

Lemma chunkArrayFrom_more_fuel {A} (arr : list A) (size : nat) :
  forall fuel fuel' i chunks result,
    App.chunkArrayFrom fuel arr size i chunks = Some result ->
    (fuel <= fuel')%nat ->
    App.chunkArrayFrom fuel' arr size i chunks = Some result.
Proof.
  induction fuel as [|fuel IH]; intros fuel' i chunks result Hres Hle; [discriminate|].
  destruct fuel' as [|fuel']; [lia|]. cbn [App.chunkArrayFrom] in *.
  destruct (i <? length arr)%nat; [|exact Hres].
  eapply IH; [exact Hres|lia].
Qed.

Lemma chunkArrayFrom_size_0 {A} (arr : list A) :
  forall fuel i chunks,
    (i < length arr)%nat -> App.chunkArrayFrom fuel arr 0 i chunks = None.
Proof.
  induction fuel as [|fuel IH]; intros i chunks Hi; [reflexivity|].
  cbn [App.chunkArrayFrom]. destruct (Nat.ltb_spec i (length arr)) as [_|Hge]; [|lia].
  rewrite Nat.add_0_r. now apply IH.
Qed.

Lemma length_slice {A} (arr : list A) (start size : nat) :
  length (slice arr start (start + size)) = (size `min` (length arr - start))%nat.
Proof.
  unfold slice. replace (start + size - start)%nat with size by lia.
  now rewrite length_take, length_drop.
Qed.

Lemma chunkArray_chunks {A} (arr : list A) (size : nat) :
  (0 < size)%nat ->
  exists chunks,
    (forall fuel, (length arr < fuel)%nat -> App.chunkArray fuel arr size = Some chunks) /\
    (forall fuel result, App.chunkArray fuel arr size = Some result -> result = chunks) /\
    concat chunks = arr /\
    Forall (fun c => (1 <= length c <= size)%nat) chunks /\
    (forall k c, chunks !! k = Some c -> (S k < length chunks)%nat -> length c = size).
Proof.
  intros Hsize.
  destruct (chunkArrayFrom_chunks arr size Hsize (S (length arr)) 0 [])
    as (chunks & Hrun & Hcat & Hk); [lia|].
  exists chunks. cbn [app] in Hrun. split; [|split; [|split; [|split]]].
  - intros fuel Hfuel. eapply chunkArrayFrom_more_fuel; [exact Hrun|lia].
  - intros fuel result Hres.
    pose proof (chunkArrayFrom_more_fuel arr size fuel (fuel `max` S (length arr)) 0 []
                  result Hres ltac:(lia)) as H1.
    pose proof (chunkArrayFrom_more_fuel arr size (S (length arr))
                  (fuel `max` S (length arr)) 0 [] chunks Hrun ltac:(lia)) as H2.
    congruence.
  - rewrite Hcat. apply drop_0.
  - apply Forall_lookup. intros k c Hc. destruct (Hk k c Hc) as (Hin & ->).
    rewrite length_slice. lia.
  - intros k c Hc Hnext. destruct (Hk k c Hc) as (_ & ->).
    destruct (lookup_lt_is_Some_2 chunks (S k) Hnext) as (c' & Hc').
    destruct (Hk (S k) c' Hc') as (Hin & _).
    rewrite length_slice. cbn in Hin. lia.
Qed.

(** X26. [chunkArray] with a positive chunk size ends (once the loop
    condition may be tested more often than the array is long) and always
    with the same chunks: put one after the other they are the array, no
    chunk is empty or longer than the size, and every chunk but the last has
    exactly the size.  With size 0 it does not end on an array that is not
    empty. *)
Theorem chunkArray_cuts_the_array {A} (arr : list A) (size : nat) :
  ((0 < size)%nat ->
   exists chunks,
     (forall fuel, (length arr < fuel)%nat -> App.chunkArray fuel arr size = Some chunks) /\
     (forall fuel result, App.chunkArray fuel arr size = Some result -> result = chunks) /\
     concat chunks = arr /\
     Forall (fun c => (1 <= length c <= size)%nat) chunks /\
     (forall k c, chunks !! k = Some c -> (S k < length chunks)%nat -> length c = size)) /\
  (arr <> [] -> forall fuel, App.chunkArray fuel arr 0 = None).
Proof.
  split; [apply chunkArray_chunks|].
  intros Hne fuel. apply chunkArrayFrom_size_0. destruct arr; [contradiction|cbn; lia].
Qed.
(* ------------------------------------------------------------------ *)
(** ** The page script and the batch endpoint *)

Lemma App_splitRow_eq (line : string) : App.splitRow line = splitCSVRow line.
Proof. reflexivity. Qed.

Lemma App_parseCSV_eq (text : string) : App.parseCSV text = parseCSV text.
Proof. reflexivity. Qed.

Lemma App_escape_eq (v : string) : App.escape v = csvEscape v.
Proof. reflexivity. Qed.

Lemma App_autoDetectUrlColumn_eq (headers : list string) :
  App.autoDetectUrlColumn headers
  = match findUrlColumn headers "" with
    | Returned column => Some column
    | Thrown _ => None
    end.
Proof.
  unfold findUrlColumn, App.autoDetectUrlColumn. cbn [truthy].
  change (App.candidateLoop App.URL_CANDIDATES headers (toLowerCase <$> headers))
    with (firstCandidate URL_COLUMN_CANDIDATES headers (toLowerCase <$> headers)).
  now destruct (firstCandidate _ _ _).
Qed.

Lemma includes_nil_char (d : ascii) : includes "" (String d "") = false.
Proof. reflexivity. Qed.

Lemma includes_append_char (a b : string) (d : ascii) :
  includes (a +:+ b) (String d "") = includes a (String d "") || includes b (String d "").
Proof.
  induction a as [|x a IH]; [reflexivity|].
  rewrite append_cons, !includes_char, IH. now rewrite orb_assoc.
Qed.

Lemma includes_doubleQuotes (s : string) (d : ascii) :
  Ascii.eqb "034" d = false ->
  includes (doubleQuotes s) (String d "") = includes s (String d "").
Proof.
  intros Hd. induction s as [|x s IH]; [reflexivity|]. cbn [doubleQuotes].
  destruct (Ascii.eqb x "034") eqn:Hx.
  - apply Ascii.eqb_eq in Hx as ->. rewrite !includes_char, IH, Hd. reflexivity.
  - rewrite !includes_char, IH. reflexivity.
Qed.

Lemma includes_csvEscape (v : string) (d : ascii) :
  Ascii.eqb "034" d = false ->
  includes v (String d "") = false -> includes (csvEscape v) (String d "") = false.
Proof.
  intros Hd Hv. unfold csvEscape.
  destruct (includes v "," || includes v dq || includes v nl); [|exact Hv].
  unfold dq. rewrite !includes_append_char, includes_doubleQuotes, Hv by exact Hd.
  rewrite includes_char, Hd. reflexivity.
Qed.

Lemma includes_joinWith (sep : string) (parts : list string) (d : ascii) :
  includes sep (String d "") = false ->
  Forall (fun p => includes p (String d "") = false) parts ->
  includes (joinWith sep parts) (String d "") = false.
Proof.
  intros Hsep. induction parts as [|p parts IH]; intros Hall; [reflexivity|].
  apply Forall_cons in Hall as [Hp Hall]. cbn [joinWith].
  destruct parts as [|q parts]; [exact Hp|].
  rewrite !includes_append_char, Hp, Hsep, IH by exact Hall. reflexivity.
Qed.

Lemma includes_trimStart (s : string) (d : ascii) :
  includes s (String d "") = false -> includes (trimStart s) (String d "") = false.
Proof.
  induction s as [|x s IH]; [easy|]. cbn [trimStart].
  destruct (isSpace x); [|easy]. rewrite includes_char. intros H.
  apply orb_false_iff in H as [_ H]. now apply IH.
Qed.

Lemma includes_trimEnd (s : string) (d : ascii) :
  includes s (String d "") = false -> includes (trimEnd s) (String d "") = false.
Proof.
  induction s as [|x s IH]; [easy|]. cbn [trimEnd]. rewrite includes_char. intros H.
  apply orb_false_iff in H as [Hx H]. specialize (IH H).
  destruct (trimEnd s) as [|y r].
  - destruct (isSpace x); [reflexivity|]. rewrite includes_char, Hx. reflexivity.
  - rewrite includes_char, Hx, IH. reflexivity.
Qed.

Lemma includes_trim (s : string) (d : ascii) :
  includes s (String d "") = false -> includes (trim s) (String d "") = false.
Proof. intros H. unfold trim. now apply includes_trimEnd, includes_trimStart. Qed.

Lemma lineBreakFree_trim (s : string) : lineBreakFree s -> lineBreakFree (trim s).
Proof. intros [H1 H2]. split; now apply includes_trim. Qed.

Lemma lineBreakFree_nil : lineBreakFree "".
Proof. split; reflexivity. Qed.

Lemma lineBreakFree_csvEscape (v : string) : lineBreakFree v -> lineBreakFree (csvEscape v).
Proof. intros [H1 H2]. split; now apply includes_csvEscape. Qed.

Lemma lineBreakFree_joinWith_comma (parts : list string) :
  Forall lineBreakFree parts -> lineBreakFree (joinWith "," parts).
Proof.
  intros Hall. split; (apply includes_joinWith; [reflexivity|]);
    (eapply Forall_impl; [exact Hall|]); now intros p [H1 H2].
Qed.

Lemma splitOn_free (c d : ascii) (s : string) :
  includes s (String d "") = false ->
  Forall (fun p => includes p (String d "") = false) (splitOn c s).
Proof.
  induction s as [|x s IH]; intros Hs.
  - now apply Forall_singleton.
  - rewrite includes_char in Hs. apply orb_false_iff in Hs as [Hx Hs].
    specialize (IH Hs). cbn [splitOn].
    destruct (splitOn_nonempty c s) as (p & ps & Hsplit). rewrite Hsplit in IH |- *.
    apply Forall_cons in IH as [Hp Hps].
    destruct (Ascii.eqb x c).
    + constructor; [reflexivity|]. constructor; assumption.
    + constructor; [|exact Hps]. rewrite includes_char, Hx, Hp. reflexivity.
Qed.

Lemma splitOn_pieces (c : ascii) (s : string) :
  Forall (fun p => includes p (String c "") = false) (splitOn c s).
Proof.
  induction s as [|x s IH]; [now apply Forall_singleton|]. cbn [splitOn].
  destruct (splitOn_nonempty c s) as (p & ps & Hsplit). rewrite Hsplit in IH |- *.
  apply Forall_cons in IH as [Hp Hps].
  destruct (Ascii.eqb x c) eqn:Hx.
  - constructor; [reflexivity|]. constructor; assumption.
  - constructor; [|exact Hps]. rewrite includes_char, Hx, Hp. reflexivity.
Qed.

Lemma replaceCR_free (s : string) : includes (replaceCR s) cr = false.
Proof.
  unfold cr. induction s as [|x s IH]; [reflexivity|]. cbn [replaceCR].
  rewrite includes_char, IH. destruct (Ascii.eqb x "013") eqn:Hx; [reflexivity|].
  rewrite Hx. reflexivity.
Qed.

Lemma splitCSVRowFrom_free (d : ascii) (n : nat) :
  Ascii.eqb "034" d = false ->
  forall line, (String.length line <= n)%nat ->
  forall fields cur inQuotes,
    includes line (String d "") = false ->
    includes cur (String d "") = false ->
    Forall (fun f => includes f (String d "") = false) fields ->
    Forall (fun f => includes f (String d "") = false)
           (splitCSVRowFrom line fields cur inQuotes).
Proof.
  intros Hd.
  assert (Hlast : forall fields cur,
             includes cur (String d "") = false ->
             Forall (fun f => includes f (String d "") = false) fields ->
             Forall (fun f => includes f (String d "") = false) (fields ++ [trim cur])).
  { intros fields cur Hcur Hfields. apply Forall_app. split; [exact Hfields|].
    apply Forall_singleton. now apply includes_trim. }
  induction n as [|n IH]; intros line Hlen fields cur inQuotes Hline Hcur Hfields.
  - destruct line; [now apply Hlast|cbn in Hlen; lia].
  - destruct line as [|ch rest]; [now apply Hlast|]. cbn in Hlen.
    rewrite includes_char in Hline. apply orb_false_iff in Hline as [Hch Hrest].
    cbn [splitCSVRowFrom]. destruct (Ascii.eqb ch "034").
    + destruct rest as [|next rest']; [now apply Hlast|].
      destruct (inQuotes && Ascii.eqb next "034").
      * rewrite includes_char in Hrest. apply orb_false_iff in Hrest as [_ Hrest'].
        apply IH; [cbn in Hlen; lia|exact Hrest'| |exact Hfields].
        unfold dq. rewrite includes_append_char, Hcur, includes_char, Hd. reflexivity.
      * apply IH; [lia|exact Hrest|exact Hcur|exact Hfields].
    + destruct (Ascii.eqb ch "," && negb inQuotes).
      * apply IH; [lia|exact Hrest|reflexivity|now apply Hlast].
      * apply IH; [lia|exact Hrest| |exact Hfields].
        rewrite includes_append_char, Hcur, includes_char, Hch. reflexivity.
Qed.

Lemma splitCSVRow_lineBreakFree (line : string) :
  lineBreakFree line -> Forall lineBreakFree (splitCSVRow line).
Proof.
  intros [H1 H2]. unfold splitCSVRow, lineBreakFree.
  apply Forall_and. split.
  - apply (splitCSVRowFrom_free "010" (String.length line)); auto.
  - apply (splitCSVRowFrom_free "013" (String.length line)); auto.
Qed.

Lemma parseCSV_lineBreakFree (text : string) :
  Forall lineBreakFree (csv_headers (parseCSV text)) /\
  Forall (fun row => Forall lineBreakFree row.*2) (csv_rows (parseCSV text)).
Proof.
  unfold parseCSV.
  set (normal := trim (replaceCR (replaceCRLF text))).
  assert (Hlines : Forall lineBreakFree (splitOn "010" normal)).
  { unfold lineBreakFree. apply Forall_and. split; [apply splitOn_pieces|].
    apply splitOn_free. apply includes_trim, replaceCR_free. }
  destruct (splitOn_nonempty "010" normal) as (first & rest & Hsplit).
  rewrite Hsplit in Hlines |- *. apply Forall_cons in Hlines as [Hfirst Hrest].
  cbn [csv_headers csv_rows]. split; [now apply splitCSVRow_lineBreakFree|].
  apply Forall_forall. intros row Hrow.
  apply list_elem_of_In, in_flat_map in Hrow as (l & Hl & Hrow).
  destruct (truthy (trim l)); [|contradiction]. destruct Hrow as [<-|[]].
  apply fillRow_values; [apply lineBreakFree_nil| |constructor].
  apply splitCSVRow_lineBreakFree, lineBreakFree_trim.
  rewrite Forall_forall in Hrest. apply Hrest. now apply list_elem_of_In.
Qed.

(** The number of pieces of a split. *)
Lemma length_splitOn_cons (c x : ascii) (s : string) :
  length (splitOn c (String x s))
  = ((if Ascii.eqb x c then 1 else 0) + length (splitOn c s))%nat.
Proof.
  cbn [splitOn]. destruct (splitOn_nonempty c s) as (p & ps & ->).
  now destruct (Ascii.eqb x c).
Qed.

Lemma length_splitOn_pos (c : ascii) (s : string) : (1 <= length (splitOn c s))%nat.
Proof. destruct (splitOn_nonempty c s) as (p & ps & ->). cbn. lia. Qed.

Lemma length_splitOn_trimStart (c : ascii) (s : string) :
  (length (splitOn c (trimStart s)) <= length (splitOn c s))%nat.
Proof.
  induction s as [|x s IH]; [reflexivity|]. cbn [trimStart].
  destruct (isSpace x); [|reflexivity]. rewrite length_splitOn_cons. lia.
Qed.

Lemma length_splitOn_trimEnd (c : ascii) (s : string) :
  (length (splitOn c (trimEnd s)) <= length (splitOn c s))%nat.
Proof.
  induction s as [|x s IH]; [reflexivity|]. cbn [trimEnd].
  pose proof (length_splitOn_pos c s) as Hpos.
  destruct (trimEnd s) as [|y r].
  - destruct (isSpace x); rewrite ?length_splitOn_cons; cbn; destruct (Ascii.eqb x c); lia.
  - rewrite !length_splitOn_cons in *. lia.
Qed.

Lemma length_splitOn_trim (c : ascii) (s : string) :
  (length (splitOn c (trim s)) <= length (splitOn c s))%nat.
Proof.
  unfold trim. etransitivity; [apply length_splitOn_trimEnd|apply length_splitOn_trimStart].
Qed.

Lemma length_splitOn_append (c : ascii) (a b : string) :
  (length (splitOn c (a +:+ b)) + 1 = length (splitOn c a) + length (splitOn c b))%nat.
Proof.
  induction a as [|x a IH].
  - change ("" +:+ b) with b. cbn [splitOn length]. lia.
  - rewrite append_cons, !length_splitOn_cons. lia.
Qed.

Lemma length_splitOn_free (c : ascii) (s : string) :
  includes s (String c "") = false -> length (splitOn c s) = 1%nat.
Proof.
  induction s as [|x s IH]; [reflexivity|]. rewrite includes_char. intros H.
  apply orb_false_iff in H as [Hx H]. rewrite length_splitOn_cons, Hx, IH by exact H.
  reflexivity.
Qed.

Lemma length_splitOn_joinWith (line : string) (lines : list string) :
  Forall (fun l => includes l nl = false) (line :: lines) ->
  length (splitOn "010" (joinWith nl (line :: lines))) = S (length lines).
Proof.
  revert line. induction lines as [|l lines IH]; intros line Hall.
  - apply Forall_cons in Hall as [Hline _]. cbn [joinWith]. now apply length_splitOn_free.
  - apply Forall_cons in Hall as [Hline Hall].
    change (joinWith nl (line :: l :: lines))
      with (line +:+ nl +:+ joinWith nl (l :: lines)).
    pose proof (length_splitOn_append "010" line (nl +:+ joinWith nl (l :: lines))) as H.
    rewrite (length_splitOn_free _ _ Hline) in H.
    change (nl +:+ joinWith nl (l :: lines))
      with (String "010" (joinWith nl (l :: lines))) in H.
    rewrite length_splitOn_cons, IH in H by exact Hall.
    change (nl +:+ joinWith nl (l :: lines))
      with (String "010" (joinWith nl (l :: lines))).
    rewrite Ascii.eqb_refl in H. cbn [length]. lia.
Qed.

Lemma replaceCRLF_cons_ne (x : ascii) (rest : string) :
  Ascii.eqb x "013" = false -> replaceCRLF (String x rest) = String x (replaceCRLF rest).
Proof. intros Hx. destruct rest; cbn [replaceCRLF]; [reflexivity|]. now rewrite Hx. Qed.

Lemma replaceCRLF_free_append (l t : string) :
  includes l cr = false -> replaceCRLF (l +:+ t) = l +:+ replaceCRLF t.
Proof.
  unfold cr. induction l as [|x l IH]; [reflexivity|]. rewrite includes_char. intros H.
  apply orb_false_iff in H as [Hx H].
  rewrite !append_cons, replaceCRLF_cons_ne, IH by assumption. reflexivity.
Qed.

Lemma replaceCRLF_joinWith (lines : list string) :
  Forall (fun l => includes l cr = false) lines ->
  replaceCRLF (joinWith crlf lines) = joinWith nl lines.
Proof.
  induction lines as [|l lines IH]; intros Hall; [reflexivity|].
  apply Forall_cons in Hall as [Hl Hall]. destruct lines as [|l2 lines].
  - cbn [joinWith]. rewrite <- (append_nil_r l) at 1.
    rewrite replaceCRLF_free_append by exact Hl. apply append_nil_r.
  - change (joinWith crlf (l :: l2 :: lines))
      with (l +:+ crlf +:+ joinWith crlf (l2 :: lines)).
    rewrite replaceCRLF_free_append by exact Hl.
    change (replaceCRLF (crlf +:+ joinWith crlf (l2 :: lines)))
      with (nl +:+ replaceCRLF (joinWith crlf (l2 :: lines))).
    now rewrite IH.
Qed.

Lemma replaceCR_unchanged (s : string) : includes s cr = false -> replaceCR s = s.
Proof.
  unfold cr. induction s as [|x s IH]; [reflexivity|]. rewrite includes_char. intros H.
  apply orb_false_iff in H as [Hx H]. cbn [replaceCR]. now rewrite Hx, IH.
Qed.

Lemma parseCSV_rows_le_lines (text : string) :
  (length (csv_rows (parseCSV text))
   < length (splitOn "010" (trim (replaceCR (replaceCRLF text)))))%nat.
Proof.
  unfold parseCSV.
  destruct (splitOn_nonempty "010" (trim (replaceCR (replaceCRLF text))))
    as (first & rest & ->).
  cbn [csv_rows length]. apply Nat.lt_succ_r.
  induction rest as [|l rest IH]; [reflexivity|]. cbn [flat_map].
  rewrite length_app. destruct (truthy (trim l)); cbn [length]; lia.
Qed.

Lemma parseCSV_joined_lines (line : string) (lines : list string) :
  Forall lineBreakFree (line :: lines) ->
  (length (csv_rows (parseCSV (joinWith crlf (line :: lines)))) <= length lines)%nat.
Proof.
  intros Hall.
  assert (Hnl : Forall (fun l => includes l nl = false) (line :: lines))
    by (eapply Forall_impl; [exact Hall|]; now intros l [H1 H2]).
  assert (Hcr : Forall (fun l => includes l cr = false) (line :: lines))
    by (eapply Forall_impl; [exact Hall|]; now intros l [H1 H2]).
  pose proof (parseCSV_rows_le_lines (joinWith crlf (line :: lines))) as Hrows.
  rewrite replaceCRLF_joinWith in Hrows by exact Hcr.
  rewrite replaceCR_unchanged in Hrows
    by (apply includes_joinWith; [reflexivity|exact Hcr]).
  pose proof (length_splitOn_trim "010" (joinWith nl (line :: lines))) as Htrim.
  rewrite length_splitOn_joinWith in Htrim by exact Hnl. lia.
Qed.

Lemma lineBreakFree_inheritedText (k : string) :
  inheritedKey k = true -> lineBreakFree (App.inheritedText k).
Proof.
  unfold inheritedKey, OBJECT_PROTOTYPE_KEYS. intros Hk.
  apply bool_decide_eq_true in Hk.
  repeat (apply elem_of_cons in Hk as [->|Hk]; [vm_compute; split; reflexivity|]).
  now apply elem_of_nil in Hk.
Qed.

Lemma rowsToCSV_rows (headers : list string) (rows : list (list (string * string))) :
  Forall lineBreakFree headers ->
  Forall (fun row => Forall lineBreakFree row.*2) rows ->
  (length (csv_rows (parseCSV (App.rowsToCSV headers rows))) <= length rows)%nat.
Proof.
  intros Hheaders Hrows. unfold App.rowsToCSV. cbv zeta.
  etransitivity; [apply parseCSV_joined_lines|now rewrite length_fmap].
  constructor.
  - apply lineBreakFree_joinWith_comma, Forall_fmap.
    eapply Forall_impl; [exact Hheaders|]. intros h Hh. apply lineBreakFree_csvEscape, Hh.
  - apply Forall_fmap, Forall_forall. intros row Hrow. cbn.
    apply lineBreakFree_joinWith_comma, Forall_fmap, Forall_forall. intros h _. cbn.
    apply lineBreakFree_csvEscape.
    rewrite Forall_forall in Hrows. specialize (Hrows row Hrow).
    unfold App.cellText. destruct (objGet h row) as [v|] eqn:Hv.
    + rewrite Forall_forall in Hrows. apply Hrows. eapply objGet_elem, Hv.
    + destruct (inheritedKey h) eqn:Hh;
        [now apply lineBreakFree_inheritedText|apply lineBreakFree_nil].
Qed.

(** A file with a column named [__proto__]: the rows the script reads have
    no such cell, and the text written for a chunk has the text of
    [Object.prototype] in that column. *)
Example rowsToCSV_proto_header :
  let parsed := App.parseCSV ("url,__proto__" +:+ nl +:+ "a.example,x") in
  App.rowsToCSV (csv_headers parsed) (csv_rows parsed)
  = "url,__proto__" +:+ crlf +:+ "a.example,[object Object]".
Proof. vm_compute. reflexivity. Qed.

Section ClientChunks.

Context {rt : JsRuntime}.

(** X27. The page script never sends a chunk the endpoint refuses as too
    large: for every file the script has read, every chunk [chunkArray] cuts
    from its rows with [BATCH_CHUNK_SIZE] has at most 50 rows, the CSV text
    [rowsToCSV] writes for the chunk is read by the endpoint as at most as
    many data rows as the chunk has, and the upload of that text is never
    answered with status 413. *)
Theorem client_chunk_is_never_too_large (net : Network) (text override : string)
    (fuel : nat) (chunks : list (list (list (string * string))))
    (chunk : list (list (string * string))) :
  App.chunkArray fuel (csv_rows (App.parseCSV text)) App.BATCH_CHUNK_SIZE = Some chunks ->
  chunk ∈ chunks ->
  let upload := App.rowsToCSV (csv_headers (App.parseCSV text)) chunk in
  (length (csv_rows (parseCSV upload)) <= length chunk <= MAX_BATCH)%nat /\
  status <$> onRequestPost net (CsvUpload (Some upload) override) <> Some 413%nat.
Proof.
  intros Hchunks Hchunk upload. subst upload.
  change (App.parseCSV text) with (parseCSV text) in *.
  set (upload := App.rowsToCSV (csv_headers (parseCSV text)) chunk).
  destruct (chunkArray_chunks (csv_rows (parseCSV text)) App.BATCH_CHUNK_SIZE)
    as (chunks' & _ & Hsame & Hcat & Hsizes & _); [unfold App.BATCH_CHUNK_SIZE; lia|].
  apply Hsame in Hchunks as ->.
  destruct (parseCSV_lineBreakFree text) as (Hheaders & Hrows).
  assert (Hlen : (length chunk <= 50)%nat).
  { rewrite Forall_forall in Hsizes. apply Hsizes in Hchunk.
    unfold App.BATCH_CHUNK_SIZE in Hchunk. lia. }
  assert (Hfree : Forall (fun row => Forall lineBreakFree row.*2) chunk).
  { apply Forall_forall. intros row Hrow. rewrite Forall_forall in Hrows. apply Hrows.
    rewrite <- Hcat. apply list_elem_of_In, in_concat. exists chunk.
    split; now apply list_elem_of_In. }
  pose proof (rowsToCSV_rows (csv_headers (parseCSV text)) chunk Hheaders Hfree) as Hle.
  fold upload in Hle. unfold MAX_BATCH. split; [lia|].
  pose proof (csv_upload_cases net upload override) as H. cbv zeta in H.
  destruct (csv_rows (parseCSV upload)) as [|row rows] eqn:Hparsed.
  { rewrite H. discriminate. }
  destruct (findUrlColumn _ override) as [column|message]; [|rewrite H; discriminate].
  destruct (Nat.ltb_spec 50 (length (row :: rows))) as [Hlt|_]; [lia|].
  destruct (String.eqb column "__proto__"); rewrite H; discriminate.
Qed.

End ClientChunks.
Lemma client_chunk_is_never_too_large_example :
  let net := deadNetwork "The operation was aborted" in
  let text := "url,name" +:+ nl +:+ "a.example,x" +:+ nl +:+ "b.example,y" in
  let rows := csv_rows (App.parseCSV text) in
  let upload := App.rowsToCSV (csv_headers (App.parseCSV text)) rows in
  App.chunkArray 3 rows App.BATCH_CHUNK_SIZE = Some [rows] /\
  rows ∈ [rows] /\
  (length (csv_rows (parseCSV upload)) <= length rows <= MAX_BATCH)%nat /\
  status <$> @onRequestPost literalRuntime net (CsvUpload (Some upload) "") <> Some 413%nat.
Proof.
  cbv zeta.
  set (text := "url,name" +:+ nl +:+ "a.example,x" +:+ nl +:+ "b.example,y").
  split; [vm_compute; reflexivity|]. split; [apply list_elem_of_here|].
  apply (@client_chunk_is_never_too_large literalRuntime
           (deadNetwork "The operation was aborted") text "" 3
           [csv_rows (App.parseCSV text)] (csv_rows (App.parseCSV text)));
    [vm_compute; reflexivity|apply list_elem_of_here].
Defined.

Lemma includes_replaceChar (c d : ascii) (by_ s : string) :
  includes by_ (String d "") = false ->
  (Ascii.eqb c d = true \/ includes s (String d "") = false) ->
  includes (replaceChar c by_ s) (String d "") = false.
Proof.
  intros Hby. induction s as [|x s IH]; intros Hs; [reflexivity|]. cbn [replaceChar].
  destruct (Ascii.eqb x c) eqn:Hx.
  - rewrite includes_append_char, Hby. apply IH.
    destruct Hs as [Hc|Hs]; [now left|right].
    rewrite includes_char in Hs. now apply orb_false_iff in Hs as [_ Hs].
  - rewrite includes_char. destruct Hs as [Hc|Hs].
    + apply Ascii.eqb_eq in Hc as <-. rewrite Hx. apply IH. left. apply Ascii.eqb_refl.
    + rewrite includes_char in Hs. apply orb_false_iff in Hs as [Hxd Hs].
      rewrite Hxd. apply IH. now right.
Qed.

Lemma replaceChar_unchanged (c : ascii) (by_ s : string) :
  includes s (String c "") = false -> replaceChar c by_ s = s.
Proof.
  induction s as [|x s IH]; [reflexivity|]. rewrite includes_char. intros H.
  apply orb_false_iff in H as [Hx H]. cbn [replaceChar]. now rewrite Hx, IH.
Qed.

(** X28. What [esc] returns holds no [<], no [>] and no double quote,
    whatever it is given; a string without [&], [<], [>] and double quote is
    returned as it is, and [null] gives the empty string. *)
Theorem esc_leaves_no_markup (str : option string) :
  includes (App.esc str) "<" = false /\
  includes (App.esc str) ">" = false /\
  includes (App.esc str) dq = false /\
  (forall s, str = Some s ->
     includes s "&" = false -> includes s "<" = false ->
     includes s ">" = false -> includes s dq = false ->
     App.esc str = s) /\
  (str = None -> App.esc str = "").
Proof.
  unfold App.esc, dq. repeat split.
  - apply includes_replaceChar; [reflexivity|right].
    apply includes_replaceChar; [reflexivity|right].
    apply includes_replaceChar; [reflexivity|left; reflexivity].
  - apply includes_replaceChar; [reflexivity|right].
    apply includes_replaceChar; [reflexivity|left; reflexivity].
  - apply includes_replaceChar; [reflexivity|left; reflexivity].
  - intros s -> Ha Hl Hg Hq. cbn [default].
    now rewrite (replaceChar_unchanged "&"), (replaceChar_unchanged "<"),
      (replaceChar_unchanged ">"), (replaceChar_unchanged "034").
  - intros ->. reflexivity.
Qed.

Lemma App_URL_CANDIDATES_eq : App.URL_CANDIDATES = URL_COLUMN_CANDIDATES.
Proof. reflexivity. Qed.

(** X29. The page script and the endpoint read a CSV file alike: the two
    copies of the row splitter, of the file reader and of the cell writer
    are the same functions, the candidate names for the URL column are the
    same list, [autoDetectUrlColumn] finds a column exactly when
    [findUrlColumn] without an override returns one, and then the same one,
    and the chunk size of the script is the batch limit of the endpoint. *)
Theorem page_script_agrees_with_endpoint :
  (forall line, App.splitRow line = splitCSVRow line) /\
  (forall text, App.parseCSV text = parseCSV text) /\
  (forall v, App.escape v = csvEscape v) /\
  App.URL_CANDIDATES = URL_COLUMN_CANDIDATES /\
  (forall headers,
     App.autoDetectUrlColumn headers
     = match findUrlColumn headers "" with
       | Returned column => Some column
       | Thrown _ => None
       end) /\
  App.BATCH_CHUNK_SIZE = MAX_BATCH.
Proof.
  split; [exact App_splitRow_eq|]. split; [exact App_parseCSV_eq|].
  split; [exact App_escape_eq|]. split; [exact App_URL_CANDIDATES_eq|].
  split; [exact App_autoDetectUrlColumn_eq|reflexivity].
Qed.
